(** * Candidate ranking core: level resolver, dimension scorer,
      conversation state store and ranking pipeline

    A shallow embedding of

    - [src/utils/ranking_data.py]   (module [RankingData]),
    - [src/utils/scoring_utils.py]  (module [ScoringUtils]),
    - [src/utils/state_manager.py]  (module [StateStore]),
    - [src/config.py], [src/models/candidate.py] and
      [src/handlers/query_handler.py] (module [QueryHandler]),

    followed by the properties of these functions that the design document
    states.

    Conventions of the embedding.

    - Python [int] is [Z]; Python [float] is idealised as an exact rational
      ([Qc], canonical fractions, so that equality is Leibniz equality):
      rounding, infinities and NaN are outside the model.
    - A Python [str] is a [string] holding its UTF-8 bytes.
    - A call that may raise returns a value of [res]; [try]/[except] is
      [py_try].
    - Dictionaries used as maps are [gmap]s; dictionaries and lists whose
      iteration order the code depends on are association lists. *)

From Stdlib Require Import ZArith QArith Qcanon Lqa Ascii String Sorted.
From stdpp Require Import base option list strings pretty gmap fin_maps numbers.

Local Open Scope string_scope.
Local Open Scope Z_scope.

(** ** Python values and the builtins the sources use *)

Module Py.

Inductive exn : Set :=
| TypeError | ValueError | AttributeError | KeyError | ZeroDivisionError
| IndexError.

(** Outcome of a call: a value or a raised exception. *)
Inductive res (A : Type) : Type :=
| Ret (a : A)
| Raise (e : exn).
Arguments Ret {A} a.
Arguments Raise {A} e.

Definition bind {A B} (m : res A) (k : A → res B) : res B :=
  match m with
  | Ret a => k a
  | Raise e => Raise e
  end.

Notation "'let!' x := m 'in' k" := (bind m (fun x => k))
  (at level 10, x name, m at level 100, k at level 200, only parsing).

(** [try: body except Exception: handler]. *)
Definition py_try {A} (body : res A) (handler : exn → res A) : res A :=
  match body with
  | Ret a => Ret a
  | Raise e => handler e
  end.

(** Numbers: [int] and [float] (bool is coerced to 0/1 where Python does). *)
Inductive num : Set :=
| Int (z : Z)
| Float (q : Qc).

Definition num_Q (n : num) : Qc :=
  match n with
  | Int z => Qc_of_Z z
  | Float q => q
  end.

Definition num_mul (a b : num) : num :=
  match a, b with
  | Int x, Int y => Int (x * y)
  | _, _ => Float (num_Q a * num_Q b)
  end.

Definition num_add (a b : num) : num :=
  match a, b with
  | Int x, Int y => Int (x + y)
  | _, _ => Float (num_Q a + num_Q b)
  end.

Definition num_sub (a b : num) : num :=
  match a, b with
  | Int x, Int y => Int (x - y)
  | _, _ => Float (num_Q a - num_Q b)
  end.

(** The scalars a YAML configuration holds where the docstrings ask for
    a number or a flag: null, a boolean, an integer or a float. *)
Inductive scalar : Set :=
| SNone
| SBool (b : bool)
| SNum (n : num).

Definition SInt (z : Z) : scalar := SNum (Int z).
Definition SFloat (q : Qc) : scalar := SNum (Float q).

(** The operand of an arithmetic operator or comparison: [None] has none
    of them (TypeError), [True]/[False] count as 1/0. *)
Definition as_num (s : scalar) : res num :=
  match s with
  | SNone => Raise TypeError
  | SBool b => Ret (Int (if b then 1 else 0))
  | SNum n => Ret n
  end.

Definition py_mul (a b : scalar) : res scalar :=
  let! x := as_num a in let! y := as_num b in Ret (SNum (num_mul x y)).
Definition py_add (a b : scalar) : res scalar :=
  let! x := as_num a in let! y := as_num b in Ret (SNum (num_add x y)).
Definition py_sub (a b : scalar) : res scalar :=
  let! x := as_num a in let! y := as_num b in Ret (SNum (num_sub x y)).

(** [a / b]: true division, always a float. *)
Definition py_truediv (a b : scalar) : res scalar :=
  let! x := as_num a in let! y := as_num b in
  if bool_decide (num_Q y = 0%Qc) then Raise ZeroDivisionError
  else Ret (SFloat (num_Q x / num_Q y)).

Definition py_lt (a b : scalar) : res bool :=
  let! x := as_num a in let! y := as_num b in Ret (bool_decide (num_Q x < num_Q y)%Qc).
Definition py_le (a b : scalar) : res bool :=
  let! x := as_num a in let! y := as_num b in Ret (bool_decide (num_Q x ≤ num_Q y)%Qc).
Definition py_gt (a b : scalar) : res bool := py_lt b a.
Definition py_ge (a b : scalar) : res bool := py_le b a.

(** [max(a, b)] keeps [a] unless [b > a]; [min(a, b)] keeps [a] unless
    [b < a]. *)
Definition py_max (a b : scalar) : res scalar :=
  let! c := py_gt b a in Ret (if c then b else a).
Definition py_min (a b : scalar) : res scalar :=
  let! c := py_lt b a in Ret (if c then b else a).

Definition scalar_truthy (s : scalar) : bool :=
  match s with
  | SNone => false
  | SBool b => b
  | SNum n => negb (bool_decide (num_Q n = 0%Qc))
  end.

(** Values found in the parsed query, in candidate documents and in the
    cached state: JSON-like data plus the [datetime] stamp a candidate
    document carries. *)
#[warnings="-register-all"] Inductive pyval : Type :=
| VScalar (s : scalar)
| VStr (s : string)
| VList (l : list pyval)
| VDict (d : list (string * pyval))
| VDatetime (t : Z).

Definition VNone : pyval := VScalar SNone.
Definition VBool (b : bool) : pyval := VScalar (SBool b).
Definition VInt (z : Z) : pyval := VScalar (SInt z).
Definition VFloat (q : Qc) : pyval := VScalar (SFloat q).

Definition is_none (v : pyval) : bool :=
  match v with
  | VScalar SNone => true
  | _ => false
  end.

(** [bool(v)] *)
Definition truthy (v : pyval) : bool :=
  match v with
  | VScalar s => scalar_truthy s
  | VStr s => negb (String.eqb s "")
  | VList l => match l with [] => false | _ => true end
  | VDict d => match d with [] => false | _ => true end
  | VDatetime _ => true
  end.

(** [d.get(k)] on the association list of a dict: [None] when absent. *)
Fixpoint assoc_get {A} (k : string) (d : list (string * A)) : option A :=
  match d with
  | [] => None
  | (k', v) :: d' => if String.eqb k k' then Some v else assoc_get k d'
  end.

(** [d[k] = v] on an insertion-ordered dict. *)
Fixpoint assoc_set {A} (k : string) (v : A) (d : list (string * A))
  : list (string * A) :=
  match d with
  | [] => [(k, v)]
  | (k', v') :: d' =>
      if String.eqb k k' then (k, v) :: d' else (k', v') :: assoc_set k v d'
  end.

(** Code points: a byte of the form 10xxxxxx continues the code point
    started before it. *)
Definition is_continuation (a : ascii) : bool :=
  let n := N_of_ascii a in ((128 <=? n) && (n <? 192))%N.

Definition starts_with_continuation (s : string) : bool :=
  match s with
  | String b _ => is_continuation b
  | "" => false
  end.

Fixpoint utf8_chars (s : string) : list string :=
  match s with
  | "" => []
  | String a rest =>
      match starts_with_continuation rest, utf8_chars rest with
      | true, c :: cs => String a c :: cs
      | _, cs => String a "" :: cs
      end
  end.

(** [len(v)] *)
Definition py_len (v : pyval) : res Z :=
  match v with
  | VStr s => Ret (Z.of_nat (length (utf8_chars s)))
  | VList l => Ret (Z.of_nat (length l))
  | VDict d => Ret (Z.of_nat (length d))
  | _ => Raise TypeError
  end.

(** [for item in v]: the items a loop over [v] sees. *)
Definition py_iter (v : pyval) : res (list pyval) :=
  match v with
  | VStr s => Ret (VStr <$> utf8_chars s)
  | VList l => Ret l
  | VDict d => Ret ((λ kv, VStr kv.1) <$> d)
  | _ => Raise TypeError
  end.

(** [s.split(sep)] for a one-character separator. *)
Fixpoint split_on (sep : ascii) (s : string) : list string :=
  match s with
  | "" => [""]
  | String c s' =>
      let r := split_on sep s' in
      if Ascii.eqb c sep then "" :: r
      else match r with
           | h :: t => String c h :: t
           | [] => [String c ""]
           end
  end.

(** [s.replace(pat, '')] for a non-empty [pat]: occurrences are removed
    left to right; [skip] counts the bytes of an occurrence still to be
    dropped. *)
Fixpoint remove_from (pat : string) (skip : nat) (s : string) : string :=
  match s with
  | "" => ""
  | String c s' =>
      match skip with
      | S k => remove_from pat k s'
      | O =>
          if String.prefix pat s then remove_from pat (String.length pat - 1) s'
          else String c (remove_from pat 0 s')
      end
  end.

Definition str_remove (pat s : string) : string := remove_from pat 0 s.

(** The builtins whose full definition lies outside this development:
    parsing a float out of a string, [str()] of a value that is not a
    string, and Unicode lower-casing. *)
Class Builtins : Type := {
  float_of_str : string → option Qc;
  repr : pyval → string;
  lower : string → string;
}.

(** Stand-ins with which the functions below can be run on concrete
    inputs: no string parses as a float, [str()] of a value that is not
    a string is a fixed text, and only ASCII letters are lower-cased. *)
Definition ascii_lower (a : ascii) : ascii :=
  let n := N_of_ascii a in
  if ((65 <=? n) && (n <=? 90))%N then ascii_of_N (n + 32) else a.

Fixpoint lower_ascii (s : string) : string :=
  match s with
  | "" => ""
  | String a s' => String (ascii_lower a) (lower_ascii s')
  end.

Definition sample_builtins : Builtins :=
  {| float_of_str := λ _, None;
     repr := λ _, "<object>";
     lower := lower_ascii |}.

(** [float(v)]: ValueError for a string that is no number, TypeError for
    a value that has no float conversion. *)
Definition py_float `{Builtins} (v : pyval) : res Qc :=
  match v with
  | VScalar s => let! n := as_num s in Ret (num_Q n)
  | VStr s => match float_of_str s with
              | Some q => Ret q
              | None => Raise ValueError
              end
  | _ => Raise TypeError
  end.

(** [str(v)] *)
Definition py_str `{Builtins} (v : pyval) : string :=
  match v with
  | VStr s => s
  | _ => repr v
  end.

(** [list(set(l))]: the elements of [l] without repetition.  Python does
    not fix the order of the result; the properties below speak of
    membership only. *)
Definition list_set (l : list string) : list string := remove_dups l.

End Py.
Import Py.

(** ** [src/utils/ranking_data.py] *)

Module RankingData.

(** The ["values"] tables of [CERTIFICATE_RANKS], in declaration order. *)
Definition CERTIFICATE_RANKS : list (string * list (string * Z)) :=
  [ ("建筑师",
      [ ("助理建筑师", 1); ("中级建筑师", 2); ("高级建筑师", 3);
        ("教授级高级建筑师", 4) ]);
    ("注册建造师",
      [ ("一级注册建造师", 1); ("一级建造师", 1);
        ("二级注册建造师", 2); ("二级建造师", 2) ]);
    ("工程师",
      [ ("助理工程师", 1); ("工程师", 2); ("中级工程师", 2);
        ("高级工程师", 3); ("教授级高级工程师", 4) ]) ].

Definition CHINESE_LEVELS : list string := ["助理"; "中级"; "高级"].
Definition NUMERIC_LEVELS : list string := ["一级"; "二级"; "三级"].

Inductive level_system : Set := chinese | numeric.

(** [for i, level in enumerate(levels): info[level] = (system, i)] *)
Definition enumerate_into (sys : level_system) (levels : list string)
    (info : list (string * (level_system * Z)))
  : list (string * (level_system * Z)) :=
  foldl (λ acc il, assoc_set il.2 (sys, Z.of_nat il.1) acc) info
        (imap (λ i l, (i, l)) levels).

Definition LEVEL_INFO : list (string * (level_system * Z)) :=
  enumerate_into numeric NUMERIC_LEVELS
    (assoc_set "初级" (chinese, 0)
      (enumerate_into chinese CHINESE_LEVELS [])).

Definition modifier_is (modifier : option string) (m : string) : bool :=
  match modifier with
  | Some s => String.eqb s m
  | None => false
  end.

(** The names of one table that the modifier selects. *)
Definition select_by_value (modifier : option string) (target_value : Z)
    (category_values : list (string * Z)) : list string :=
  if modifier_is modifier "ge" then
    (filter (λ nv, target_value ≤ nv.2) category_values).*1
  else if modifier_is modifier "gt" then
    (filter (λ nv, target_value < nv.2) category_values).*1
  else
    (filter (λ nv, nv.2 = target_value) category_values).*1.

(** First table, in declaration order, that knows [full_cert_name]. *)
Fixpoint specific_rule (full_cert_name : string) (modifier : option string)
    (ranks : list (string * list (string * Z))) : option (list string) :=
  match ranks with
  | [] => None
  | (_, category_values) :: ranks' =>
      match assoc_get full_cert_name category_values with
      | Some target_value =>
          let matching_levels_names :=
            select_by_value modifier target_value category_values in
          match matching_levels_names with
          | [] => Some [full_cert_name]
          | _ => Some (list_set matching_levels_names)
          end
      | None => specific_rule full_cert_name modifier ranks'
      end
  end.

(** [range(a, b)] *)
Definition py_range (a b : Z) : list Z :=
  (λ i : nat, a + Z.of_nat i) <$> seq 0 (Z.to_nat (b - a)).

Definition target_indices (modifier : option string) (current_index len : Z)
  : list Z :=
  if modifier_is modifier "ge" then py_range current_index len
  else if modifier_is modifier "gt" then py_range (current_index + 1) len
  else [current_index].

(** [[source_list[i] for i in target_indices if 0 <= i < len(source_list)]] *)
Definition target_levels (source_list : list string) (indices : list Z)
  : list string :=
  omap (λ i : Z,
          if bool_decide (0 ≤ i < Z.of_nat (length source_list))
          then source_list !! Z.to_nat i else None) indices.

Definition registrable_professions : list string :=
  ["建筑师"; "建造师"; "工程师"].

Definition generated_names (base_name : string) (levels : list string)
  : list string :=
  let generated : list string :=
    (λ level, level +:+ base_name) <$> levels in
  if bool_decide (base_name ∈ registrable_professions) then
    let registered : list string :=
      app ((λ level, level +:+ "注册" +:+ base_name) <$> levels)
          ["注册" +:+ base_name] in
    app generated registered
  else generated.

(** The levels the generic rule selects for a keyword: those of the
    keyword's own system that the modifier admits. *)
Definition generic_levels (level_keyword : string) (modifier : option string)
  : option (list string) :=
  match assoc_get level_keyword LEVEL_INFO with
  | Some (system, current_index) =>
      let source_list :=
        match system with
        | chinese => CHINESE_LEVELS
        | numeric => NUMERIC_LEVELS
        end in
      Some (target_levels source_list
              (target_indices modifier current_index
                 (Z.of_nat (length source_list))))
  | None => None
  end.

Definition get_matching_levels (base_name : string)
    (level_keyword modifier : option string) : list string :=
  let keyword :=
    match level_keyword with
    | Some k => if String.eqb k "" then None else Some k
    | None => None
    end in
  let full_cert_name :=
    match keyword with
    | Some k => k +:+ base_name
    | None => base_name
    end in
  match specific_rule full_cert_name modifier CERTIFICATE_RANKS with
  | Some names => names
  | None =>
      match keyword ≫= λ k, generic_levels k modifier with
      | Some ((_ :: _) as levels) =>
          list_set (generated_names base_name levels)
      | _ => [full_cert_name]
      end
  end.

(** Ordinal of a name in the table of a category, if it has one. *)
Definition rank_in (category name : string) : option Z :=
  assoc_get category CERTIFICATE_RANKS ≫= assoc_get name.

(** Whether some specific table lists [name]. *)
Definition in_specific_table (name : string) : bool :=
  existsb (λ cat, bool_decide (is_Some (assoc_get name cat.2)))
          CERTIFICATE_RANKS.

End RankingData.

(** ** [src/utils/scoring_utils.py] *)

Module ScoringUtils.

(** Float literals of the source. *)
Definition f0_0 : scalar := SFloat 0.
Definition f1_0 : scalar := SFloat 1.
Definition f0_1 : scalar := SFloat (Q2Qc (1 # 10)).
Definition f0_05 : scalar := SFloat (Q2Qc (5 # 100)).
Definition f1_5 : scalar := SFloat (Q2Qc (3 # 2)).

(** The object bound to [params]: a mapping, or [None] when the
    configuration says [params: null]. *)
Definition params_t : Type := option (gmap string scalar).

(** [params.get(key, default)]; [None] has no [get]. *)
Definition params_get (params : params_t) (key : string) (default : scalar)
  : res scalar :=
  match params with
  | None => Raise AttributeError
  | Some m => Ret (from_option id default (m !! key))
  end.

(** The loop of [_safe_get_value] over the keys of the path. *)
Fixpoint walk_path (value : pyval) (keys : list string) : pyval :=
  match keys with
  | [] => value
  | key :: keys' =>
      match value with
      | VDict d =>
          match assoc_get key d with
          | Some v => if is_none v then VNone else walk_path v keys'
          | None => VNone
          end
      | _ => VNone
      end
  end.

Definition _safe_get_value (data : pyval) (path : string) : pyval :=
  if negb (truthy data) || String.eqb path "" then VNone
  else walk_path data (split_on "." path).

Section Scoring.
Context `{Builtins}.

Definition calculate_range_match_score
    (required_value candidate_value : pyval) (params : params_t)
  : res scalar :=
  let! base_score := params_get params "exact_match_score" f1_0 in
  let! tolerance := params_get params "tolerance_years" (SInt 0) in
  let! decay_rate := params_get params "score_decay_rate" f0_1 in
  let! min_score := params_get params "min_score" f0_0 in
  let! bonus_rate := params_get params "bonus_rate_per_year" f0_05 in
  let! max_factor := params_get params "max_score_factor" f1_5 in
  let! max_score := py_mul base_score max_factor in
  if is_none required_value || is_none candidate_value then Ret min_score
  else
    match (let! req_val := py_float required_value in
           let! cand_val := py_float candidate_value in
           Ret (req_val, cand_val)) with
    | Raise _ => Ret min_score
    | Ret (req_val, cand_val) =>
        if bool_decide (req_val ≤ cand_val)%Qc then
          let diff := SFloat (cand_val - req_val) in
          let! bonus := py_mul diff bonus_rate in
          let! bonus := py_mul bonus base_score in
          let! score := py_add base_score bonus in
          Ret score
        else
          let diff := SFloat (req_val - cand_val) in
          let! within := py_le diff tolerance in
          if within then
            let! decay := py_mul diff decay_rate in
            let! decay := py_mul decay base_score in
            let! score := py_sub base_score decay in
            py_max min_score score
          else
            let! edge_decay := py_mul tolerance decay_rate in
            let! edge_decay := py_mul edge_decay base_score in
            let! score_at_tolerance_edge := py_sub base_score edge_decay in
            let! additional_decay_years := py_sub diff tolerance in
            let! decay := py_mul additional_decay_years decay_rate in
            let! decay := py_mul decay f1_5 in
            let! decay := py_mul decay base_score in
            let! score := py_sub score_at_tolerance_edge decay in
            py_max min_score score
    end.

(** [set(str(item).lower() for item in v if item)] *)
Definition keyword_set (v : pyval) : res (list string) :=
  let! items := py_iter v in
  Ret (list_set ((λ item, lower (py_str item))
                   <$> filter (λ item, truthy item) items)).

Definition size_of (l : list string) : scalar := SInt (Z.of_nat (length l)).

Definition calculate_keyword_overlap_score
    (required_list candidate_list : pyval) (params : params_t)
  : res scalar :=
  let! score_per_match := params_get params "score_per_match" f1_0 in
  let! default_max_score :=
    (if truthy required_list
     then let! n := py_len required_list in py_mul (SInt n) score_per_match
     else Ret (SInt 0)) in
  let! max_score := params_get params "max_score" default_max_score in
  if negb (truthy required_list) then Ret f1_0
  else if negb (truthy candidate_list) then Ret f0_0
  else
    match (let! req_set := keyword_set required_list in
           let! cand_set := keyword_set candidate_list in
           Ret (req_set, cand_set)) with
    | Raise _ => Ret f0_0
    | Ret (req_set, cand_set) =>
        let matches := list_intersection req_set cand_set in
        let! score := py_mul (size_of matches) score_per_match in
        let! capped := py_gt max_score (SInt 0) in
        let! normalized_score :=
          (if capped then
             let! theoretical_max :=
               py_mul (size_of req_set) score_per_match in
             let! positive := py_gt theoretical_max (SInt 0) in
             if positive then
               let! ratio := py_truediv score theoretical_max in
               let! ratio := py_min ratio f1_0 in
               py_mul ratio max_score
             else Ret max_score
           else Ret score) in
        match max_score with
        | SNone => Ret score
        | _ => py_min score max_score
        end
    end.

Definition calculate_exact_match_score
    (required_value candidate_value : pyval) (params : params_t)
  : res scalar :=
  let! match_score := params_get params "match_score" f1_0 in
  let! mismatch_score := params_get params "mismatch_score" f0_0 in
  let! case_sensitive := params_get params "case_sensitive" (SBool false) in
  if is_none required_value then Ret match_score
  else if is_none candidate_value then Ret mismatch_score
  else
    let req_str := py_str required_value in
    let cand_str := py_str candidate_value in
    let matched :=
      if scalar_truthy case_sensitive then String.eqb req_str cand_str
      else String.eqb (lower req_str) (lower cand_str) in
    Ret (if matched then match_score else mismatch_score).

Definition calculate_keyword_presence_score
    (required_list candidate_list : pyval) (params : params_t)
  : res scalar :=
  let! score_per_match := params_get params "score_per_match" f1_0 in
  let! max_score := params_get params "max_score" f1_0 in
  if negb (truthy required_list) then Ret max_score
  else if negb (truthy candidate_list) then Ret f0_0
  else
    match (let! req_set := keyword_set required_list in
           let! cand_set := keyword_set candidate_list in
           Ret (req_set, cand_set)) with
    | Raise _ => Ret f0_0
    | Ret (req_set, cand_set) =>
        let matches := list_intersection req_set cand_set in
        let! score := py_mul (size_of matches) score_per_match in
        match max_score with
        | SNone => Ret score
        | _ => py_min score max_score
        end
    end.

Definition score_function : Type := pyval → pyval → params_t → res scalar.

Definition SCORE_FUNCTION_MAP : list (string * score_function) :=
  [ ("range_match", calculate_range_match_score);
    ("keyword_overlap", calculate_keyword_overlap_score);
    ("exact_match", calculate_exact_match_score);
    ("keyword_presence", calculate_keyword_presence_score) ].

(** The ["logic"] entry of a dimension; an absent key is [None]. *)
Record LogicConfig : Type := {
  logic_type : option string;
  required_value_path : option string;
  candidate_value_path : option string;
  logic_params : option params_t;
}.

(** One entry of [scoring_rules.dimensions]. *)
Record DimensionConfig : Type := {
  dim_name : option string;
  dim_enabled : option scalar;
  dim_weight : option scalar;
  dim_logic : option LogicConfig;
}.

(** [not logic_config] for a mapping: it has no key at all. *)
Definition logic_is_empty (lc : LogicConfig) : bool :=
  bool_decide (logic_type lc = None)
  && bool_decide (required_value_path lc = None)
  && bool_decide (candidate_value_path lc = None)
  && match logic_params lc with None => true | Some _ => false end.

(** [_safe_get_value(data, path.replace(prefix, '')) if path else None] *)
Definition value_at (data : pyval) (prefix : string) (path : option string)
  : pyval :=
  match path with
  | Some p =>
      if String.eqb p "" then VNone
      else _safe_get_value data (str_remove prefix p)
  | None => VNone
  end.

(** The call [score_func(required_value, candidate_value, params)] a
    dimension makes once its logic type is found in the map; nothing
    when [SCORE_FUNCTION_MAP.get(logic_type)] finds no function. *)
Definition score_call (logic_config : LogicConfig)
    (query_criteria candidate_data : pyval) : option (res scalar) :=
  match logic_type logic_config ≫= λ t, assoc_get t SCORE_FUNCTION_MAP with
  | None => None
  | Some score_func =>
      let required_value :=
        value_at query_criteria "query.criteria."
                 (required_value_path logic_config) in
      let candidate_value :=
        value_at candidate_data "candidate."
                 (candidate_value_path logic_config) in
      let params := default (Some ∅) (logic_params logic_config) in
      Some (score_func required_value candidate_value params)
  end.

Definition calculate_score_for_dimension (dimension_config : DimensionConfig)
    (query_criteria candidate_data : pyval) : res scalar :=
  if negb (scalar_truthy (default (SBool false) (dim_enabled dimension_config)))
  then Ret f0_0
  else
    match dim_logic dimension_config with
    | None => Ret f0_0
    | Some logic_config =>
        if logic_is_empty logic_config then Ret f0_0
        else
          match score_call logic_config query_criteria candidate_data with
          | None => Ret f0_0
          | Some call =>
              py_try
                (let! raw_score := call in
                 let weight := default (SInt 0) (dim_weight dimension_config) in
                 py_mul raw_score weight)
                (λ _, Ret f0_0)
          end
    end.

End Scoring.

End ScoringUtils.

(** ** [src/utils/state_manager.py] *)

Module StateStore.

Definition STATE_IDLE : string := "idle".
Definition STATE_WAITING_SELECTION : string := "waiting_selection".
Definition STATE_CONTACT_CANDIDATE_DETAILS_FLOW : string :=
  "contact_candidate_details_flow".
Definition STEP_AWAITING_WORK_LOCATION : string := "awaiting_work_location".
Definition STEP_AWAITING_JOB_CONTENT : string := "awaiting_job_content".
Definition STEP_AWAITING_TIME_ARRANGEMENT : string :=
  "awaiting_time_arrangement".

Definition DEFAULT_CACHE_MAXSIZE : Z := 1024.
Definition DEFAULT_CACHE_TTL : Qc := Qc_of_Z 180.

(** The per-conversation dictionary kept in the cache. *)
Abbreviation UserData := (gmap string pyval).

Record Entry : Type := {
  expires : Qc;
  value : UserData;
}.

(** Modelled from the spec: the cache class [TTLCache] that
    [state_manager.py] imports from the [cachetools] package, which is
    not among the sources.  The design document asks for a
    bounded-capacity store whose entries each carry a time-to-live: an
    entry written at time [t] is unreadable at every time [>= t + ttl],
    a write restarts the entry's clock, expiry is enforced lazily on
    access, and a key has at most one entry.  What the document leaves
    open follows the package: [links] lists the entries from the least to
    the most recently used one; when a new key does not fit, expired
    entries go first and then the least recently used ones; a cache of
    capacity below one refuses every value.  Time is the reading of the
    cache's clock, passed to every operation; one call of the state
    manager reads it once. *)
Record TTLCache : Type := {
  maxsize : Z;
  ttl : Qc;
  links : list (string * Entry);
}.

Definition with_links (c : TTLCache) (l : list (string * Entry)) : TTLCache :=
  {| maxsize := maxsize c; ttl := ttl c; links := l |}.

(** Modelled from the spec: an entry is readable strictly before its
    expiry time. *)
Definition live (now : Qc) (e : Entry) : bool :=
  bool_decide (now < expires e)%Qc.

Definition remove_key (k : string) (l : list (string * Entry))
  : list (string * Entry) :=
  filter (λ kv, kv.1 ≠ k) l.

Definition move_to_end (k : string) (l : list (string * Entry))
  : list (string * Entry) :=
  match assoc_get k l with
  | Some e => remove_key k l ++ [(k, e)]
  | None => l
  end.

(** Modelled from the spec: [key in cache] of [TTLCache], true for a key
    with a live entry. *)
Definition cache_contains (c : TTLCache) (now : Qc) (k : string) : bool :=
  match assoc_get k (links c) with
  | Some e => live now e
  | None => false
  end.

(** Modelled from the spec: [cache.get(key)] of [TTLCache], the value of a
    live entry, which becomes the most recently used one; nothing for an
    absent or expired key. *)
Definition cache_get (c : TTLCache) (now : Qc) (k : string)
  : option UserData * TTLCache :=
  match assoc_get k (links c) with
  | Some e =>
      if live now e then (Some (value e), with_links c (move_to_end k (links c)))
      else (None, c)
  | None => (None, c)
  end.

(** Modelled from the spec: [cache.expire(now)] of [TTLCache], which drops
    the expired entries. *)
Definition cache_expire (c : TTLCache) (now : Qc) : TTLCache :=
  with_links c (filter (λ kv, live now kv.2) (links c)).

(** Modelled from the spec: [cache[key] = v] of [TTLCache].  A value does
    not fit a cache of capacity below one (ValueError); otherwise expired
    entries are dropped, room is made for a new key, and the entry expires
    [ttl] after [now]. *)
Definition cache_setitem (c : TTLCache) (now : Qc) (k : string) (v : UserData)
  : res TTLCache :=
  if bool_decide (maxsize c < 1) then Raise ValueError
  else
    let l1 := links (cache_expire c now) in
    let l2 :=
      match assoc_get k l1 with
      | Some _ => l1
      | None => drop (Z.to_nat (Z.of_nat (length l1) + 1 - maxsize c)) l1
      end in
    Ret (with_links c
           (remove_key k l2
              ++ [(k, {| expires := (now + ttl c)%Qc; value := v |})])).

(** Modelled from the spec: [del cache[key]] of [TTLCache] for a key that
    is in the cache. *)
Definition cache_delitem (c : TTLCache) (k : string) : TTLCache :=
  with_links c (remove_key k (links c)).

Record StateManager : Type := {
  _user_states : TTLCache;
}.

Definition __init__ (ttl_seconds : option Qc) (max_size : option Z)
  : StateManager :=
  let effective_ttl := default DEFAULT_CACHE_TTL ttl_seconds in
  let effective_maxsize := default DEFAULT_CACHE_MAXSIZE max_size in
  {| _user_states :=
       {| maxsize := effective_maxsize; ttl := effective_ttl; links := [] |} |}.

(** An optional argument as the value Python binds to it. *)
Definition opt_val (o : option pyval) : pyval := default VNone o.
Definition opt_list (o : option (list pyval)) : pyval :=
  match o with
  | Some l => VList l
  | None => VNone
  end.

(** [d.get(k)] and [d.get(k, dflt)] on a user dictionary. *)
Definition dict_get (d : UserData) (k : string) (dflt : pyval) : pyval :=
  default dflt (d !! k).

(** [bool(d)] *)
Definition dict_truthy (d : UserData) : bool := negb (bool_decide (d = ∅)).

Definition _get_user_data (self : StateManager) (now : Qc) (user_id : string)
  : option UserData * StateManager :=
  let '(d, c) := cache_get (_user_states self) now user_id in
  (d, {| _user_states := c |}).

(** [user_data.get(key, dflt) if user_data else dflt] *)
Definition read_field (key : string) (dflt : pyval)
    (self : StateManager) (now : Qc) (user_id : string)
  : pyval * StateManager :=
  let '(d, self') := _get_user_data self now user_id in
  (match d with
   | Some user_data =>
       if dict_truthy user_data then dict_get user_data key dflt else dflt
   | None => dflt
   end, self').

Definition get_state := read_field "state" (VStr STATE_IDLE).
Definition get_last_results := read_field "last_results" VNone.
Definition get_query_criteria := read_field "query_criteria" VNone.
Definition get_parsed_query_data := read_field "parsed_query_data" VNone.
Definition get_query_offset := read_field "query_offset" (VInt 0).
Definition get_has_more := read_field "has_more" (VBool false).

(** [self._user_states.get(user_id, {})] *)
Definition get_or_empty (self : StateManager) (now : Qc) (user_id : string)
  : UserData * TTLCache :=
  let '(d, c) := cache_get (_user_states self) now user_id in
  (default ∅ d, c).

(** [self._user_states[user_id] = user_data] *)
Definition put (c : TTLCache) (now : Qc) (user_id : string) (d : UserData)
  : res StateManager :=
  let! c' := cache_setitem c now user_id d in
  Ret {| _user_states := c' |}.

Definition ensure_state (d : UserData) : UserData :=
  match d !! "state" with
  | Some _ => d
  | None => <["state" := VStr STATE_IDLE]> d
  end.

Definition store_parsed_query_data (self : StateManager) (now : Qc)
    (user_id : string) (parsed_data : pyval) : res StateManager :=
  let '(user_data, c) := get_or_empty self now user_id in
  let user_data := <["parsed_query_data" := parsed_data]> user_data in
  put c now user_id (ensure_state user_data).

Definition cache_results (self : StateManager) (now : Qc)
    (user_id : string) (results : option (list pyval)) : res StateManager :=
  let '(user_data, c) := get_or_empty self now user_id in
  let user_data := <["last_results" := opt_list results]> user_data in
  put c now user_id (ensure_state user_data).

Definition update_state (self : StateManager) (now : Qc)
    (user_id : string) (state : string) : res StateManager :=
  let '(user_data, c) := get_or_empty self now user_id in
  put c now user_id (<["state" := VStr state]> user_data).

Definition clear_state (self : StateManager) (now : Qc) (user_id : string)
  : StateManager :=
  if cache_contains (_user_states self) now user_id
  then {| _user_states := cache_delitem (_user_states self) user_id |}
  else self.

(** [results is not None and len(results) > 0] *)
Definition has_results (results : option (list pyval)) : bool :=
  match results with
  | Some (_ :: _) => true
  | _ => false
  end.

(** The dictionary [update_state_and_cache_results] writes back, from the
    one it found. *)
Definition merge_update (user_data : UserData) (state : string)
    (results : option (list pyval))
    (query_criteria parsed_query_data : option pyval)
    (current_offset : option Z) (has_more : option bool) : UserData :=
  let existing_parsed_data := dict_get user_data "parsed_query_data" VNone in
  let user_data := <["state" := VStr state]> user_data in
  let user_data := <["last_results" := opt_list results]> user_data in
  let user_data := <["query_criteria" := opt_val query_criteria]> user_data in
  let user_data :=
    if negb (is_none (opt_val parsed_query_data))
    then <["parsed_query_data" := opt_val parsed_query_data]> user_data
    else if negb (is_none existing_parsed_data)
    then <["parsed_query_data" := existing_parsed_data]> user_data
    else user_data in
  let user_data :=
    match current_offset with
    | Some offset => <["query_offset" := VInt offset]> user_data
    | None =>
        if String.eqb state STATE_IDLE
           || match results with None => true | Some _ => false end
        then <["query_offset" := VInt 0]> user_data
        else user_data
    end in
  match has_more with
  | Some b => <["has_more" := VBool b]> user_data
  | None => <["has_more" := VBool (has_results results)]> user_data
  end.

Definition update_state_and_cache_results (self : StateManager) (now : Qc)
    (user_id : string) (state : string)
    (results : option (list pyval))
    (query_criteria parsed_query_data : option pyval)
    (current_offset : option Z) (has_more : option bool)
  : res StateManager :=
  let '(user_data, c) := get_or_empty self now user_id in
  put c now user_id
      (merge_update user_data state results query_criteria parsed_query_data
                    current_offset has_more).

(** Modelled from the spec: the store a call of
    [update_state_and_cache_results] that raises leaves behind.  The call
    has read the entry of [user_id]; the write that the cache refused
    dropped the expired entries before it weighed the value. *)
Definition after_refused_update (self : StateManager) (now : Qc)
    (user_id : string) : StateManager :=
  {| _user_states := cache_expire (get_or_empty self now user_id).2 now |}.

Definition set_contact_flow_state (self : StateManager) (now : Qc)
    (user_id step candidate_external_userid candidate_name
       hr_sender_userid : string)
    (collected_info : option (list (string * pyval))) : res StateManager :=
  let '(user_data, c) := get_or_empty self now user_id in
  let user_data :=
    <["state" := VStr STATE_CONTACT_CANDIDATE_DETAILS_FLOW]> user_data in
  let user_data :=
    <["contact_flow_data" :=
        VDict [ ("flow", VStr STATE_CONTACT_CANDIDATE_DETAILS_FLOW);
                ("step", VStr step);
                ("candidate_external_userid", VStr candidate_external_userid);
                ("candidate_name", VStr candidate_name);
                ("hr_sender_userid", VStr hr_sender_userid);
                ("collected_info", VDict (default [] collected_info)) ]]>
      user_data in
  put c now user_id user_data.

Definition in_contact_flow (d : UserData) : bool :=
  match d !! "state" with
  | Some (VStr s) => String.eqb s STATE_CONTACT_CANDIDATE_DETAILS_FLOW
  | _ => false
  end.

Definition get_contact_flow_state (self : StateManager) (now : Qc)
    (user_id : string) : pyval * StateManager :=
  let '(d, self') := _get_user_data self now user_id in
  (match d with
   | Some user_data =>
       if dict_truthy user_data && in_contact_flow user_data
       then dict_get user_data "contact_flow_data" VNone
       else VNone
   | None => VNone
   end, self').

(** [flow_data[k] = v] on the value found under ["contact_flow_data"]. *)
Definition set_item (container : pyval) (k : string) (v : pyval) : res pyval :=
  match container with
  | VDict d => Ret (VDict (assoc_set k v d))
  | _ => Raise TypeError
  end.

Definition update_contact_flow_step_and_info (self : StateManager) (now : Qc)
    (user_id new_step : string) (info_key_to_update info_value : option string)
  : res StateManager :=
  let '(d, c) := cache_get (_user_states self) now user_id in
  match d with
  | Some user_data =>
      if negb (dict_truthy user_data && in_contact_flow user_data)
      then Ret {| _user_states := c |}
      else
        let flow_data := dict_get user_data "contact_flow_data" (VDict []) in
        let! flow_data := set_item flow_data "step" (VStr new_step) in
        let! flow_data :=
          match info_key_to_update, info_value with
          | Some key, Some info =>
              if String.eqb key "" then Ret flow_data
              else
                let! flow_data :=
                  match flow_data with
                  | VDict fd =>
                      match assoc_get "collected_info" fd with
                      | Some _ => Ret flow_data
                      | None => set_item flow_data "collected_info" (VDict [])
                      end
                  | _ => Raise TypeError
                  end in
                match flow_data with
                | VDict fd =>
                    let! collected :=
                      set_item (default VNone (assoc_get "collected_info" fd))
                               key (VStr info) in
                    set_item flow_data "collected_info" collected
                | _ => Raise TypeError
                end
          | _, _ => Ret flow_data
          end in
        put c now user_id (<["contact_flow_data" := flow_data]> user_data)
  | None => Ret {| _user_states := c |}
  end.

End StateStore.

(** ** [src/config.py], [src/models/candidate.py] and
       [src/handlers/query_handler.py] *)

Module QueryHandler.
Import ScoringUtils StateStore.

(** *** The candidate model *)

Record Candidate : Type := {
  _id : option string;
  name : option string;
  phone : option string;
  email : option string;
  wxid : option string;
  external_wecom_id : option string;
  resume_pdf_path : option string;
  source_file_original_name : option string;
  extracted_info : option pyval;
  query_tags : option pyval;
  last_processed_time : option Z;
}.

Definition opt_str (o : option string) : pyval :=
  match o with
  | Some s => VStr s
  | None => VNone
  end.

(** [str(o)] of an optional string: [str(None)] is the text [None]. *)
Definition str_of_opt (o : option string) : string := default "None" o.

(** [bool(o)] of an optional string. *)
Definition opt_truthy (o : option string) : bool :=
  match o with
  | Some s => negb (String.eqb s "")
  | None => false
  end.

Definition to_dict (self : Candidate) : pyval :=
  let data : list (string * pyval) :=
    [ ("name", opt_str (name self));
      ("phone", opt_str (phone self));
      ("email", opt_str (email self));
      ("wxid", opt_str (wxid self));
      ("external_wecom_id", opt_str (external_wecom_id self));
      ("resume_pdf_path", opt_str (resume_pdf_path self));
      ("source_file_original_name", opt_str (source_file_original_name self));
      ("extracted_info", opt_val (extracted_info self));
      ("query_tags", opt_val (query_tags self));
      ("last_processed_time",
        match last_processed_time self with
        | Some t => VDatetime t
        | None => VNone
        end) ] in
  let data :=
    if opt_truthy (_id self) then app data [("_id", opt_str (_id self))]
    else data in
  VDict (filter (λ kv, is_none kv.2 = false) data).

(** *** The scoring rules of the configuration *)

Record ScoringRules : Type := {
  initial_candidate_pool_size : option scalar;
  dimensions : option (list (string * DimensionConfig));
}.

(** The loaded configuration, as far as ranking reads it. *)
Record AppConfig : Type := {
  scoring_rules : option ScoringRules;
}.

(** [not scoring_config]: the section is missing or has no key. *)
Definition rules_falsy (r : ScoringRules) : bool :=
  match initial_candidate_pool_size r, dimensions r with
  | None, None => true
  | _, _ => false
  end.

(** [isinstance(pool_size, int) and pool_size > 0], giving the integer. *)
Definition positive_int (s : option scalar) : option Z :=
  match s with
  | Some (SBool b) => if b then Some 1 else None
  | Some (SNum (Int z)) => if bool_decide (z ≤ 0) then None else Some z
  | _ => None
  end.

Definition get_scoring_rules (config : AppConfig) : option ScoringRules :=
  match scoring_rules config with
  | None => None
  | Some scoring_config =>
      if rules_falsy scoring_config then None
      else
        match positive_int (initial_candidate_pool_size scoring_config) with
        | None => None
        | Some _ =>
            match dimensions scoring_config with
            | None => None
            | Some _ => Some scoring_config
            end
        end
  end.

(** *** Collaborators *)

(** The candidate store and the language model, seen through the calls
    the handler makes: each call returns or raises. *)
Class Collaborators : Type := {
  find_candidates : pyval → Z → Z → res (list Candidate);
  get_brief_comparison_summary : pyval → list pyval → res pyval;
}.

Record WxMsg : Type := {
  sender : string;
  roomid : string;
  from_group : bool;
}.

(** The two fixed texts of the handler. *)
Definition DbErrorText : string :=
  "抱歉，查询候选人时遇到数据库错误，请稍后再试。".
Definition NotFoundText : string := "抱歉，未找到符合条件的候选人。".

(** A call of [ew_service.send_text_message]. *)
Record outgoing : Type := {
  text : string;
  user_ids : list string;
  tag_ids : option (list string);
}.

(** [tag_ids=[at_user_id] if at_user_id else None] *)
Definition tags_of (at_user_id : option string) : option (list string) :=
  match at_user_id with
  | Some u => if String.eqb u "" then None else Some [u]
  | None => None
  end.

(** What a call of the handler changes: the state store and the messages
    handed to the transport, oldest first. *)
Record World : Type := {
  store : StateManager;
  outbox : list outgoing;
}.

Definition send (w : World) (m : outgoing) : World :=
  {| store := store w; outbox := app (outbox w) [m] |}.

Definition with_store (w : World) (s : StateManager) : World :=
  {| store := s; outbox := outbox w |}.

(** *** Scoring, sorting and paging *)

Section Pipeline.
Context `{Builtins} `{Collaborators}.

(** The inner loop over the dimensions: a dimension that is not enabled
    is skipped, one whose score cannot be added leaves the total as it
    was. *)
Definition total_score (dimensions_config : list (string * DimensionConfig))
    (parsed_query_data candidate_dict : pyval) : Qc :=
  foldl
    (λ (total_score : Qc) (dim : string * DimensionConfig),
       if scalar_truthy (default (SBool false) (dim_enabled dim.2)) then
         match
           (let! dim_score :=
              calculate_score_for_dimension dim.2 parsed_query_data
                                            candidate_dict in
            as_num dim_score)
         with
         | Ret n => (total_score + num_Q n)%Qc
         | Raise _ => total_score
         end
       else total_score)
    (0%Qc) dimensions_config.

(** The [candidate_scores] map after the loop over the pool. *)
Definition score_pool (dimensions_config : list (string * DimensionConfig))
    (parsed_query_data : pyval) (pool : list Candidate) : gmap string Qc :=
  foldl
    (λ (candidate_scores : gmap string Qc) (candidate : Candidate),
       let score :=
         total_score dimensions_config parsed_query_data
                     (to_dict candidate) in
       if opt_truthy (_id candidate)
       then <[str_of_opt (_id candidate) := score]> candidate_scores
       else candidate_scores)
    ∅ pool.

(** Insertion before the first element whose key is not larger. *)
Fixpoint insert_desc {A} (key : A → Qc) (x : A) (l : list A) : list A :=
  match l with
  | [] => [x]
  | y :: l' =>
      if bool_decide (key y ≤ key x)%Qc then x :: y :: l'
      else y :: insert_desc key x l'
  end.

(** [sorted(l, key=key, reverse=True)]: descending, elements of equal
    key in their original order. *)
Fixpoint sorted_desc {A} (key : A → Qc) (l : list A) : list A :=
  match l with
  | [] => []
  | x :: l' => insert_desc key x (sorted_desc key l')
  end.

Definition sort_key (candidate_scores : gmap string Qc) (c : Candidate) : Qc :=
  default 0%Qc (candidate_scores !! str_of_opt (_id c)).

Definition scored_and_sorted_candidates (scoring_config : option ScoringRules)
    (parsed_query_data : pyval) (candidates_pool_models : list Candidate)
  : list Candidate :=
  match scoring_config, candidates_pool_models with
  | Some cfg, _ :: _ =>
      let dimensions_config := default [] (dimensions cfg) in
      let candidate_scores :=
        score_pool dimensions_config parsed_query_data
                   candidates_pool_models in
      sorted_desc (sort_key candidate_scores) candidates_pool_models
  | _, _ => candidates_pool_models
  end.

(** [l[start:stop]] *)
Definition clamp_index (len i : Z) : Z :=
  if bool_decide (i < 0) then Z.max (i + len) 0 else Z.min i len.

Definition py_slice {A} (l : list A) (start stop : Z) : list A :=
  let len := Z.of_nat (length l) in
  let lo := clamp_index len start in
  let hi := clamp_index len stop in
  take (Z.to_nat (hi - lo)) (drop (Z.to_nat lo) l).

Definition display_limit : Z := 5.

(** [enumerate] with the one-based index of the page. *)
Definition summary_info (i : nat) (cand : Candidate) : pyval :=
  VDict [ ("index", VInt (Z.of_nat i + 1));
          ("name", opt_str (name cand));
          ("extracted_info", opt_val (extracted_info cand)) ].

Definition cached_result (i : nat) (cand : Candidate) : pyval :=
  VDict [ ("index", VInt (Z.of_nat i + 1));
          ("wxid", opt_str (wxid cand));
          ("resume_path", opt_str (resume_pdf_path cand));
          ("name", opt_str (name cand));
          ("extracted_info", opt_val (extracted_info cand)) ].

(** *** The result message *)

Definition newline : string := String "010" "".

(** [obj.get(key, dflt)] on [query_tags] or [extracted_info]: [None] and
    every value that is no dictionary have no [get]. *)
Definition attr_get (obj : option pyval) (key : string) (dflt : pyval)
  : res pyval :=
  match obj with
  | Some (VDict d) => Ret (default dflt (assoc_get key d))
  | _ => Raise AttributeError
  end.

(** [v[0]]; the keys of a dictionary are strings, 0 is none of them. *)
Definition py_first (v : pyval) : res pyval :=
  match v with
  | VList (x :: _) => Ret x
  | VList [] => Raise IndexError
  | VStr s =>
      match utf8_chars s with
      | c :: _ => Ret (VStr c)
      | [] => Raise IndexError
      end
  | VDict _ => Raise KeyError
  | _ => Raise TypeError
  end.

(** [v[:n]]; a dictionary takes no slice as a key (TypeError; KeyError
    from Python 3.12 on). *)
Definition py_prefix (n : nat) (v : pyval) : res pyval :=
  match v with
  | VList l => Ret (VList (take n l))
  | VStr s => Ret (VStr (String.concat "" (take n (utf8_chars s))))
  | _ => Raise TypeError
  end.

(** [sep.join(v)]: every item has to be a string. *)
Fixpoint str_items (l : list pyval) : res (list string) :=
  match l with
  | [] => Ret []
  | VStr s :: l' => let! items := str_items l' in Ret (s :: items)
  | _ :: _ => Raise TypeError
  end.

Definition py_join (sep : string) (v : pyval) : res string :=
  let! items := py_iter v in
  let! items := str_items items in
  Ret (String.concat sep items).

(** The line of the candidate at position [i] of the page; [pretty]
    writes an integer in decimal digits. *)
Definition result_line (i : nat) (candidate : Candidate) : res string :=
  let name :=
    if opt_truthy (name candidate) then str_of_opt (name candidate)
    else "未知姓名" in
  let! positions := attr_get (query_tags candidate) "positions" VNone in
  let! position :=
    py_first (if truthy positions then positions
              else VList [VStr "未知职位"]) in
  let! experience :=
    attr_get (query_tags candidate) "min_experience_years" VNone in
  let exp_str :=
    if is_none experience then "经验未知"
    else py_str experience +:+ "年经验" in
  let! skills := attr_get (extracted_info candidate) "skills" (VList []) in
  let! shown := py_prefix 3 skills in
  let! joined := py_join ", " shown in
  let! count := py_len skills in
  let skills_str :=
    joined +:+ (if bool_decide (3 < count) then "..." else "") in
  let skills_display :=
    if String.eqb skills_str "" then ""
    else " (技能: " +:+ skills_str +:+ ")" in
  Ret (pretty (Z.of_nat i + 1) +:+ ". " +:+ name +:+ " - "
       +:+ py_str position +:+ " - " +:+ exp_str +:+ skills_display).

(** The loop over [enumerate(results)], from position [i] on. *)
Fixpoint result_lines (i : nat) (results : list Candidate)
  : res (list string) :=
  match results with
  | [] => Ret []
  | candidate :: rest =>
      let! line := result_line i candidate in
      let! lines := result_lines (S i) rest in
      Ret (line :: lines)
  end.

Definition instruction_lines : list string :=
  [ newline +:+ "--- 指令示例 ---";
    "- 获取简历: 简历 1 (可指定多个)";
    "- 获取详细信息: 信息 2 (可指定多个)";
    "- 联系候选人: 联系 1 (只能指定一个)";
    "- 查看更多匹配: A (按评分排序)";
    "- 都不满意/放弃: B" ].

(** A candidate whose [query_tags] or [extracted_info] is no dictionary,
    or whose position or skills cannot be shown, raises; so does the
    final join for a summary that is true but no string. *)
Definition _format_results_message (results : list Candidate)
    (summary : pyval) (original_pool_size : option Z) : res string :=
  match results with
  | [] => Ret NotFoundText
  | _ :: _ =>
      let display_count := Z.of_nat (length results) in
      let first_line :=
        match original_pool_size with
        | Some size =>
            if negb (bool_decide (size = 0))
               && bool_decide (display_count < size)
            then "从 " +:+ pretty size
                 +:+ " 位初步匹配者中，为您筛选出评分最高的 "
                 +:+ pretty display_count +:+ " 位候选人:"
            else "找到 " +:+ pretty display_count +:+ " 位符合条件的候选人:"
        | None => "找到 " +:+ pretty display_count +:+ " 位符合条件的候选人:"
        end in
      let! lines := result_lines 0 results in
      let! summary_lines :=
        if truthy summary then
          match summary with
          | VStr s => Ret [newline +:+ "--- 简要分析 ---"; s]
          | _ => Raise TypeError
          end
        else Ret [] in
      Ret (String.concat newline
             (first_line :: app lines (app summary_lines instruction_lines)))
  end.

(** The summary of the page: what the language model returns, nothing
    when it raises. *)
Definition summary_for (parsed_query_data : pyval)
    (candidates_to_display : list Candidate) : pyval :=
  match get_brief_comparison_summary parsed_query_data
          (imap summary_info candidates_to_display) with
  | Ret summary_text => summary_text
  | Raise _ => VNone
  end.

Definition context_of (msg : WxMsg) : string * string * option string :=
  let room_id := if from_group msg then Some (roomid msg) else None in
  if opt_truthy room_id
  then (sender msg +:+ "_" +:+ roomid msg, roomid msg, Some (sender msg))
  else (sender msg, sender msg, None).

(** How many candidates are fetched, and from where: the whole pool
    from its start when scoring, one page at the offset otherwise. *)
Definition fetch_limit (scoring_config : option ScoringRules) : Z :=
  match scoring_config with
  | Some cfg => default 30 (positive_int (initial_candidate_pool_size cfg))
  | None => display_limit
  end.

Definition fetch_offset (scoring_config : option ScoringRules) (offset : Z)
  : Z :=
  match scoring_config with
  | Some _ => 0
  | None => offset
  end.

(** A call returns or raises, and leaves a world behind either way.  The
    result message is built before anything is sent: when building it
    raises, the call raises with the world as it found it.  When the
    closing update raises, the page has been sent. *)
Definition _fetch_and_send_candidates (config : AppConfig) (msg : WxMsg)
    (query_criteria : pyval) (offset : Z) (parsed_query_data : pyval)
    (now : Qc) (w : World) : res bool * World :=
  let '(context_key, receiver_id, at_user_id) := context_of msg in
  let scoring_config := get_scoring_rules config in
  let perform_scoring :=
    match scoring_config with Some _ => true | None => false end in
  match find_candidates query_criteria (fetch_limit scoring_config)
                        (fetch_offset scoring_config offset) with
  | Raise _ =>
      let w := send w {| text := DbErrorText; user_ids := [receiver_id];
                         tag_ids := None |} in
      (Ret false, with_store w (clear_state (store w) now context_key))
  | Ret candidates_pool_models =>
      let total_found_in_db := Z.of_nat (length candidates_pool_models) in
      let ranked :=
        scored_and_sorted_candidates scoring_config parsed_query_data
                                     candidates_pool_models in
      let start_index := offset in
      let end_index := offset + display_limit in
      let candidates_to_display := py_slice ranked start_index end_index in
      let original_pool_size_info :=
        if perform_scoring then Some total_found_in_db else None in
      match candidates_to_display with
      | _ :: _ =>
          let summary_text :=
            summary_for parsed_query_data candidates_to_display in
          match _format_results_message candidates_to_display summary_text
                  original_pool_size_info with
          | Raise e => (Raise e, w)
          | Ret response_message =>
              let w :=
                send w {| text := response_message;
                          user_ids := [receiver_id];
                          tag_ids := tags_of at_user_id |} in
              let cached_results :=
                imap cached_result candidates_to_display in
              let next_offset := end_index in
              let has_more :=
                bool_decide (next_offset < Z.of_nat (length ranked)) in
              match
                update_state_and_cache_results (store w) now context_key
                  STATE_WAITING_SELECTION (Some cached_results)
                  (Some query_criteria) (Some parsed_query_data)
                  (Some next_offset) (Some has_more)
              with
              | Ret s => (Ret true, with_store w s)
              | Raise e =>
                  (Raise e,
                   with_store w
                     (after_refused_update (store w) now context_key))
              end
          end
      | [] =>
          if bool_decide (offset = 0) then
            let w := send w {| text := NotFoundText;
                               user_ids := [receiver_id];
                               tag_ids := tags_of at_user_id |} in
            (Ret false, with_store w (clear_state (store w) now context_key))
          else (Ret false, w)
      end
  end.

End Pipeline.

End QueryHandler.

(** ** [src/utils/ranking_data.py]: [check_certificate_exists] *)

Module CertificateCheck.
Import RankingData.

Definition code_point (bytes : list Z) : string :=
  string_of_list_ascii ((λ b, ascii_of_N (Z.to_N b)) <$> bytes).

(** The code points [str.strip] removes, those for which [str.isspace]
    holds: U+0009 to U+000D, U+001C to U+0020, U+0085, U+00A0, U+1680,
    U+2000 to U+200A, U+2028, U+2029, U+202F, U+205F and U+3000. *)
Definition whitespace : list string :=
  app ((λ n, code_point [n]) <$> [9; 10; 11; 12; 13; 28; 29; 30; 31; 32])
 (app [ code_point [194; 133]; code_point [194; 160];
        code_point [225; 154; 128] ]
 (app ((λ n, code_point [226; 128; n])
         <$> [128; 129; 130; 131; 132; 133; 134; 135; 136; 137; 138])
      [ code_point [226; 128; 168]; code_point [226; 128; 169];
        code_point [226; 128; 175]; code_point [226; 129; 159];
        code_point [227; 128; 128] ])).

Definition is_space (c : string) : bool := bool_decide (c ∈ whitespace).

Fixpoint lstrip (chars : list string) : list string :=
  match chars with
  | c :: chars' => if is_space c then lstrip chars' else chars
  | [] => []
  end.

(** [s.strip()] *)
Definition py_strip (s : string) : string :=
  String.concat "" (reverse (lstrip (reverse (lstrip (utf8_chars s))))).

(** [len(s)] and [s[n:]], in code points. *)
Definition char_count (s : string) : nat := length (utf8_chars s).

Definition str_from (n : nat) (s : string) : string :=
  String.concat "" (drop n (utf8_chars s)).

(** [sorted(LEVEL_INFO.keys(), key=len, reverse=True)] *)
Definition sorted_keywords : list string :=
  QueryHandler.sorted_desc
    (λ keyword, Qc_of_Z (Z.of_nat (char_count keyword))) LEVEL_INFO.*1.

Definition check_certificate_exists (cert_name : string) : bool :=
  if in_specific_table cert_name then true
  else
    existsb
      (λ keyword,
         String.prefix keyword cert_name
         && let base_name_part :=
              py_strip (str_from (char_count keyword) cert_name) in
            negb (String.eqb base_name_part ""))
      sorted_keywords.

End CertificateCheck.

(** ** [src/handlers/query_handler.py]: [_expand_skills] *)

Module SkillExpansion.
Import CertificateCheck.

Definition SKILL_SYNONYMS : list (list string) :=
  [ ["cad"; "autocad"; "cad制图"] ].

Section Skills.
Context `{Builtins}.

(** [{skill.strip().lower() for skill in skills
      if isinstance(skill, str) and skill.strip()}] *)
Definition normalized_input_skills (skills : list pyval) : list string :=
  list_set
    (omap (λ skill,
             match skill with
             | VStr s =>
                 if String.eqb (py_strip s) "" then None
                 else Some (lower (py_strip s))
             | _ => None
             end) skills).

(** One turn of the loop over the normalised skills: the first group
    that holds the skill is added whole, a skill of no group is added
    itself. *)
Definition expand_one (expanded_set : list string) (skill : string)
  : list string :=
  match List.find (λ group, bool_decide (skill ∈ group)) SKILL_SYNONYMS with
  | Some group => list_union expanded_set group
  | None => list_union expanded_set [skill]
  end.

Definition _expand_skills (skills : pyval) : res (list string) :=
  if negb (truthy skills) then Ret []
  else
    let! items := py_iter skills in
    Ret (list_set (foldl expand_one [] (normalized_input_skills items))).

End Skills.

End SkillExpansion.

(** ** [src/handlers/selection_handler.py]: the replies "A" and "B" *)

Module SelectionHandler.
Import StateStore QueryHandler.

(** The fixed texts this module sends. *)
Inductive notice : Set :=
| MissingQueryText
| NoMoreText
| MoreErrorText
| RejectAllText.

(** A call of [ew_service.send_text_message]: one made by
    [_fetch_and_send_candidates], or one of this module. *)
Inductive message : Type :=
| Page (m : outgoing)
| Notice (text : notice) (user_ids : list string)
         (tag_ids : option (list string)).

Record Conversation : Type := {
  state_manager : StateManager;
  sent : list message;
}.

Definition with_manager (cv : Conversation) (s : StateManager)
  : Conversation :=
  {| state_manager := s; sent := sent cv |}.

Definition notify (cv : Conversation) (text : notice) (receiver_id : string)
    (at_user_id : option string) : Conversation :=
  {| state_manager := state_manager cv;
     sent := app (sent cv) [Notice text [receiver_id] (tags_of at_user_id)] |}.

Definition cleared (cv : Conversation) (now : Qc) (context_key : string)
  : Conversation :=
  with_manager cv (clear_state (state_manager cv) now context_key).

(** The offset kept under ["query_offset"], as the [int] that
    [update_state_and_cache_results] stores there ([bool] counts as 0 or
    1); no function of the sources stores another value. *)
Definition as_offset (v : pyval) : option Z :=
  match v with
  | VScalar (SNum (Int z)) => Some z
  | VScalar (SBool b) => Some (if b then 1 else 0)
  | _ => None
  end.

(** [state != STATE_IDLE] *)
Definition not_idle (state : pyval) : bool :=
  match state with
  | VStr s => negb (String.eqb s STATE_IDLE)
  | _ => true
  end.

Section Replies.
Context `{Builtins} `{Collaborators}.

(** The reply "A".  The four getters, the callee and the calls that
    follow it read the clock at [now].  Whether the callee returns or
    raises, what it sent and what it left in the store stay.  The result
    is [None] when the value stored as the offset is no integer. *)
Definition _handle_more_results (config : AppConfig) (msg : WxMsg)
    (now : Qc) (cv : Conversation) : option (res Conversation) :=
  let '(context_key, receiver_id, at_user_id) := context_of msg in
  let '(query_criteria, s) :=
    get_query_criteria (state_manager cv) now context_key in
  let '(next_offset, s) := get_query_offset s now context_key in
  let '(parsed_query_data, s) := get_parsed_query_data s now context_key in
  let '(has_more, s) := get_has_more s now context_key in
  let cv := with_manager cv s in
  if negb (truthy query_criteria) || negb (truthy parsed_query_data) then
    Some (Ret (cleared (notify cv MissingQueryText receiver_id at_user_id)
                       now context_key))
  else if negb (truthy has_more) then
    Some (Ret (cleared (notify cv NoMoreText receiver_id at_user_id)
                       now context_key))
  else
    match as_offset next_offset with
    | None => None
    | Some offset =>
        let w := {| store := s; outbox := [] |} in
        let '(outcome, w') :=
          _fetch_and_send_candidates config msg query_criteria offset
            parsed_query_data now w in
        let cv :=
          {| state_manager := store w';
             sent := app (sent cv) (Page <$> outbox w') |} in
        Some
          match outcome with
          | Ret candidates_found_next_page =>
              if candidates_found_next_page then Ret cv
              else
                let '(state, s') :=
                  get_state (state_manager cv) now context_key in
                let cv := with_manager cv s' in
                if not_idle state then Ret (cleared cv now context_key)
                else Ret cv
          | Raise _ =>
              let cv := notify cv MoreErrorText receiver_id at_user_id in
              let! s' :=
                update_state_and_cache_results (state_manager cv) now
                  context_key STATE_WAITING_SELECTION None None None None
                  None in
              Ret (with_manager cv s')
          end
    end.

End Replies.

(** The reply "B". *)
Definition _handle_reject_all (msg : WxMsg) (now : Qc) (cv : Conversation)
  : Conversation :=
  let '(context_key, receiver_id, at_user_id) := context_of msg in
  cleared (notify cv RejectAllText receiver_id at_user_id) now context_key.

End SelectionHandler.

(** * Statements

    The predicates in which the properties below are phrased, and the
    sample inputs on which they are run. *)

Module Statements.
Import RankingData ScoringUtils.

(** What the design document promises of a call for a registrable
    profession: each selected level composed with the base name, its
    "注册" form, and the bare "注册" form. *)
Definition returns_registered_variants (base_name level_keyword : string)
    (modifier : option string) (levels : list string) : Prop :=
  let names := get_matching_levels base_name (Some level_keyword) modifier in
  (∀ level, level ∈ levels →
     (level +:+ base_name) ∈ names
     ∧ (level +:+ "注册" +:+ base_name) ∈ names)
  ∧ ("注册" +:+ base_name) ∈ names.

Definition recognized_types : list string :=
  ["range_match"; "keyword_overlap"; "exact_match"; "keyword_presence"].

(** The logic type of a dimension is one the scorer knows. *)
Definition has_recognized_type (dc : DimensionConfig) : bool :=
  match dim_logic dc ≫= logic_type with
  | Some t => bool_decide (t ∈ recognized_types)
  | None => false
  end.










(** Sample dimensions: one switched off, one of an unknown logic type,
    and an overlap dimension whose required value is a number. *)
Definition sample_logic (t path : string) : LogicConfig :=
  {| logic_type := Some t;
     required_value_path := Some path;
     candidate_value_path := Some "candidate.query_tags.skills_normalized";
     logic_params := None |}.

Definition sample_dimension (enabled : bool) (t path : string)
  : DimensionConfig :=
  {| dim_name := Some "skills";
     dim_enabled := Some (SBool enabled);
     dim_weight := Some (SInt 30);
     dim_logic := Some (sample_logic t path) |}.

Definition sample_query : pyval :=
  VDict [ ("position", VStr "engineer");
          ("experience_years_min", VInt 3);
          ("skills", VList [VStr "Python"; VStr "CAD"]) ].

Definition sample_candidate_data : pyval :=
  VDict [ ("name", VStr "Li");
          ("query_tags",
            VDict [ ("min_experience_years", VInt 5);
                    ("skills_normalized", VList [VStr "python"]) ]) ].

(** The dictionary a call finds for a key: the live entry's, or an
    empty one. *)
Definition stored (self : StateStore.StateManager) (now : Qc)
    (user_id : string) : gmap string pyval :=
  (StateStore.get_or_empty self now user_id).1.

(** Every getter answers as for a conversation that was never seen. *)
Definition reads_as_idle (self : StateStore.StateManager) (now : Qc)
    (user_id : string) : Prop :=
  (StateStore.get_state self now user_id).1 = VStr StateStore.STATE_IDLE
  ∧ (StateStore.get_last_results self now user_id).1 = VNone
  ∧ (StateStore.get_query_criteria self now user_id).1 = VNone
  ∧ (StateStore.get_parsed_query_data self now user_id).1 = VNone
  ∧ (StateStore.get_query_offset self now user_id).1 = VInt 0
  ∧ (StateStore.get_has_more self now user_id).1 = VBool false.

(** A sample conversation: a store with the default settings in which,
    at time 0, the parsed query of user "hr_1" is stored and a first
    page is committed. *)
Definition unwrap (r : res StateStore.StateManager)
  : StateStore.StateManager :=
  match r with
  | Ret s => s
  | Raise _ => StateStore.__init__ None None
  end.

Definition sample_parsed : pyval :=
  VDict [ ("position", VStr "engineer"); ("experience_years_min", VInt 3) ].

Definition sample_page : list pyval :=
  [ VDict [ ("index", VInt 1); ("name", VStr "Li") ] ].

Definition sample_store_parsed : StateStore.StateManager :=
  unwrap (StateStore.store_parsed_query_data
            (StateStore.__init__ None None) 0 "hr_1" sample_parsed).

Definition sample_store_page : StateStore.StateManager :=
  unwrap (StateStore.update_state_and_cache_results sample_store_parsed 0
            "hr_1" StateStore.STATE_WAITING_SELECTION (Some sample_page)
            (Some (VDict [])) None (Some 5%Z) (Some true)).

(** The pool size handed to the result message: the number of
    candidates fetched when the pool is scored, nothing otherwise. *)
Definition shown_pool_size (scoring_config : option QueryHandler.ScoringRules)
    (pool : list QueryHandler.Candidate) : option Z :=
  match scoring_config with
  | Some _ => Some (Z.of_nat (length pool))
  | None => None
  end.

(** The result message of [page] can be built: neither a candidate of
    the page nor the summary obtained for it makes
    [_format_results_message] raise. *)
Definition formats `{Builtins} `{QueryHandler.Collaborators}
    (parsed_query_data : pyval) (original_pool_size : option Z)
    (page : list QueryHandler.Candidate) : bool :=
  match
    QueryHandler._format_results_message page
      (QueryHandler.summary_for parsed_query_data page) original_pool_size
  with
  | Ret _ => true
  | Raise _ => false
  end.

(** A call of the handler returns [True], sends the result message of
    [page], with the summary obtained for that page, as its one new
    message and commits the page: until the entry expires the store
    returns the cached page, [next_offset] and [has_more] for the
    conversation. *)
Definition commits_page `{Builtins} `{QueryHandler.Collaborators}
    (config : QueryHandler.AppConfig) (msg : QueryHandler.WxMsg)
    (query_criteria : pyval) (offset : Z) (parsed_query_data : pyval)
    (now : Qc) (w : QueryHandler.World)
    (page : list QueryHandler.Candidate) (next_offset : Z) (has_more : bool)
  : Prop :=
  let key := (QueryHandler.context_of msg).1.1 in
  ∃ w' m size,
    QueryHandler._fetch_and_send_candidates config msg query_criteria offset
      parsed_query_data now w = (Ret true, w')
    ∧ QueryHandler.outbox w' = app (QueryHandler.outbox w) [m]
    ∧ QueryHandler._format_results_message page
        (QueryHandler.summary_for parsed_query_data page) size
      = Ret (QueryHandler.text m)
    ∧ ∀ now',
        (now' < now + StateStore.ttl
                        (StateStore._user_states (QueryHandler.store w)))%Qc →
        (StateStore.get_last_results (QueryHandler.store w') now' key).1
        = VList (imap QueryHandler.cached_result page)
        ∧ (StateStore.get_query_offset (QueryHandler.store w') now' key).1
          = VInt next_offset
        ∧ (StateStore.get_has_more (QueryHandler.store w') now' key).1
          = VBool has_more.

(** A sample search: twelve candidates with 1 to 12 years of experience,
    each with a position and two skills, a store that honours skip and
    limit, a language model that answers with a text, and rules that
    score the experience against the required minimum. *)
Definition sample_candidate (n : Z) : QueryHandler.Candidate :=
  {| QueryHandler._id := Some ("id" +:+ pretty n);
     QueryHandler.name := Some ("candidate " +:+ pretty n);
     QueryHandler.phone := None;
     QueryHandler.email := None;
     QueryHandler.wxid := None;
     QueryHandler.external_wecom_id := None;
     QueryHandler.resume_pdf_path := None;
     QueryHandler.source_file_original_name := None;
     QueryHandler.extracted_info :=
       Some (VDict [ ("skills", VList [VStr "python"; VStr "cad"]) ]);
     QueryHandler.query_tags :=
       Some (VDict [ ("positions", VList [VStr "engineer"]);
                     ("min_experience_years", VInt n) ]);
     QueryHandler.last_processed_time := None |}.

Definition sample_pool : list QueryHandler.Candidate :=
  sample_candidate <$> [4; 9; 1; 12; 7; 2; 10; 5; 3; 11; 6; 8]%Z.

Definition sample_collaborators : QueryHandler.Collaborators :=
  {| QueryHandler.find_candidates := λ _ limit offset,
       Ret (take (Z.to_nat limit) (drop (Z.to_nat offset) sample_pool));
     QueryHandler.get_brief_comparison_summary := λ _ _,
       Ret (VStr "summary") |}.

Definition sample_rules : QueryHandler.ScoringRules :=
  {| QueryHandler.initial_candidate_pool_size := Some (SInt 30);
     QueryHandler.dimensions :=
       Some [ ("experience",
               {| dim_name := Some "experience";
                  dim_enabled := Some (SBool true);
                  dim_weight := Some (SInt 30);
                  dim_logic :=
                    Some {| logic_type := Some "range_match";
                            required_value_path :=
                              Some "query.criteria.experience_years_min";
                            candidate_value_path :=
                              Some "candidate.query_tags.min_experience_years";
                            logic_params := None |} |}) ] |}.

Definition sample_config : QueryHandler.AppConfig :=
  {| QueryHandler.scoring_rules := Some sample_rules |}.

Definition unscored_config : QueryHandler.AppConfig :=
  {| QueryHandler.scoring_rules := None |}.

Definition sample_msg : QueryHandler.WxMsg :=
  {| QueryHandler.sender := "hr_1";
     QueryHandler.roomid := "";
     QueryHandler.from_group := false |}.

Definition sample_world : QueryHandler.World :=
  {| QueryHandler.store := StateStore.__init__ None None;
     QueryHandler.outbox := [] |}.

(** The years of experience of the candidates of a list, in order. *)
Definition years (l : list QueryHandler.Candidate) : list pyval :=
  (λ c, default VNone
          (match QueryHandler.query_tags c with
           | Some (VDict d) => assoc_get "min_experience_years" d
           | _ => None
           end)) <$> l.

End Statements.

(** Notions for the properties of the functions beyond the design
    document's statements. *)

Module Notions.
Import RankingData.

(** The name a call of [get_matching_levels] composes: the keyword, when
    there is one, before the base name. *)
Definition full_cert_name (base_name : string) (level_keyword : option string)
  : string :=
  match level_keyword with
  | Some k => k +:+ base_name
  | None => base_name
  end.

(** Two states of the store that hold the same settings and, for every
    key, the same entry: they differ at most in the order of use. *)
Definition same_entries (s1 s2 : StateStore.StateManager) : Prop :=
  StateStore.maxsize (StateStore._user_states s1)
  = StateStore.maxsize (StateStore._user_states s2)
  ∧ StateStore.ttl (StateStore._user_states s1)
    = StateStore.ttl (StateStore._user_states s2)
  ∧ ∀ k, assoc_get k (StateStore.links (StateStore._user_states s1))
         = assoc_get k (StateStore.links (StateStore._user_states s2)).

(** A sample conversation whose committed offset lies beyond the twelve
    candidates of the sample search, although more are announced. *)
Definition sample_query_criteria : pyval :=
  VDict [ ("position", VStr "engineer") ].

Definition sample_stale_conversation : SelectionHandler.Conversation :=
  {| SelectionHandler.state_manager :=
       Statements.unwrap
         (StateStore.update_state_and_cache_results
            (StateStore.__init__ None None) 0 "hr_1"
            StateStore.STATE_WAITING_SELECTION (Some Statements.sample_page)
            (Some sample_query_criteria) (Some Statements.sample_parsed)
            (Some 15%Z) (Some true));
     SelectionHandler.sent := [] |}.

(** A sample search that finds a thirteenth candidate, one without
    [query_tags] and [extracted_info], and a conversation whose second
    page is committed. *)
Definition sample_bare_candidate : QueryHandler.Candidate :=
  {| QueryHandler._id := None;
     QueryHandler.name := Some "candidate 0";
     QueryHandler.phone := None;
     QueryHandler.email := None;
     QueryHandler.wxid := None;
     QueryHandler.external_wecom_id := None;
     QueryHandler.resume_pdf_path := None;
     QueryHandler.source_file_original_name := None;
     QueryHandler.extracted_info := None;
     QueryHandler.query_tags := None;
     QueryHandler.last_processed_time := None |}.

Definition bare_collaborators : QueryHandler.Collaborators :=
  {| QueryHandler.find_candidates := λ _ _ _,
       Ret (app Statements.sample_pool [sample_bare_candidate]);
     QueryHandler.get_brief_comparison_summary := λ _ _,
       Ret (VStr "summary") |}.

Definition sample_second_page_conversation : SelectionHandler.Conversation :=
  {| SelectionHandler.state_manager :=
       Statements.unwrap
         (StateStore.update_state_and_cache_results
            (StateStore.__init__ None None) 0 "hr_1"
            StateStore.STATE_WAITING_SELECTION (Some Statements.sample_page)
            (Some sample_query_criteria) (Some Statements.sample_parsed)
            (Some 10%Z) (Some true));
     SelectionHandler.sent := [] |}.

End Notions.

(** * Properties *)

(** ** Level resolver *)

Section RankingDataFacts.
Import RankingData Statements.

Lemma specific_rule_none name modifier ranks :
  existsb (λ cat, bool_decide (is_Some (assoc_get name cat.2))) ranks = false →
  specific_rule name modifier ranks = None.
Proof.
  induction ranks as [|[cat values] ranks IH]; simpl; [done|].
  intros [Hhere Hrest]%orb_false_iff.
  apply bool_decide_eq_false in Hhere.
  destruct (assoc_get name values) as [v|] eqn:Hv.
  - exfalso. apply Hhere. by exists v.
  - by apply IH.
Qed.

Lemma get_matching_levels_generic base_name level_keyword modifier levels :
  generic_levels level_keyword modifier = Some levels →
  levels ≠ [] →
  in_specific_table (level_keyword +:+ base_name) = false →
  get_matching_levels base_name (Some level_keyword) modifier
  = list_set (generated_names base_name levels).
Proof.
  intros Hlevels Hne Hspec.
  assert (Hkw : String.eqb level_keyword "" = false).
  { destruct (String.eqb_spec level_keyword "") as [->|]; [|done].
    vm_compute in Hlevels. discriminate. }
  unfold get_matching_levels.
  rewrite Hkw. cbv zeta.
  rewrite (specific_rule_none _ _ _ Hspec).
  cbn [mbind option_bind]. rewrite Hlevels.
  destruct levels; [congruence | reflexivity].
Qed.

Example generic_rule_registered :
  get_matching_levels "工程师" (Some "一级") (Some "ge")
  = [ "一级工程师"; "二级工程师"; "三级工程师"; "一级注册工程师";
      "二级注册工程师"; "三级注册工程师"; "注册工程师" ].
Proof. vm_compute. reflexivity. Qed.

Example top_level_gt_passthrough :
  get_matching_levels "建造师" (Some "高级") (Some "gt") = ["高级建造师"].
Proof. vm_compute. reflexivity. Qed.

Example unknown_keyword_passthrough :
  get_matching_levels "会计师" (Some "特级") (Some "ge") = ["特级会计师"]
  ∧ get_matching_levels "会计师" None None = ["会计师"].
Proof. split; vm_compute; reflexivity. Qed.

(** C6. [get_matching_levels("工程师", "中级", "ge")] contains
    "中级工程师" and the higher-ranked "高级工程师", and every name it
    returns that the 工程师 table ranks has an ordinal not below that of
    "中级工程师". *)
Theorem engineer_ge_levels :
  let names := get_matching_levels "工程师" (Some "中级") (Some "ge") in
  "中级工程师" ∈ names
  ∧ "高级工程师" ∈ names
  ∧ rank_in "工程师" "中级工程师" = Some 2
  ∧ rank_in "工程师" "高级工程师" = Some 3
  ∧ ("助理工程师" ∉ names)
  ∧ ∀ n v, n ∈ names → rank_in "工程师" n = Some v → 2 ≤ v.
Proof.
  assert (Hnames : get_matching_levels "工程师" (Some "中级") (Some "ge")
                   = ["工程师"; "中级工程师"; "高级工程师"; "教授级高级工程师"]).
  { vm_compute. reflexivity. }
  intros names. subst names. rewrite Hnames.
  repeat split; try (vm_compute; reflexivity).
  - set_solver.
  - set_solver.
  - intros Hn.
    repeat (apply elem_of_cons in Hn as [[=]|Hn]).
    by apply elem_of_nil in Hn.
  - intros n v Hn.
    repeat (apply elem_of_cons in Hn as [->|Hn]);
      try (by apply elem_of_nil in Hn);
      intros Hr; vm_compute in Hr; injection Hr as <-; lia.
Qed.

Lemma engineer_ge_levels_witness :
  rank_in "工程师" "高级工程师" = Some 3 ∧ 2 ≤ 3.
Proof.
  split; [reflexivity|].
  apply (proj2 (proj2 (proj2 (proj2 (proj2 engineer_ge_levels))))
           "高级工程师" 3).
  - vm_compute. set_solver.
  - reflexivity.
Defined.

(** C7, as stated, fails: 工程师 is registrable, 中级 is a generic
    keyword and "ge" selects the levels 中级 and 高级, yet the call
    returns no "注册" form, because "中级工程师" is found in a specific
    table first. *)
Lemma registered_variants_counterexample :
  "工程师" ∈ registrable_professions
  ∧ generic_levels "中级" (Some "ge") = Some ["中级"; "高级"]
  ∧ ¬ returns_registered_variants "工程师" "中级" (Some "ge") ["中级"; "高级"].
Proof.
  split; [set_solver|]. split; [vm_compute; reflexivity|].
  intros [_ Hbare]. unfold returns_registered_variants in Hbare.
  vm_compute in Hbare.
  repeat (apply elem_of_cons in Hbare as [[=]|Hbare]).
  by apply elem_of_nil in Hbare.
Qed.

(** C7, amended.  For a registrable base name and a generic level keyword
    whose composed name no specific table lists, when the modifier
    selects at least one level, the call returns level + base and
    level + "注册" + base for every selected level, and "注册" + base. *)
Theorem registered_variants_generic base_name level_keyword modifier levels :
  base_name ∈ registrable_professions →
  generic_levels level_keyword modifier = Some levels →
  levels ≠ [] →
  in_specific_table (level_keyword +:+ base_name) = false →
  returns_registered_variants base_name level_keyword modifier levels.
Proof.
  intros Hreg Hlevels Hne Hspec.
  unfold returns_registered_variants.
  rewrite (get_matching_levels_generic _ _ _ _ Hlevels Hne Hspec).
  unfold list_set, generated_names.
  rewrite bool_decide_eq_true_2 by done.
  split.
  - intros level Hin. split; apply elem_of_remove_dups.
    + apply elem_of_app. left.
      apply (list_elem_of_fmap_2 (λ level, level +:+ base_name)), Hin.
    + apply elem_of_app. right. apply elem_of_app. left.
      apply (list_elem_of_fmap_2 (λ level, level +:+ "注册" +:+ base_name)), Hin.
  - apply elem_of_remove_dups.
    do 2 (apply elem_of_app; right). apply list_elem_of_singleton. done.
Qed.

Lemma registered_variants_generic_witness :
  returns_registered_variants "工程师" "一级" (Some "ge")
                              ["一级"; "二级"; "三级"].
Proof.
  apply registered_variants_generic.
  - set_solver.
  - vm_compute. reflexivity.
  - discriminate.
  - vm_compute. reflexivity.
Defined.

End RankingDataFacts.

(** ** Dimension scorer *)

Section ScoringFacts.
Import ScoringUtils Statements.

(** *** Empty requirement (C4) *)

(** C4, as stated, fails for the overlap score: with [max_score] set to
    5 the maximum of the dimension is 5, and an empty required list
    scores 1. *)
Lemma overlap_empty_required_counterexample :
  let params : params_t := Some {["max_score" := SFloat (Qc_of_Z 5)]} in
  params_get params "max_score" (SInt 0) = Ret (SFloat (Qc_of_Z 5))
  ∧ @calculate_keyword_overlap_score sample_builtins
      (VList []) (VList [VStr "python"]) params = Ret (SFloat 1)
  ∧ SFloat 1 ≠ SFloat (Qc_of_Z 5).
Proof.
  cbv zeta. split; [|split].
  - unfold params_get. by rewrite lookup_singleton_eq.
  - unfold calculate_keyword_overlap_score, params_get.
    rewrite lookup_singleton_ne by done.
    by rewrite lookup_singleton_eq.
  - intros [=].
Qed.

(** C4, amended.  With an empty or absent required list (any value that
    is false as a condition), whatever the parameter map and the
    candidate value, the presence score is the configured [max_score]
    (1.0 when the map has none) and the overlap score is the constant
    1.0. *)
Theorem empty_required_scores `{Builtins} (m : gmap string scalar)
    (required_list candidate_list : pyval) :
  truthy required_list = false →
  calculate_keyword_presence_score required_list candidate_list (Some m)
  = Ret (default f1_0 (m !! "max_score"))
  ∧ calculate_keyword_overlap_score required_list candidate_list (Some m)
    = Ret f1_0.
Proof.
  intros Hreq.
  unfold calculate_keyword_presence_score, calculate_keyword_overlap_score,
    params_get.
  rewrite Hreq. simpl.
  done.
Qed.

Lemma empty_required_scores_witness :
  @calculate_keyword_presence_score sample_builtins
    VNone (VList [VStr "pmp"]) (Some {["max_score" := SFloat (Qc_of_Z 5)]})
  = Ret (default f1_0
          (({["max_score" := SFloat (Qc_of_Z 5)]} : gmap string scalar)
             !! "max_score"))
  ∧ @calculate_keyword_overlap_score sample_builtins
      VNone (VList [VStr "pmp"]) (Some {["max_score" := SFloat (Qc_of_Z 5)]})
    = Ret f1_0.
Proof.
  apply (@empty_required_scores sample_builtins). reflexivity.
Defined.

(** *** Disabled, unknown and failing dimensions (C5) *)

Lemma score_function_unknown `{Builtins} (t : string) :
  t ∉ recognized_types → assoc_get t SCORE_FUNCTION_MAP = None.
Proof.
  intros Hnot. unfold SCORE_FUNCTION_MAP. simpl.
  repeat match goal with
         | |- context [String.eqb t ?s] =>
             destruct (String.eqb_spec t s) as [->|_];
             [exfalso; apply Hnot; unfold recognized_types; set_solver|]
         end.
  done.
Qed.

Lemma score_call_unknown `{Builtins} lc q c :
  (∀ t, logic_type lc = Some t → t ∉ recognized_types) →
  score_call lc q c = None.
Proof.
  intros Hun. unfold score_call.
  destruct (logic_type lc) as [t|]; cbn [mbind option_bind]; [|done].
  by rewrite score_function_unknown by auto.
Qed.

Lemma py_mul_num a b :
  (∃ n, py_mul a b = Ret (SNum n)) ∨ (∃ e, py_mul a b = Raise e).
Proof.
  unfold py_mul.
  destruct a as [| |x], b as [| |y]; simpl; eauto.
Qed.

(** C5.  [calculate_score_for_dimension] always returns a number and
    never raises; it returns 0.0 when the dimension is not enabled, when
    its logic type is not a recognized one, and when the call of the
    scoring function raises. *)
Theorem dimension_score_zero `{Builtins} (dc : DimensionConfig) (q c : pyval) :
  (∃ n, calculate_score_for_dimension dc q c = Ret (SNum n))
  ∧ (scalar_truthy (default (SBool false) (dim_enabled dc)) = false →
     calculate_score_for_dimension dc q c = Ret f0_0)
  ∧ (has_recognized_type dc = false →
     calculate_score_for_dimension dc q c = Ret f0_0)
  ∧ (∀ lc e, dim_logic dc = Some lc →
       score_call lc q c = Some (Raise e) →
       calculate_score_for_dimension dc q c = Ret f0_0).
Proof.
  unfold calculate_score_for_dimension.
  destruct (scalar_truthy (default (SBool false) (dim_enabled dc)));
    simpl; [|by eauto 10].
  destruct (dim_logic dc) as [lc|] eqn:Hlc; [|by eauto 10].
  destruct (logic_is_empty lc); [by eauto 10|].
  destruct (score_call lc q c) as [call|] eqn:Hcall.
  - repeat split.
    + destruct call as [raw|e]; simpl; [|by eauto].
      destruct (py_mul_num raw (default (SInt 0) (dim_weight dc)))
        as [[n ->]|[e ->]]; simpl; eauto.
    + done.
    + intros Hnot. exfalso.
      unfold has_recognized_type in Hnot. rewrite Hlc in Hnot.
      unfold score_call in Hcall.
      destruct (logic_type lc) as [t|] eqn:Ht;
        cbn [mbind option_bind] in Hcall, Hnot; [|done].
      rewrite Ht in Hnot. apply bool_decide_eq_false in Hnot.
      by rewrite (score_function_unknown _ Hnot) in Hcall.
    + intros lc' e [= <-] Hraise. rewrite Hraise in Hcall.
      by injection Hcall as <-.
  - by eauto 10.
Qed.

Lemma dimension_score_zero_witness :
  let calc := @calculate_score_for_dimension sample_builtins in
  calc (sample_dimension false "keyword_overlap" "query.criteria.skills")
       sample_query sample_candidate_data = Ret f0_0
  ∧ calc (sample_dimension true "fuzzy_match" "query.criteria.skills")
         sample_query sample_candidate_data = Ret f0_0
  ∧ calc (sample_dimension true "keyword_overlap"
                           "query.criteria.experience_years_min")
         sample_query sample_candidate_data = Ret f0_0.
Proof.
  cbv zeta. split; [|split].
  - apply (proj1 (proj2 (@dimension_score_zero sample_builtins _ _ _))).
    reflexivity.
  - apply (proj1 (proj2 (proj2 (@dimension_score_zero sample_builtins _ _ _)))).
    vm_compute. reflexivity.
  - eapply (proj2 (proj2 (proj2 (@dimension_score_zero sample_builtins _ _ _)))
              _ TypeError).
    + reflexivity.
    + vm_compute. reflexivity.
Defined.

End ScoringFacts.

(** *** Range match (C3) *)

Section RangeMatchFacts.
Import ScoringUtils Statements.
Local Open Scope Qc_scope.



























End RangeMatchFacts.

(** ** Conversation state store *)

Section StateStoreFacts.
Import StateStore Statements.
Local Open Scope Qc_scope.

Lemma assoc_get_app {A} k (l1 l2 : list (string * A)) :
  assoc_get k (l1 ++ l2)
  = match assoc_get k l1 with
    | Some v => Some v
    | None => assoc_get k l2
    end.
Proof.
  induction l1 as [|[k' v] l1 IH]; simpl; [done|].
  by destruct (String.eqb k k').
Qed.

Lemma assoc_get_remove_key k l : assoc_get k (remove_key k l) = None.
Proof.
  unfold remove_key.
  induction l as [|[k' e] l IH]; simpl; [done|].
  rewrite filter_cons. simpl. case_decide as Hk; simpl; [|done].
  destruct (String.eqb_spec k k'); [congruence|done].
Qed.

Lemma assoc_get_refreshed k e l :
  assoc_get k (remove_key k l ++ [(k, e)]) = Some e.
Proof.
  rewrite assoc_get_app, assoc_get_remove_key. simpl.
  by rewrite String.eqb_refl.
Qed.

(** A write succeeds on a cache of capacity at least one and leaves the
    key with the written dictionary, to expire [ttl] later. *)
Lemma put_entry c now k d :
  (1 ≤ maxsize c)%Z →
  ∃ self', put c now k d = Ret self'
           ∧ ttl (_user_states self') = ttl c
           ∧ assoc_get k (links (_user_states self'))
             = Some {| expires := now + ttl c; value := d |}.
Proof.
  intros Hsize. unfold put, cache_setitem.
  rewrite bool_decide_eq_false_2 by lia. simpl.
  eexists. split; [done|]. split; [done|]. simpl.
  apply assoc_get_refreshed.
Qed.

Lemma cache_get_live c now k e :
  assoc_get k (links c) = Some e → now < expires e →
  (cache_get c now k).1 = Some (value e).
Proof.
  intros Hk Hlive. unfold cache_get, live. rewrite Hk.
  by rewrite bool_decide_eq_true_2.
Qed.

Lemma cache_get_dead c now k :
  cache_contains c now k = false → cache_get c now k = (None, c).
Proof.
  unfold cache_contains, cache_get.
  destruct (assoc_get k (links c)) as [e|]; [|done]. by intros ->.
Qed.

Lemma dict_get_empty key dflt : dict_get ∅ key dflt = dflt.
Proof. unfold dict_get. by rewrite lookup_empty. Qed.

(** A getter reads the field of the dictionary the store holds for the
    key. *)
Lemma read_field_stored key dflt self now k :
  (read_field key dflt self now k).1 = dict_get (stored self now k) key dflt.
Proof.
  unfold read_field, stored, get_or_empty, _get_user_data.
  destruct (cache_get (_user_states self) now k) as [[d|] c]; simpl.
  - unfold dict_truthy. case_bool_decide as Hd; simpl; [|done].
    by rewrite Hd, dict_get_empty.
  - by rewrite dict_get_empty.
Qed.

Lemma read_field_dead key dflt self now k :
  cache_contains (_user_states self) now k = false →
  (read_field key dflt self now k).1 = dflt.
Proof.
  intros Hdead. unfold read_field, _get_user_data.
  by rewrite (cache_get_dead _ _ _ Hdead).
Qed.

Lemma read_field_written key dflt self' now' k e :
  assoc_get k (links (_user_states self')) = Some e →
  now' < expires e →
  value e ≠ ∅ →
  (read_field key dflt self' now' k).1 = dict_get (value e) key dflt.
Proof.
  intros Hk Hlive Hne. unfold read_field, _get_user_data.
  pose proof (cache_get_live _ _ _ _ Hk Hlive) as Hget.
  destruct (cache_get (_user_states self') now' k) as [d c].
  simpl in Hget. subst d. simpl.
  unfold dict_truthy. by rewrite bool_decide_eq_false_2.
Qed.

Lemma merge_update_nonempty ud state results qc pqd offset hm :
  merge_update ud state results qc pqd offset hm ≠ ∅.
Proof. unfold merge_update. destruct hm; apply insert_non_empty. Qed.

(** After [update_state_and_cache_results], until the entry expires, a
    getter reads the field of the merged dictionary. *)
Lemma read_after_update self now k state results qc pqd offset hm :
  (1 ≤ maxsize (_user_states self))%Z →
  ∃ self',
    update_state_and_cache_results self now k state results qc pqd offset hm
    = Ret self'
    ∧ ∀ key dflt now', now' < now + ttl (_user_states self) →
        (read_field key dflt self' now' k).1
        = dict_get (merge_update (stored self now k) state results qc pqd
                                 offset hm) key dflt.
Proof.
  intros Hsize. unfold update_state_and_cache_results, stored, get_or_empty.
  assert (Hc : maxsize (cache_get (_user_states self) now k).2
               = maxsize (_user_states self)
               ∧ ttl (cache_get (_user_states self) now k).2
                 = ttl (_user_states self)).
  { unfold cache_get. destruct (assoc_get k _); [|done]. by destruct (live _ _). }
  destruct (cache_get (_user_states self) now k) as [d c]. simpl in *.
  destruct Hc as [Hmax Httl].
  destruct (put_entry c now k
              (merge_update (default ∅ d) state results qc pqd offset hm))
    as (self' & Hput & _ & Hentry); [lia|].
  exists self'. split; [done|]. intros key dflt now' Hlive.
  rewrite (read_field_written _ _ _ _ _ _ Hentry); simpl.
  - done.
  - by rewrite Httl.
  - apply merge_update_nonempty.
Qed.

Lemma merge_update_keeps_parsed ud state results qc offset hm :
  dict_get (merge_update ud state results qc None offset hm)
           "parsed_query_data" VNone
  = dict_get ud "parsed_query_data" VNone.
Proof.
  unfold merge_update. cbn [opt_val default is_none VNone negb].
  unfold dict_get at 1 3.
  assert (Hother : ∀ (m : gmap string pyval) k v,
             k ≠ "parsed_query_data" →
             <[k:=v]> m !! "parsed_query_data" = m !! "parsed_query_data").
  { intros m k v Hk. by rewrite lookup_insert_ne. }
  destruct hm; rewrite Hother by done;
    destruct offset;
    try (destruct (_ || _)); rewrite ?Hother by done;
    (destruct (is_none (dict_get ud "parsed_query_data" VNone)) eqn:Hex;
     cbn [negb];
     [ by rewrite !Hother by done
     | rewrite lookup_insert_eq; unfold dict_get;
       by destruct (ud !! "parsed_query_data") ]).
Qed.

Lemma merge_update_committed ud state results qc pqd offset hm :
  dict_get (merge_update ud state (Some results) qc pqd (Some offset)
                         (Some hm)) "last_results" VNone = VList results
  ∧ dict_get (merge_update ud state (Some results) qc pqd (Some offset)
                           (Some hm)) "query_offset" (VInt 0) = VInt offset
  ∧ dict_get (merge_update ud state (Some results) qc pqd (Some offset)
                           (Some hm)) "has_more" (VBool false) = VBool hm.
Proof.
  unfold merge_update, dict_get.
  repeat split.
  - rewrite !lookup_insert_ne by done.
    destruct (negb (is_none (opt_val pqd)));
      [|destruct (negb (is_none _))];
      rewrite ?lookup_insert_ne by done;
      by rewrite lookup_insert_eq.
  - by rewrite lookup_insert_ne, lookup_insert_eq by done.
  - by rewrite lookup_insert_eq.
Qed.

(** C8.  On a store of capacity at least one,
    [update_state_and_cache_results] called without [parsed_query_data]
    succeeds, and until the entry expires [get_parsed_query_data] returns
    what it returned before the call. *)
Theorem parsed_query_data_preserved self now k state results qc offset hm :
  (1 ≤ maxsize (_user_states self))%Z →
  ∃ self',
    update_state_and_cache_results self now k state results qc None offset hm
    = Ret self'
    ∧ ∀ now', now' < now + ttl (_user_states self) →
        (get_parsed_query_data self' now' k).1
        = (get_parsed_query_data self now k).1.
Proof.
  intros Hsize.
  destruct (read_after_update self now k state results qc None offset hm
              Hsize) as (self' & Hup & Hread).
  exists self'. split; [done|]. intros now' Hlive.
  unfold get_parsed_query_data.
  by rewrite (Hread _ _ now' Hlive), merge_update_keeps_parsed,
    read_field_stored.
Qed.

Lemma parsed_query_data_preserved_witness :
  ∃ self',
    update_state_and_cache_results sample_store_parsed 0 "hr_1"
      STATE_WAITING_SELECTION (Some sample_page) (Some (VDict [])) None
      (Some 5%Z) (Some true) = Ret self'
    ∧ (get_parsed_query_data self' (Qc_of_Z 60) "hr_1").1 = sample_parsed.
Proof.
  destruct (parsed_query_data_preserved sample_store_parsed 0 "hr_1"
              STATE_WAITING_SELECTION (Some sample_page) (Some (VDict []))
              (Some 5%Z) (Some true))
    as (self' & Hup & Hkeep); [by vm_compute|].
  exists self'. split; [exact Hup|].
  rewrite Hkeep; [|reflexivity].
  vm_compute. reflexivity.
Defined.

(** *** Expiry (C9) *)

Lemma put_written c now k d self' :
  put c now k d = Ret self' →
  assoc_get k (links (_user_states self'))
  = Some {| expires := now + ttl c; value := d |}.
Proof.
  unfold put, cache_setitem. case_bool_decide; [done|]. simpl.
  intros [= <-]. simpl. apply assoc_get_refreshed.
Qed.

Lemma reads_as_idle_dead self now k :
  cache_contains (_user_states self) now k = false →
  reads_as_idle self now k.
Proof.
  intros Hdead. unfold reads_as_idle, get_state, get_last_results,
    get_query_criteria, get_parsed_query_data, get_query_offset, get_has_more.
  by rewrite !read_field_dead.
Qed.

(** C9.  A key the store does not hold reads as idle with no data, and
    so does a key written at time [t] when it is read at any time
    [>= t + ttl]: the state is IDLE, the last results, query criteria and
    parsed query data are [None], the offset is 0 and [has_more] is
    [False]. *)
Theorem expired_reads_as_absent :
  (∀ self now k,
     assoc_get k (links (_user_states self)) = None →
     reads_as_idle self now k)
  ∧ (∀ c t k d self' now',
       put c t k d = Ret self' →
       t + ttl c ≤ now' →
       reads_as_idle self' now' k)
  ∧ (∀ self t k state results qc pqd offset hm self' now',
       update_state_and_cache_results self t k state results qc pqd offset hm
       = Ret self' →
       t + ttl (_user_states self) ≤ now' →
       reads_as_idle self' now' k).
Proof.
  assert (Hput : ∀ c t k d self' now',
             put c t k d = Ret self' → t + ttl c ≤ now' →
             reads_as_idle self' now' k).
  { intros c t k d self' now' Hw Hlate.
    apply reads_as_idle_dead. unfold cache_contains.
    rewrite (put_written _ _ _ _ _ Hw). unfold live. simpl.
    apply bool_decide_eq_false_2. by apply Qcle_not_lt. }
  split; [|split].
  - intros self now k Habsent. apply reads_as_idle_dead.
    unfold cache_contains. by rewrite Habsent.
  - exact Hput.
  - intros self t k state results qc pqd offset hm self' now' Hw Hlate.
    unfold update_state_and_cache_results, get_or_empty in Hw.
    assert (Httl : ttl (cache_get (_user_states self) t k).2
                   = ttl (_user_states self)).
    { unfold cache_get. destruct (assoc_get k _); [|done].
      by destruct (live _ _). }
    destruct (cache_get (_user_states self) t k) as [d0 c]. simpl in *.
    eapply Hput; [exact Hw|]. by rewrite Httl.
Qed.

Lemma expired_reads_as_absent_witness :
  reads_as_idle (__init__ None None) 0 "hr_1"
  ∧ reads_as_idle sample_store_parsed (Qc_of_Z 180) "hr_1"
  ∧ reads_as_idle sample_store_page (Qc_of_Z 200) "hr_1".
Proof.
  destruct expired_reads_as_absent as (Habsent & Hput & Hupdate).
  split; [|split].
  - apply Habsent. reflexivity.
  - apply (Hput (_user_states (__init__ None None)) 0 "hr_1"
                (ensure_state (<["parsed_query_data" := sample_parsed]> ∅))).
    + vm_compute. reflexivity.
    + by vm_compute.
  - eapply (Hupdate sample_store_parsed 0 "hr_1" STATE_WAITING_SELECTION
              (Some sample_page) (Some (VDict [])) None (Some 5%Z) (Some true)).
    + vm_compute. reflexivity.
    + by vm_compute.
Defined.

(** *** Defaults of an update (C10) *)

Lemma merge_update_offset ud state results qc pqd hm :
  dict_get (merge_update ud state results qc pqd None hm)
           "query_offset" (VInt 0)
  = if String.eqb state STATE_IDLE
       || match results with None => true | Some _ => false end
    then VInt 0
    else dict_get ud "query_offset" (VInt 0).
Proof.
  unfold merge_update, dict_get.
  assert (Hother : ∀ (m : gmap string pyval) k v,
             k ≠ "query_offset" →
             <[k:=v]> m !! "query_offset" = m !! "query_offset").
  { intros m k v Hk. by rewrite lookup_insert_ne. }
  destruct hm; rewrite Hother by done;
    (destruct (_ || _);
     [ by rewrite lookup_insert_eq
     | destruct (negb (is_none (opt_val pqd)));
       [|destruct (negb (is_none _))]; by rewrite !Hother by done ]).
Qed.

Lemma merge_update_has_more ud state results qc pqd offset :
  dict_get (merge_update ud state results qc pqd offset None)
           "has_more" (VBool false)
  = VBool (has_results results).
Proof. unfold merge_update, dict_get. by rewrite lookup_insert_eq. Qed.

(** C10.  On a store of capacity at least one, until the entry expires:
    after an update without [current_offset] the offset read back is 0
    when the new state is IDLE or [results] is [None], and otherwise
    what was read before the call; after an update without [has_more]
    the flag read back is [True] exactly when [results] is a list with
    at least one element. *)
Theorem omitted_offset_and_has_more self now k state results qc pqd :
  (1 ≤ maxsize (_user_states self))%Z →
  (∀ hm, ∃ self',
     update_state_and_cache_results self now k state results qc pqd None hm
     = Ret self'
     ∧ ∀ now', now' < now + ttl (_user_states self) →
         (get_query_offset self' now' k).1
         = if String.eqb state STATE_IDLE
              || match results with None => true | Some _ => false end
           then VInt 0
           else (get_query_offset self now k).1)
  ∧ (∀ offset, ∃ self',
       update_state_and_cache_results self now k state results qc pqd
                                      offset None
       = Ret self'
       ∧ ∀ now', now' < now + ttl (_user_states self) →
           (get_has_more self' now' k).1 = VBool (has_results results)
           ∧ ((get_has_more self' now' k).1 = VBool true
              ↔ ∃ x l, results = Some (x :: l))).
Proof.
  intros Hsize. split.
  - intros hm.
    destruct (read_after_update self now k state results qc pqd None hm
                Hsize) as (self' & Hup & Hread).
    exists self'. split; [done|]. intros now' Hlive.
    unfold get_query_offset.
    by rewrite (Hread _ _ now' Hlive), merge_update_offset, read_field_stored.
  - intros offset.
    destruct (read_after_update self now k state results qc pqd offset None
                Hsize) as (self' & Hup & Hread).
    exists self'. split; [done|]. intros now' Hlive.
    unfold get_has_more.
    rewrite (Hread _ _ now' Hlive), merge_update_has_more.
    split; [done|].
    destruct results as [[|x l]|]; simpl.
    + split; [intros [=] | intros (x & l & [=])].
    + split; [by eauto | done].
    + split; [intros [=] | intros (x & l & [=])].
Qed.

Lemma omitted_offset_and_has_more_witness :
  (∃ self',
     update_state_and_cache_results sample_store_page 0 "hr_1" STATE_IDLE
       None None None None (Some false) = Ret self'
     ∧ (get_query_offset self' (Qc_of_Z 60) "hr_1").1 = VInt 0)
  ∧ (∃ self',
       update_state_and_cache_results sample_store_page 0 "hr_1"
         STATE_WAITING_SELECTION (Some sample_page) None None None None
       = Ret self'
       ∧ (get_query_offset self' (Qc_of_Z 60) "hr_1").1 = VInt 5
       ∧ (get_has_more self' (Qc_of_Z 60) "hr_1").1 = VBool true).
Proof.
  split.
  - destruct (omitted_offset_and_has_more sample_store_page 0 "hr_1"
                STATE_IDLE None None None) as [Hoff _]; [by vm_compute|].
    destruct (Hoff (Some false)) as (self' & Hup & Hread).
    exists self'. split; [exact Hup|].
    rewrite Hread; reflexivity.
  - destruct (omitted_offset_and_has_more sample_store_page 0 "hr_1"
                STATE_WAITING_SELECTION (Some sample_page) None None)
      as [Hoff Hmore]; [by vm_compute|].
    destruct (Hoff None) as (self' & Hup & Hread).
    destruct (Hmore None) as (self'' & Hup' & Hread').
    rewrite Hup in Hup'. injection Hup' as <-.
    exists self'. split; [exact Hup|]. split.
    + rewrite Hread; [|reflexivity]. vm_compute. reflexivity.
    + exact (proj1 (Hread' (Qc_of_Z 60) eq_refl)).
Defined.

End StateStoreFacts.

(** ** Ranking pipeline *)

Section PipelineFacts.
Import ScoringUtils StateStore QueryHandler Statements.

Local Open Scope Z_scope.

Lemma insert_desc_perm {A} (key : A → Qc) x l :
  insert_desc key x l ≡ₚ x :: l.
Proof.
  induction l as [|y l IH]; simpl; [done|].
  case_bool_decide; [done|]. rewrite IH. apply Permutation_swap.
Qed.

(** Sorting rearranges the pool, it neither drops nor adds a candidate. *)
Lemma sorted_desc_perm {A} (key : A → Qc) l : sorted_desc key l ≡ₚ l.
Proof.
  induction l as [|x l IH]; simpl; [done|].
  by rewrite insert_desc_perm, IH.
Qed.

Lemma insert_desc_sorted {A} (key : A → Qc) x l :
  Sorted (λ a b, key b ≤ key a)%Qc l →
  Sorted (λ a b, key b ≤ key a)%Qc (insert_desc key x l).
Proof.
  induction 1 as [|y l Hs IH Hhd]; simpl.
  - by repeat constructor.
  - case_bool_decide as Hle.
    + by repeat constructor.
    + constructor; [done|].
      apply Qcnot_le_lt, Qclt_le_weak in Hle.
      destruct Hhd as [|z l Hz]; simpl.
      * by constructor.
      * case_bool_decide; by constructor.
Qed.

(** The sorted pool is in descending order of score. *)
Lemma sorted_desc_sorted {A} (key : A → Qc) l :
  Sorted (λ a b, key b ≤ key a)%Qc (sorted_desc key l).
Proof.
  induction l as [|x l IH]; simpl; [constructor|].
  by apply insert_desc_sorted.
Qed.

Lemma ranked_length `{Builtins} cfg parsed pool :
  length (scored_and_sorted_candidates cfg parsed pool) = length pool.
Proof.
  unfold scored_and_sorted_candidates.
  destruct cfg, pool; try done.
  apply Permutation_length, sorted_desc_perm.
Qed.

(** A slice that starts at a non-negative offset and spans one page. *)
Lemma py_slice_page {A} (l : list A) offset :
  0 ≤ offset →
  py_slice l offset (offset + display_limit)
  = take 5 (drop (Z.to_nat offset) l).
Proof.
  intros Hoff. unfold py_slice, clamp_index, display_limit.
  rewrite !bool_decide_eq_false_2 by lia.
  destruct (decide (offset + 5 ≤ Z.of_nat (length l))) as [Hin|Hout].
  - f_equal; [|f_equal]; lia.
  - rewrite take_ge by (rewrite length_drop; lia).
    destruct (decide (offset ≤ Z.of_nat (length l))).
    + rewrite take_ge by (rewrite length_drop; lia). f_equal. lia.
    + rewrite !drop_ge by lia. done.
Qed.

(** What one call does when its page is not empty: it builds the
    result message, sends it and updates the state, and stops at the
    first of these steps that raises. *)
Lemma fetch_page `{Builtins} `{Collaborators} config msg query offset
    parsed now w pool :
  let rules := get_scoring_rules config in
  let ranked := scored_and_sorted_candidates rules parsed pool in
  let page := py_slice ranked offset (offset + display_limit) in
  let key := (context_of msg).1.1 in
  find_candidates query (fetch_limit rules) (fetch_offset rules offset)
  = Ret pool →
  page ≠ [] →
  _fetch_and_send_candidates config msg query offset parsed now w
  = match _format_results_message page (summary_for parsed page)
            (shown_pool_size rules pool) with
    | Raise e => (Raise e, w)
    | Ret message =>
        let w1 :=
          send w {| text := message; user_ids := [(context_of msg).1.2];
                    tag_ids := tags_of (context_of msg).2 |} in
        match
          update_state_and_cache_results (store w) now key
            STATE_WAITING_SELECTION (Some (imap cached_result page))
            (Some query) (Some parsed) (Some (offset + display_limit))
            (Some (bool_decide
                     (offset + display_limit < Z.of_nat (length ranked))))
        with
        | Ret s => (Ret true, with_store w1 s)
        | Raise e =>
            (Raise e, with_store w1 (after_refused_update (store w) now key))
        end
    end.
Proof.
  intros rules ranked page key Hfind Hpage. subst page key.
  unfold _fetch_and_send_candidates, shown_pool_size.
  destruct (context_of msg) as [[key receiver] at_user]. cbn [fst snd].
  fold rules. rewrite Hfind. fold ranked.
  destruct (py_slice ranked offset (offset + display_limit))
    as [|c page] eqn:Hslice; [done|].
  by destruct rules.
Qed.

(** A page whose result message can be built is sent and committed. *)
Lemma fetch_commits `{Builtins} `{Collaborators} config msg query offset
    parsed now w pool :
  let rules := get_scoring_rules config in
  let ranked := scored_and_sorted_candidates rules parsed pool in
  let page := py_slice ranked offset (offset + display_limit) in
  find_candidates query (fetch_limit rules) (fetch_offset rules offset)
  = Ret pool →
  page ≠ [] →
  1 ≤ maxsize (_user_states (store w)) →
  match _format_results_message page (summary_for parsed page)
          (shown_pool_size rules pool) with
  | Ret _ =>
      commits_page config msg query offset parsed now w page
        (offset + display_limit)
        (bool_decide (offset + display_limit < Z.of_nat (length ranked)))
  | Raise e =>
      _fetch_and_send_candidates config msg query offset parsed now w
      = (Raise e, w)
  end.
Proof.
  intros rules ranked page Hfind Hpage Hsize.
  pose proof (fetch_page config msg query offset parsed now w pool
                Hfind Hpage) as Hcall.
  fold rules ranked page in Hcall.
  destruct (_format_results_message page (summary_for parsed page)
              (shown_pool_size rules pool)) as [message|e] eqn:Hformat;
    [|exact Hcall].
  unfold commits_page.
  destruct (read_after_update (store w) now (context_of msg).1.1
              STATE_WAITING_SELECTION
              (Some (imap cached_result page)) (Some query)
              (Some parsed) (Some (offset + display_limit))
              (Some (bool_decide
                       (offset + display_limit < Z.of_nat (length ranked))))
              Hsize) as (s' & Hup & Hread).
  rewrite Hup in Hcall. cbn zeta in Hcall.
  eexists _, _, _. split; [exact Hcall|]. split; [done|].
  split; [exact Hformat|].
  intros now' Hlive. cbn [with_store store].
  unfold get_last_results, get_query_offset, get_has_more.
  rewrite !(Hread _ _ now' Hlive).
  apply merge_update_committed.
Qed.

(** The result message is not built for a page with a candidate whose
    [query_tags] or [extracted_info] is [None]. *)
Lemma result_line_needs_dictionaries `{Builtins} i (c : Candidate) :
  query_tags c = None ∨ extracted_info c = None →
  ∃ e, result_line i c = Raise e.
Proof.
  unfold result_line. intros [-> | ->]; [by eexists|].
  destruct (attr_get (query_tags c) "positions" VNone); simpl;
    [|by eexists].
  destruct (py_first _); simpl; [|by eexists].
  destruct (attr_get (query_tags c) "min_experience_years" VNone); simpl;
    by eexists.
Qed.

Lemma format_needs_dictionaries `{Builtins} results summary size
    (c : Candidate) :
  c ∈ results →
  query_tags c = None ∨ extracted_info c = None →
  ∃ e, _format_results_message results summary size = Raise e.
Proof.
  intros Hin Hbare.
  assert (Hlines : ∀ i, ∃ e, result_lines i results = Raise e).
  { induction Hin as [c rest|c c' rest Hin IH]; intros i; simpl.
    - destruct (result_line_needs_dictionaries i c Hbare) as [e ->].
      by eexists.
    - destruct (result_line i c'); simpl; [|by eexists].
      destruct (IH Hbare (S i)) as [e ->]. by eexists. }
  unfold _format_results_message.
  destruct results as [|c' rest]; [by apply elem_of_nil in Hin|].
  destruct (Hlines 0%nat) as [e ->]. by eexists.
Qed.

(** [formats] tells whether the result message is built. *)
Lemma formats_true `{Builtins} `{Collaborators} parsed size page :
  formats parsed size page = true →
  ∃ message,
    _format_results_message page (summary_for parsed page) size
    = Ret message.
Proof.
  unfold formats.
  destruct (_format_results_message page (summary_for parsed page) size);
    [by eexists | done].
Qed.

Example sample_ranking :
  years (@scored_and_sorted_candidates sample_builtins
           (get_scoring_rules sample_config) sample_parsed sample_pool)
  = VInt <$> [12; 11; 10; 9; 8; 7; 6; 5; 4; 3; 2; 1]%Z.
Proof. vm_compute. reflexivity. Qed.

(** C1, as stated, fails on its third call: for the twelve sample
    candidates the call at offset 10 does not commit the next offset 12
    (it commits 15). *)
Lemma third_page_offset_counterexample :
  length sample_pool = 12%nat
  ∧ ¬ ∃ page has_more,
        @commits_page sample_builtins sample_collaborators sample_config
          sample_msg (VDict []) 10 sample_parsed 0%Qc sample_world
          page 12 has_more.
Proof.
  split; [reflexivity|].
  intros (page & has_more & w' & m & size & Hrun & _ & _ & Hread).
  destruct (Hread 0%Qc eq_refl) as (_ & Hoff & _).
  vm_compute in Hrun. injection Hrun as <-.
  vm_compute in Hoff. discriminate.
Qed.

(** C1, amended.  With scoring rules present and the pool the store
    returns, take a call whose slice [ranked[offset : offset + 5]] of the
    scored and sorted pool is not empty.  When the result message of the
    slice can be built, the call sends it and commits the slice with the
    next offset [offset + 5] and
    [has_more = (offset + 5 < len(ranked))]; when building the message
    raises (a candidate of the slice whose [query_tags] or
    [extracted_info] is no dictionary, for one), the call raises and has
    sent and stored nothing.  A call whose slice is empty returns false.
    For a pool of twelve whose three pages can be shown, the calls at
    offsets 0, 5 and 10 commit [ranked[0:5]] with 5 and true,
    [ranked[5:10]] with 10 and true, and [ranked[10:12]] with 15 and
    false. *)
Theorem ranked_page_commit `{Builtins} `{Collaborators} config cfg msg query
    parsed pool :
  get_scoring_rules config = Some cfg →
  find_candidates query (fetch_limit (Some cfg)) 0 = Ret pool →
  let ranked := scored_and_sorted_candidates (Some cfg) parsed pool in
  let size := Some (Z.of_nat (length pool)) in
  let call := _fetch_and_send_candidates config msg query in
  let commits := commits_page config msg query in
  (∀ offset now w,
     let page := py_slice ranked offset (offset + display_limit) in
     page ≠ [] →
     1 ≤ maxsize (_user_states (store w)) →
     match _format_results_message page (summary_for parsed page) size with
     | Ret _ =>
         commits offset parsed now w page (offset + display_limit)
           (bool_decide (offset + display_limit < Z.of_nat (length ranked)))
     | Raise e => call offset parsed now w = (Raise e, w)
     end)
  ∧ (∀ offset now w,
       py_slice ranked offset (offset + display_limit) = [] →
       ∃ w', call offset parsed now w = (Ret false, w'))
  ∧ (length pool = 12%nat →
     formats parsed size (take 5 ranked) = true →
     formats parsed size (take 5 (drop 5 ranked)) = true →
     formats parsed size (drop 10 ranked) = true →
     ∀ now w, 1 ≤ maxsize (_user_states (store w)) →
       commits 0 parsed now w (take 5 ranked) 5 true
       ∧ commits 5 parsed now w (take 5 (drop 5 ranked)) 10 true
       ∧ commits 10 parsed now w (drop 10 ranked) 15 false).
Proof.
  intros Hrules Hfind ranked size call commits.
  assert (Hgen : ∀ offset now w,
     let page := py_slice ranked offset (offset + display_limit) in
     page ≠ [] →
     1 ≤ maxsize (_user_states (store w)) →
     match _format_results_message page (summary_for parsed page) size with
     | Ret _ =>
         commits offset parsed now w page (offset + display_limit)
           (bool_decide (offset + display_limit < Z.of_nat (length ranked)))
     | Raise e => call offset parsed now w = (Raise e, w)
     end).
  { intros offset now w page Hpage Hsize.
    pose proof (fetch_commits config msg query offset parsed now w pool)
      as Hcommit.
    rewrite Hrules in Hcommit. cbn [fetch_offset shown_pool_size] in Hcommit.
    by apply Hcommit. }
  split; [exact Hgen|]. split.
  - intros offset now w Hempty. subst call.
    unfold _fetch_and_send_candidates.
    destruct (context_of msg) as [[key receiver] at_user]. simpl.
    rewrite Hrules. simpl fetch_offset. rewrite Hfind.
    fold ranked. rewrite Hempty.
    case_bool_decide; by eexists.
  - intros Hlen Hshow0 Hshow5 Hshow10 now w Hsize.
    assert (Hrl : length ranked = 12%nat)
      by (subst ranked; by rewrite ranked_length).
    assert (Hpages :
      py_slice ranked 0 (0 + display_limit) = take 5 ranked
      ∧ py_slice ranked 5 (5 + display_limit) = take 5 (drop 5 ranked)
      ∧ py_slice ranked 10 (10 + display_limit) = drop 10 ranked).
    { rewrite !py_slice_page by lia. repeat split.
      apply take_ge. rewrite length_drop. simpl. lia. }
    destruct Hpages as (Hp0 & Hp5 & Hp10).
    assert (Hne : ∀ n (l : list Candidate), (n < length l)%nat →
                    take 5 (drop n l) ≠ [] ∧ drop n l ≠ []).
    { intros n l Hn. split; intros E; apply (f_equal length) in E;
        rewrite ?length_take, length_drop in E; cbn [length] in E; lia. }
    apply formats_true in Hshow0 as [m0 Hm0].
    apply formats_true in Hshow5 as [m5 Hm5].
    apply formats_true in Hshow10 as [m10 Hm10].
    split; [|split].
    + specialize (Hgen 0 now w). cbn zeta in Hgen.
      rewrite Hp0, Hrl, Hm0 in Hgen.
      apply Hgen; [|done]. apply (Hne 0%nat ranked). lia.
    + specialize (Hgen 5 now w). cbn zeta in Hgen.
      rewrite Hp5, Hrl, Hm5 in Hgen.
      apply Hgen; [|done]. apply (Hne 5%nat ranked). lia.
    + specialize (Hgen 10 now w). cbn zeta in Hgen.
      rewrite Hp10, Hrl, Hm10 in Hgen.
      apply Hgen; [|done]. apply (Hne 10%nat ranked). lia.
Qed.

Lemma ranked_page_commit_witness :
  let ranked :=
    @scored_and_sorted_candidates sample_builtins (Some sample_rules)
      sample_parsed sample_pool in
  let commits :=
    @commits_page sample_builtins sample_collaborators sample_config
      sample_msg (VDict []) in
  commits 0 sample_parsed 0%Qc sample_world (take 5 ranked) 5 true
  ∧ commits 5 sample_parsed 0%Qc sample_world (take 5 (drop 5 ranked)) 10 true
  ∧ commits 10 sample_parsed 0%Qc sample_world (drop 10 ranked) 15 false.
Proof.
  apply (@ranked_page_commit sample_builtins sample_collaborators
           sample_config sample_rules sample_msg (VDict []) sample_parsed
           sample_pool).
  - reflexivity.
  - vm_compute. reflexivity.
  - reflexivity.
  - vm_compute. reflexivity.
  - vm_compute. reflexivity.
  - vm_compute. reflexivity.
  - by vm_compute.
Defined.

(** C2.  When [get_scoring_rules] returns nothing, the list handed to
    pagination is the list the store returned, unchanged.  The slice of
    that list, in its order, is what the result message is built from
    and, when the message can be built, what is sent and cached in the
    state store; when building the message raises, the call raises and
    has sent and stored nothing. *)
Theorem unscored_keeps_order `{Builtins} `{Collaborators} config msg query
    parsed :
  get_scoring_rules config = None →
  (∀ pool,
     scored_and_sorted_candidates (get_scoring_rules config) parsed pool
     = pool)
  ∧ (∀ offset now w pool,
       find_candidates query display_limit offset = Ret pool →
       let page := py_slice pool offset (offset + display_limit) in
       page ≠ [] →
       1 ≤ maxsize (_user_states (store w)) →
       match _format_results_message page (summary_for parsed page) None with
       | Ret _ =>
           commits_page config msg query offset parsed now w page
             (offset + display_limit)
             (bool_decide (offset + display_limit < Z.of_nat (length pool)))
       | Raise e =>
           _fetch_and_send_candidates config msg query offset parsed now w
           = (Raise e, w)
       end).
Proof.
  intros Hrules. split.
  - intros pool. by rewrite Hrules.
  - intros offset now w pool Hfind page Hpage Hsize.
    pose proof (fetch_commits config msg query offset parsed now w pool)
      as Hcommit.
    rewrite Hrules in Hcommit.
    cbn [fetch_offset fetch_limit shown_pool_size
         scored_and_sorted_candidates] in Hcommit.
    by apply Hcommit.
Qed.

Lemma unscored_keeps_order_witness :
  @scored_and_sorted_candidates sample_builtins
    (get_scoring_rules unscored_config) sample_parsed sample_pool
  = sample_pool
  ∧ @commits_page sample_builtins sample_collaborators unscored_config
      sample_msg (VDict []) 0 sample_parsed 0%Qc sample_world
      (sample_candidate <$> [4; 9; 1; 12; 7]) 5 false.
Proof.
  destruct (@unscored_keeps_order sample_builtins sample_collaborators
              unscored_config sample_msg (VDict []) sample_parsed eq_refl)
    as [Hsame Hcommit].
  split; [apply Hsame|].
  assert (Hfind : @find_candidates sample_collaborators (VDict [])
                    display_limit 0
                  = Ret (sample_candidate <$> [4; 9; 1; 12; 7]))
    by (vm_compute; reflexivity).
  assert (Hpage : py_slice (sample_candidate <$> [4; 9; 1; 12; 7]) 0
                           (0 + display_limit) ≠ [])
    by by vm_compute.
  assert (Hsize : 1 ≤ maxsize (_user_states (store sample_world)))
    by by vm_compute.
  pose proof (Hcommit 0 0%Qc sample_world _ Hfind Hpage Hsize) as Hc.
  match goal with |- ?G => exact (Hc <: G) end.
Defined.

End PipelineFacts.

(** * Further properties of the code

    Properties of the functions above that the design document does not
    state, and of the functions around them. *)

(** ** Level resolver *)

Section LevelResolverLemmas.
Import RankingData CertificateCheck Statements Notions.

Lemma assoc_get_elem {A} k (d : list (string * A)) v :
  assoc_get k d = Some v → (k, v) ∈ d.
Proof.
  induction d as [|[k' v'] d IH]; simpl; [done|].
  destruct (String.eqb_spec k k') as [->|_].
  - intros [= ->]. left.
  - intros Hd. right. auto.
Qed.

Lemma list_set_nonempty l : l ≠ [] → list_set l ≠ [].
Proof.
  destruct l as [|x l]; [done|]. intros _ Hnil.
  assert (Hx : x ∈ list_set (x :: l)) by (apply elem_of_remove_dups; left).
  rewrite Hnil in Hx. by apply elem_of_nil in Hx.
Qed.

Lemma specific_rule_shape name modifier ranks names :
  specific_rule name modifier ranks = Some names →
  names ≠ [] ∧ NoDup names.
Proof.
  induction ranks as [|[cat values] ranks IH]; simpl; [done|].
  destruct (assoc_get name values) as [tv|]; [|done].
  destruct (select_by_value modifier tv values) as [|n sel] eqn:Hsel;
    intros Heq; apply (inj Some) in Heq; subst names.
  - split; [done|]. apply NoDup_singleton.
  - split; [by apply (list_set_nonempty (n :: sel)) | apply NoDup_remove_dups].
Qed.

Lemma select_gt_ge tv values :
  select_by_value (Some "gt") tv values ⊆ select_by_value (Some "ge") tv values.
Proof.
  unfold select_by_value. simpl. intros n.
  rewrite !list_elem_of_fmap. intros ([n' v] & -> & Hin).
  exists (n', v). split; [done|].
  apply list_elem_of_filter in Hin as [Hlt Hin]. simpl in Hlt.
  apply list_elem_of_filter. split; [simpl; lia | done].
Qed.

Lemma select_ge_self name tv values :
  assoc_get name values = Some tv →
  name ∈ select_by_value (Some "ge") tv values.
Proof.
  intros Hget%assoc_get_elem. unfold select_by_value. simpl.
  apply list_elem_of_fmap. exists (name, tv). split; [done|].
  apply list_elem_of_filter. split; [simpl; lia | done].
Qed.

Lemma specific_rule_gt_ge name ranks :
  match specific_rule name (Some "gt") ranks,
        specific_rule name (Some "ge") ranks with
  | Some above, Some from => above ⊆ from
  | None, None => True
  | _, _ => False
  end.
Proof.
  induction ranks as [|[cat values] ranks IH]; simpl; [done|].
  destruct (assoc_get name values) as [tv|] eqn:Hget; [|done].
  pose proof (select_gt_ge tv values) as Hsub.
  pose proof (select_ge_self _ _ _ Hget) as Hself.
  destruct (select_by_value (Some "ge") tv values) as [|e from] eqn:Hge.
  { by apply elem_of_nil in Hself. }
  destruct (select_by_value (Some "gt") tv values) as [|a above] eqn:Hgt.
  - intros n ->%list_elem_of_singleton.
    by apply (elem_of_remove_dups (e :: from)).
  - intros n Hn.
    apply (elem_of_remove_dups (a :: above)) in Hn.
    apply (elem_of_remove_dups (e :: from)). auto.
Qed.

Lemma level_info_keys k x :
  assoc_get k LEVEL_INFO = Some x →
  (k, x) ∈ [ ("助理", (chinese, 0)); ("中级", (chinese, 1));
             ("高级", (chinese, 2)); ("初级", (chinese, 0));
             ("一级", (numeric, 0)); ("二级", (numeric, 1));
             ("三级", (numeric, 2)) ].
Proof. intros Hget%assoc_get_elem. exact Hget. Qed.

Lemma generic_levels_unknown k modifier :
  assoc_get k LEVEL_INFO = None → generic_levels k modifier = None.
Proof. unfold generic_levels. by intros ->. Qed.

Lemma get_matching_levels_specific base_name level_keyword modifier names :
  specific_rule (full_cert_name base_name level_keyword) modifier
                CERTIFICATE_RANKS = Some names →
  get_matching_levels base_name level_keyword modifier = names.
Proof.
  intros Hspec. unfold get_matching_levels. cbv zeta.
  assert (Hfull :
    match match level_keyword with
          | Some k => if String.eqb k "" then None else Some k
          | None => None
          end with
    | Some k => k +:+ base_name
    | None => base_name
    end = full_cert_name base_name level_keyword).
  { destruct level_keyword as [k|]; [|done].
    by destruct (String.eqb_spec k "") as [->|]. }
  rewrite Hfull. by rewrite Hspec.
Qed.

Lemma specific_rule_other name modifier ranks :
  modifier ≠ Some "ge" → modifier ≠ Some "gt" →
  specific_rule name modifier ranks = specific_rule name None ranks.
Proof.
  intros Hge Hgt.
  assert (Hsel : ∀ tv values,
            select_by_value modifier tv values
            = select_by_value None tv values).
  { intros tv values. unfold select_by_value, modifier_is.
    destruct modifier as [m|]; [|done].
    destruct (String.eqb_spec m "ge") as [->|_]; [done|].
    by destruct (String.eqb_spec m "gt") as [->|_]. }
  induction ranks as [|[cat values] ranks IH]; simpl; [done|].
  destruct (assoc_get name values); [|done]. by rewrite Hsel.
Qed.

Lemma rank_in_elem category name v :
  rank_in category name = Some v →
  ∃ values, (category, values) ∈ CERTIFICATE_RANKS ∧ (name, v) ∈ values.
Proof.
  unfold rank_in.
  destruct (assoc_get category CERTIFICATE_RANKS) as [values|] eqn:Hcat;
    [|done].
  cbn [mbind option_bind]. intros Hname.
  exists values. split; by apply assoc_get_elem.
Qed.

Lemma junior_not_listed base_name :
  in_specific_table ("初级" +:+ base_name) = false.
Proof. vm_compute. reflexivity. Qed.

Lemma elem_assoc_get {A} k v (d : list (string * A)) :
  (k, v) ∈ d → is_Some (assoc_get k d).
Proof.
  induction d as [|[k' v'] d IH]; simpl.
  - by intros ?%elem_of_nil.
  - destruct (String.eqb_spec k k') as [->|Hne]; [by eexists|].
    intros [[= -> ->]|Hin]%elem_of_cons; [done | auto].
Qed.

Lemma select_by_value_listed modifier tv values n :
  n ∈ select_by_value modifier tv values → is_Some (assoc_get n values).
Proof.
  unfold select_by_value.
  destruct (modifier_is modifier "ge"); [|destruct (modifier_is modifier "gt")];
    rewrite list_elem_of_fmap; intros ([n' v] & -> & Hin);
    apply list_elem_of_filter in Hin as [_ Hin]; by eapply elem_assoc_get.
Qed.

Lemma specific_rule_listed name modifier ranks names n :
  specific_rule name modifier ranks = Some names → n ∈ names →
  existsb (λ cat, bool_decide (is_Some (assoc_get n cat.2))) ranks = true.
Proof.
  induction ranks as [|[cat values] ranks IH]; simpl; [done|].
  destruct (assoc_get name values) as [tv|] eqn:Hget.
  - intros Heq Hn. apply orb_true_iff. left. apply bool_decide_eq_true.
    destruct (select_by_value modifier tv values) as [|s sel] eqn:Hsel;
      apply (inj Some) in Heq; subst names.
    + apply list_elem_of_singleton in Hn as ->. by rewrite Hget.
    + apply (elem_of_remove_dups (s :: sel)) in Hn.
      apply (select_by_value_listed modifier tv). by rewrite Hsel.
  - intros Heq Hn. apply orb_true_iff. right. auto.
Qed.

Lemma specific_rule_some name modifier ranks :
  existsb (λ cat, bool_decide (is_Some (assoc_get name cat.2))) ranks = true →
  is_Some (specific_rule name modifier ranks).
Proof.
  induction ranks as [|[cat values] ranks IH]; simpl; [done|].
  destruct (assoc_get name values) as [tv|] eqn:Hget.
  - intros _. by destruct (select_by_value modifier tv values).
  - intros [Hhere|Hrest]%orb_true_iff; [|auto].
    apply bool_decide_eq_true in Hhere. by destruct Hhere.
Qed.

End LevelResolverLemmas.

(** Evaluation of the generic rule at a known keyword. *)
Ltac eval_generic_levels :=
  repeat match goal with
         | |- context [RankingData.generic_levels ?k ?m] =>
             let v := eval vm_compute in (RankingData.generic_levels k m) in
             change (RankingData.generic_levels k m) with v
         end.

(** The ranked names, one case per entry of the tables. *)
Ltac rank_cases H :=
  let values := fresh "values" in
  let Hcat := fresh "Hcat" in
  let Hname := fresh "Hname" in
  let Heq := fresh "Heq" in
  apply rank_in_elem in H as (values & Hcat & Hname);
  unfold RankingData.CERTIFICATE_RANKS in Hcat;
  repeat (apply elem_of_cons in Hcat as [Heq|Hcat];
          [simplify_eq;
           repeat (apply elem_of_cons in Hname as [Heq|Hname];
                   [simplify_eq|]);
           try (by apply elem_of_nil in Hname)|]);
  try (by apply elem_of_nil in Hcat).

Ltac in_list := by repeat constructor.

Ltac list_cases H :=
  repeat (apply elem_of_cons in H as [->|H]);
  try (by apply elem_of_nil in H).

(** The names a specific table gives for a composed name that is
    known. *)
Ltac by_specific_rule Hfull Hmod m :=
  match type of Hfull with
  | Notions.full_cert_name ?b ?k = ?name =>
      let v := eval vm_compute in (RankingData.specific_rule name m RankingData.CERTIFICATE_RANKS) in
      match v with
      | Some ?l =>
          rewrite (get_matching_levels_specific b k _ l)
            by (rewrite ?Hmod by done; rewrite Hfull; vm_compute; reflexivity)
      end
  end.

Section LevelResolverMore.
Import RankingData CertificateCheck Statements Notions.

(** X1.  Whatever the base name, the keyword and the modifier,
    [get_matching_levels] returns at least one name, and no name
    twice. *)
Theorem matching_levels_nonempty_nodup base_name level_keyword modifier :
  get_matching_levels base_name level_keyword modifier ≠ []
  ∧ NoDup (get_matching_levels base_name level_keyword modifier).
Proof.
  unfold get_matching_levels. cbv zeta.
  match goal with
  | |- context [specific_rule ?n ?m ?r] =>
      destruct (specific_rule n m r) as [names|] eqn:Hspec
  end.
  - by apply specific_rule_shape in Hspec.
  - match goal with
    | |- context [mbind ?f ?k] => destruct (mbind f k) as [[|level levels]|]
    end; try (split; [done | apply NoDup_singleton]).
    split; [|apply NoDup_remove_dups].
    apply list_set_nonempty. unfold generated_names.
    case_bool_decide; done.
Qed.

(** X2.  For every base name and keyword, each name returned under the
    modifier "gt" is also returned under "ge": this holds in the specific
    tables, in the generic rule, and where "gt" selects nothing and the
    composed name itself comes back. *)
Theorem matching_levels_gt_within_ge base_name level_keyword :
  get_matching_levels base_name level_keyword (Some "gt")
  ⊆ get_matching_levels base_name level_keyword (Some "ge").
Proof.
  unfold get_matching_levels. cbv zeta.
  match goal with
  | |- context [specific_rule ?n (Some "gt") ?r] =>
      pose proof (specific_rule_gt_ge n r) as Hspec;
      destruct (specific_rule n (Some "gt") r) as [above|],
               (specific_rule n (Some "ge") r) as [from|]
  end; try done.
  destruct level_keyword as [k|]; [|done].
  destruct (String.eqb k ""); [done|]. cbn [mbind option_bind].
  destruct (assoc_get k LEVEL_INFO) as [x|] eqn:Hinfo.
  - apply level_info_keys in Hinfo.
    repeat (apply elem_of_cons in Hinfo as [Heq|Hinfo];
            [simplify_eq|]);
      try (by apply elem_of_nil in Hinfo);
      eval_generic_levels; cbv iota beta;
      unfold list_set, generated_names;
      intros n; rewrite ?elem_of_remove_dups;
      destruct (bool_decide (base_name ∈ registrable_professions));
      cbn [fmap list_fmap app];
      rewrite ?elem_of_cons, ?elem_of_nil; tauto.
  - by rewrite !generic_levels_unknown.
Qed.

(** X3.  When the composed name has the ordinal [tv] in the table of a
    category, the call returns under "ge" exactly the names of that table
    whose ordinal is at least [tv]; under "gt" exactly those of a larger
    ordinal, or the composed name alone when it is at the top; and under
    any other modifier exactly the names of ordinal [tv], aliases
    included. *)
Theorem matching_levels_by_ordinal category base_name level_keyword tv :
  let full := full_cert_name base_name level_keyword in
  let names := get_matching_levels base_name level_keyword in
  rank_in category full = Some tv →
  (∀ n, n ∈ names (Some "ge") ↔ ∃ v, rank_in category n = Some v ∧ tv ≤ v)
  ∧ (∀ n, n ∈ names (Some "gt")
          ↔ (∃ v, rank_in category n = Some v ∧ tv < v)
            ∨ (n = full ∧ ∀ n' v, rank_in category n' = Some v → v ≤ tv))
  ∧ (∀ modifier n, modifier ≠ Some "ge" → modifier ≠ Some "gt" →
       n ∈ names modifier ↔ rank_in category n = Some tv).
Proof.
  intros full names Hrank. subst names.
  remember full as name eqn:Hfull. subst full. symmetry in Hfull.
  assert (Hother : ∀ modifier, modifier ≠ Some "ge" → modifier ≠ Some "gt" →
            specific_rule (full_cert_name base_name level_keyword) modifier
              CERTIFICATE_RANKS
            = specific_rule (full_cert_name base_name level_keyword) None
                CERTIFICATE_RANKS).
  { intros. by apply specific_rule_other. }
  rank_cases Hrank.
  all: match goal with
       | Hf : full_cert_name _ _ = _ |- _ =>
           split; [|split];
           [ intros n; by_specific_rule Hf Hother (Some "ge")
           | intros n; by_specific_rule Hf Hother (Some "gt"); rewrite Hf
           | intros modifier n Hge Hgt; by_specific_rule Hf Hother (@None string) ]
       end.
  all: split.
  all: try (intros Hn; list_cases Hn;
            first [ reflexivity
                  | eexists; split; [reflexivity|lia]
                  | left; eexists; split; [reflexivity|lia]
                  | right; split; [reflexivity|];
                    intros n' v Hr; rank_cases Hr; lia ]).
  all: try (intros (v & Hr & Hle); rank_cases Hr; try lia; in_list).
  all: try (intros Hr; rank_cases Hr; in_list).
  all: intros [(v & Hr & Hlt) | [-> Hall]];
    [ rank_cases Hr; try lia; in_list |].
  all: first
         [ in_list
         | exfalso;
           first [ specialize (Hall "教授级高级建筑师" 4 eq_refl)
                 | specialize (Hall "教授级高级工程师" 4 eq_refl)
                 | specialize (Hall "二级建造师" 2 eq_refl) ];
           lia ].
Qed.

Lemma matching_levels_by_ordinal_witness :
  rank_in "工程师" (full_cert_name "工程师" (Some "高级")) = Some 3
  ∧ ∀ n, n ∈ get_matching_levels "工程师" (Some "高级") (Some "ge")
         ↔ ∃ v, rank_in "工程师" n = Some v ∧ 3 ≤ v.
Proof.
  split; [reflexivity|].
  exact (proj1 (matching_levels_by_ordinal "工程师" "工程师" (Some "高级") 3
                  eq_refl)).
Defined.

(** X4.  A composed name that no specific table lists, with no keyword
    or with one the generic levels do not know, comes back alone,
    whatever the modifier. *)
Theorem matching_levels_passthrough base_name level_keyword modifier :
  in_specific_table (full_cert_name base_name level_keyword) = false →
  (∀ k, level_keyword = Some k → assoc_get k LEVEL_INFO = None) →
  get_matching_levels base_name level_keyword modifier
  = [full_cert_name base_name level_keyword].
Proof.
  intros Hspec Hkw. unfold get_matching_levels. cbv zeta.
  destruct level_keyword as [k|]; cbn [full_cert_name] in *.
  - destruct (String.eqb_spec k "") as [->|_]; cbn [mbind option_bind].
    + change ("" +:+ base_name) with base_name in *.
      by rewrite (specific_rule_none _ _ _ Hspec).
    + rewrite (specific_rule_none _ _ _ Hspec).
      by rewrite (generic_levels_unknown _ _ (Hkw k eq_refl)).
  - by rewrite (specific_rule_none _ _ _ Hspec).
Qed.

Lemma matching_levels_passthrough_witness :
  get_matching_levels "会计师" (Some "特级") (Some "ge") = ["特级会计师"].
Proof.
  apply (matching_levels_passthrough "会计师" (Some "特级") (Some "ge")).
  - vm_compute. reflexivity.
  - intros k [= <-]. vm_compute. reflexivity.
Defined.

(** X5.  The keyword "初级" is an alias of the first generic level: where
    "助理" + base name is in no specific table, a call with "初级" returns
    what the call with "助理" returns, and never the name "初级" + base
    name that was asked for. *)
Theorem junior_alias base_name modifier :
  in_specific_table ("助理" +:+ base_name) = false →
  get_matching_levels base_name (Some "初级") modifier
  = get_matching_levels base_name (Some "助理") modifier
  ∧ ("初级" +:+ base_name) ∉ get_matching_levels base_name (Some "初级") modifier.
Proof.
  intros Hspec.
  assert (Hlevels : ∃ level levels,
            generic_levels "初级" modifier = Some (level :: levels)
            ∧ generic_levels "助理" modifier = Some (level :: levels)
            ∧ level :: levels ⊆ CHINESE_LEVELS).
  { unfold generic_levels, target_indices.
    change (assoc_get "初级" LEVEL_INFO) with (Some (chinese, 0)).
    change (assoc_get "助理" LEVEL_INFO) with (Some (chinese, 0)).
    destruct (modifier_is modifier "ge"); [|destruct (modifier_is modifier "gt")];
      eexists _, _; (split; [vm_compute; reflexivity|]);
      (split; [vm_compute; reflexivity|]);
      intros l Hl; list_cases Hl; in_list. }
  destruct Hlevels as (level & levels & Hjunior & Hassistant & Hsub).
  rewrite (get_matching_levels_generic _ _ _ _ Hjunior)
    by (done || apply junior_not_listed).
  rewrite (get_matching_levels_generic _ _ _ _ Hassistant) by done.
  split; [done|].
  unfold list_set. rewrite elem_of_remove_dups.
  unfold generated_names. intros Hin.
  assert (Hnames : ∃ prefix,
            prefix ∈ ["助理"; "中级"; "高级"; "助理注册"; "中级注册";
                      "高级注册"; "注册"]
            ∧ "初级" +:+ base_name = prefix +:+ base_name).
  { destruct (bool_decide (base_name ∈ registrable_professions)).
    - rewrite !elem_of_app, !list_elem_of_fmap, list_elem_of_singleton in Hin.
      destruct Hin as [(l & -> & Hl) | [(l & Heq & Hl) | Heq]].
      + apply Hsub in Hl. exists l. split; [|done]. list_cases Hl; in_list.
      + apply Hsub in Hl. exists (l +:+ "注册").
        split; [list_cases Hl; in_list|].
        rewrite Heq. list_cases Hl; reflexivity.
      + exists "注册". split; [in_list | done].
    - rewrite list_elem_of_fmap in Hin. destruct Hin as (l & -> & Hl).
      apply Hsub in Hl. exists l. split; [|done]. list_cases Hl; in_list. }
  destruct Hnames as (prefix & Hprefix & Heq).
  list_cases Hprefix; simpl in Heq; discriminate Heq.
Qed.

Lemma junior_alias_witness :
  get_matching_levels "会计师" (Some "初级") (Some "ge")
  = get_matching_levels "会计师" (Some "助理") (Some "ge")
  ∧ "初级会计师" ∉ get_matching_levels "会计师" (Some "初级") (Some "ge").
Proof.
  apply (junior_alias "会计师" (Some "ge")). vm_compute. reflexivity.
Defined.

End LevelResolverMore.

(** ** Known certificates *)

Section CertificateCheckFacts.
Import RankingData CertificateCheck Statements Notions.

(** X6.  Every name [get_matching_levels] returns for a composed name
    that a specific table lists is a certificate that
    [check_certificate_exists] knows. *)
Theorem specific_names_recognised base_name level_keyword modifier n :
  in_specific_table (full_cert_name base_name level_keyword) = true →
  n ∈ get_matching_levels base_name level_keyword modifier →
  check_certificate_exists n = true.
Proof.
  intros Hspec Hn.
  destruct (specific_rule_some _ modifier _ Hspec) as [names Hnames].
  rewrite (get_matching_levels_specific _ _ _ _ Hnames) in Hn.
  unfold check_certificate_exists, in_specific_table.
  by rewrite (specific_rule_listed _ _ _ _ _ Hnames Hn).
Qed.

Lemma specific_names_recognised_witness :
  check_certificate_exists "教授级高级工程师" = true.
Proof.
  apply (specific_names_recognised "工程师" (Some "高级") (Some "gt")).
  - vm_compute. reflexivity.
  - vm_compute. in_list.
Defined.

Lemma registered_not_recognised base_name :
  check_certificate_exists ("注册" +:+ base_name) = false.
Proof. lazy. reflexivity. Qed.

(** X7.  The two functions disagree on the bare registered form: where
    the generic rule applies to a registrable profession,
    [get_matching_levels] returns a name ("注册" + base name) that
    [check_certificate_exists] does not know. *)
Theorem registered_form_unrecognised base_name level_keyword modifier levels :
  base_name ∈ registrable_professions →
  generic_levels level_keyword modifier = Some levels →
  levels ≠ [] →
  in_specific_table (level_keyword +:+ base_name) = false →
  ∃ n, n ∈ get_matching_levels base_name (Some level_keyword) modifier
       ∧ check_certificate_exists n = false.
Proof.
  intros Hreg Hlevels Hne Hspec. exists ("注册" +:+ base_name).
  split; [|apply registered_not_recognised].
  rewrite (get_matching_levels_generic _ _ _ _ Hlevels Hne Hspec).
  unfold list_set, generated_names.
  rewrite bool_decide_eq_true_2 by done.
  apply elem_of_remove_dups.
  do 2 (apply elem_of_app; right). by apply list_elem_of_singleton.
Qed.

Lemma registered_form_unrecognised_witness :
  ∃ n, n ∈ get_matching_levels "建筑师" (Some "一级") (Some "ge")
       ∧ check_certificate_exists n = false.
Proof.
  apply (registered_form_unrecognised "建筑师" "一级" (Some "ge")
           ["一级"; "二级"; "三级"]).
  - in_list.
  - vm_compute. reflexivity.
  - discriminate.
  - vm_compute. reflexivity.
Defined.

End CertificateCheckFacts.

Section KeywordPrefix.
Import RankingData CertificateCheck Statements Notions.

Lemma concat_cons_char a c cs :
  String.concat "" (String a c :: cs) = String a (String.concat "" (c :: cs)).
Proof. by destruct cs. Qed.

Lemma concat_utf8_chars s : String.concat "" (utf8_chars s) = s.
Proof.
  induction s as [|a rest IH]; [done|].
  cbn [utf8_chars].
  destruct (starts_with_continuation rest), (utf8_chars rest) as [|c cs];
    try (rewrite concat_cons_char, IH; done);
    try (simpl in *; by subst rest).
  all: simpl in *; destruct cs; simpl in *; by rewrite ?IH.
Qed.

Lemma utf8_chars_nonempty a s : utf8_chars (String a s) ≠ [].
Proof.
  cbn [utf8_chars].
  by destruct (starts_with_continuation s), (utf8_chars s).
Qed.

Lemma utf8_chars_cons a s :
  utf8_chars (String a s)
  = match starts_with_continuation s, utf8_chars s with
    | true, c :: cs => String a c :: cs
    | _, cs => String a "" :: cs
    end.
Proof. done. Qed.

Lemma utf8_chars_app k s :
  starts_with_continuation s = false →
  utf8_chars (k +:+ s) = app (utf8_chars k) (utf8_chars s).
Proof.
  intros Hs. induction k as [|a k IH]; [done|].
  change (String a k +:+ s) with (String a (k +:+ s)).
  rewrite !utf8_chars_cons, IH.
  destruct k as [|b k].
  - change ("" +:+ s) with s. rewrite Hs. by destruct (utf8_chars s).
  - change (String b k +:+ s) with (String b (k +:+ s)).
    pose proof (utf8_chars_nonempty b k) as Hne.
    destruct (utf8_chars (String b k)) as [|c cs]; [done|].
    cbn [starts_with_continuation]. by destruct (is_continuation b).
Qed.

Lemma prefix_append k s : String.prefix k (k +:+ s) = true.
Proof.
  induction k as [|a k IH]; simpl; [by destruct s|].
  by destruct (ascii_dec a a).
Qed.

(** X8.  A generic level keyword followed by a base name that is not
    blank (and begins a code point of its own) is a certificate that
    [check_certificate_exists] knows. *)
Theorem keyword_names_recognised (keyword base_name : string) :
  keyword ∈ LEVEL_INFO.*1 →
  starts_with_continuation base_name = false →
  py_strip base_name ≠ "" →
  check_certificate_exists (keyword +:+ base_name) = true.
Proof.
  intros Hkw Hstart Hbase. unfold check_certificate_exists.
  destruct (in_specific_table (keyword +:+ base_name)); [done|].
  apply existsb_exists. exists keyword. split.
  { apply list_elem_of_In.
    change sorted_keywords
      with ["助理"; "中级"; "高级"; "初级"; "一级"; "二级"; "三级"].
    exact Hkw. }
  assert (Hrest : str_from (char_count keyword) (keyword +:+ base_name)
                  = base_name
                  ∧ String.prefix keyword (keyword +:+ base_name) = true).
  { change (LEVEL_INFO.*1)
      with ["助理"; "中级"; "高级"; "初级"; "一级"; "二级"; "三级"] in Hkw.
    unfold str_from. rewrite utf8_chars_app by done.
    split; [|apply prefix_append].
    list_cases Hkw; apply concat_utf8_chars. }
  destruct Hrest as [-> ->]. cbn [andb].
  by destruct (String.eqb_spec (py_strip base_name) "").
Qed.

Lemma keyword_names_recognised_witness :
  check_certificate_exists "高级会计师" = true.
Proof.
  apply (keyword_names_recognised "高级" "会计师").
  - vm_compute. in_list.
  - reflexivity.
  - by vm_compute.
Defined.

End KeywordPrefix.

(** ** Dimension scorer *)

Section ScoringMore.
Import ScoringUtils Statements.

Lemma split_on_nonempty sep s : split_on sep s ≠ [].
Proof.
  destruct s as [|c s]; simpl; [done|].
  destruct (Ascii.eqb c sep); [done|]. by destruct (split_on sep s).
Qed.

Lemma split_on_app sep p1 p2 :
  split_on sep (p1 +:+ String sep p2) = app (split_on sep p1) (split_on sep p2).
Proof.
  induction p1 as [|c p1 IH]; simpl.
  - by rewrite Ascii.eqb_refl.
  - rewrite IH. destruct (Ascii.eqb c sep); [done|].
    pose proof (split_on_nonempty sep p1) as Hne.
    by destruct (split_on sep p1).
Qed.

Lemma walk_path_none keys : walk_path VNone keys = VNone.
Proof. by destruct keys. Qed.

Lemma walk_path_app value keys1 keys2 :
  walk_path value (app keys1 keys2) = walk_path (walk_path value keys1) keys2.
Proof.
  revert value. induction keys1 as [|key keys1 IH]; intros value; simpl; [done|].
  destruct value as [| |l|d|]; try by rewrite walk_path_none.
  destruct (assoc_get key d) as [v|]; [|by rewrite walk_path_none].
  destruct (is_none v); [by rewrite walk_path_none | apply IH].
Qed.

Lemma walk_path_falsy value keys :
  truthy value = false → keys ≠ [] → walk_path value keys = VNone.
Proof.
  intros Hfalsy Hkeys. destruct keys as [|key keys]; [done|]. simpl.
  destruct value as [| |l|d|]; try done.
  by destruct d.
Qed.

(** X9.  Reading a dotted path is reading its first part and then the
    rest in the value found, for parts that are not empty: a missing key,
    a [None] or a value that is no dictionary on the way gives [None] in
    both. *)
Theorem safe_get_value_nested (data : pyval) (p1 p2 : string) :
  p1 ≠ "" → p2 ≠ "" →
  _safe_get_value data (p1 +:+ "." +:+ p2)
  = _safe_get_value (_safe_get_value data p1) p2.
Proof.
  intros Hp1 Hp2. unfold _safe_get_value.
  assert (Hpath : String.eqb (p1 +:+ "." +:+ p2) "" = false).
  { destruct p1; [done|]. done. }
  rewrite Hpath, orb_false_r.
  destruct (String.eqb_spec p1 "") as [|_]; [done|].
  destruct (String.eqb_spec p2 "") as [|_]; [done|].
  rewrite !orb_false_r.
  destruct (truthy data); simpl; [|done].
  change (p1 +:+ "." +:+ p2) with (p1 +:+ String "." p2).
  rewrite split_on_app, walk_path_app.
  destruct (truthy (walk_path data (split_on "." p1))) eqn:Hv; simpl; [done|].
  apply walk_path_falsy; [done | apply split_on_nonempty].
Qed.

Lemma safe_get_value_nested_witness :
  _safe_get_value sample_candidate_data "query_tags.min_experience_years"
  = _safe_get_value (_safe_get_value sample_candidate_data "query_tags")
                    "min_experience_years".
Proof.
  by apply (safe_get_value_nested sample_candidate_data "query_tags"
              "min_experience_years").
Defined.

(** X10.  [calculate_exact_match_score] does not depend on which of two
    present values is the required one, and a present value compared
    with itself scores the configured match score ([1.0] when there is
    none), case-sensitively or not. *)
Theorem exact_match_symmetric `{Builtins} (a b : pyval) (params : params_t) :
  is_none a = false → is_none b = false →
  calculate_exact_match_score a b params
  = calculate_exact_match_score b a params
  ∧ ∀ m, calculate_exact_match_score a a (Some m)
         = Ret (default f1_0 (m !! "match_score")).
Proof.
  intros Ha Hb. unfold calculate_exact_match_score.
  rewrite Ha, Hb. split.
  - destruct params as [m|]; simpl; [|done].
    by rewrite (String.eqb_sym (py_str a)),
               (String.eqb_sym (lower (py_str a))).
  - intros m. simpl. rewrite !String.eqb_refl.
    unfold from_option, default, id.
    by destruct (scalar_truthy _).
Qed.

Lemma exact_match_symmetric_witness :
  @calculate_exact_match_score sample_builtins (VStr "Shanghai")
     (VStr "shanghai") (Some ∅)
  = @calculate_exact_match_score sample_builtins (VStr "shanghai")
      (VStr "Shanghai") (Some ∅)
  ∧ ∀ m, @calculate_exact_match_score sample_builtins (VStr "Shanghai")
           (VStr "Shanghai") (Some m)
         = Ret (default f1_0 (m !! "match_score")).
Proof.
  by apply (@exact_match_symmetric sample_builtins (VStr "Shanghai")
              (VStr "shanghai") (Some ∅)).
Defined.


Lemma keyword_set_NoDup `{Builtins} v keywords :
  keyword_set v = Ret keywords → NoDup keywords.
Proof.
  unfold keyword_set. destruct (py_iter v); simpl; [|done].
  intros [= <-]. apply NoDup_remove_dups.
Qed.

Lemma intersection_length_comm (l k : list string) :
  NoDup l → NoDup k →
  length (list_intersection l k) = length (list_intersection k l).
Proof.
  intros Hl Hk. apply Permutation_length, NoDup_Permutation.
  - by apply NoDup_list_intersection.
  - by apply NoDup_list_intersection.
  - intros x. rewrite !list_elem_of_intersection. tauto.
Qed.

(** X11.  For two non-empty lists [calculate_keyword_presence_score]
    gives the same result when the required and the candidate list are
    exchanged, whatever the parameters. *)
Theorem presence_symmetric `{Builtins} (required_list candidate_list : pyval)
    (params : params_t) :
  truthy required_list = true → truthy candidate_list = true →
  calculate_keyword_presence_score required_list candidate_list params
  = calculate_keyword_presence_score candidate_list required_list params.
Proof.
  intros Hr Hc. unfold calculate_keyword_presence_score.
  destruct params as [m|]; simpl; [|done]. rewrite Hr, Hc. simpl.
  destruct (keyword_set required_list) as [rs|] eqn:Hrs,
           (keyword_set candidate_list) as [cs|] eqn:Hcs; simpl; try done.
  unfold size_of.
  by rewrite (intersection_length_comm rs cs)
    by eauto using keyword_set_NoDup.
Qed.

Lemma presence_symmetric_witness :
  @calculate_keyword_presence_score sample_builtins
    (VList [VStr "PMP"; VStr "CPA"]) (VList [VStr "cpa"]) (Some ∅)
  = @calculate_keyword_presence_score sample_builtins
      (VList [VStr "cpa"]) (VList [VStr "PMP"; VStr "CPA"]) (Some ∅).
Proof.
  by apply (@presence_symmetric sample_builtins).
Defined.


Lemma length_list_set (l : list string) : (length (list_set l) ≤ length l)%nat.
Proof.
  apply submseteq_length, NoDup_submseteq; [apply NoDup_remove_dups|].
  intros x. unfold list_set. by rewrite elem_of_remove_dups.
Qed.

Lemma length_intersection (l k : list string) :
  NoDup l → (length (list_intersection l k) ≤ length l)%nat.
Proof.
  intros Hl. apply submseteq_length, NoDup_submseteq.
  - by apply NoDup_list_intersection.
  - intros x. rewrite list_elem_of_intersection. tauto.
Qed.

Lemma keyword_set_len `{Builtins} v keywords :
  keyword_set v = Ret keywords →
  ∃ n, py_len v = Ret n ∧ Z.of_nat (length keywords) ≤ n.
Proof.
  unfold keyword_set.
  assert (Hitems : ∀ items : list pyval,
    Z.of_nat (length (list_set ((λ item, lower (py_str item))
                                  <$> filter (λ item, truthy item) items)))
    ≤ Z.of_nat (length items)).
  { intros items. apply Nat2Z.inj_le.
    etrans; [apply length_list_set|]. rewrite length_fmap.
    apply length_filter. }
  destruct v as [| s |l|d|]; simpl; try done; intros [= <-];
    eexists; (split; [done|]).
  - etrans; [apply Hitems|]. by rewrite length_fmap.
  - apply Hitems.
  - etrans; [apply Hitems|]. by rewrite length_fmap.
Qed.

Lemma Qc_of_nat_scaled (n : nat) :
  (Qc_of_Z (Z.of_nat n) * 1 = Qc_of_Z (Z.of_nat n))%Qc.
Proof. apply Qcmult_1_r. Qed.

(** X12.  With no parameter configured and both lists non-empty, the
    presence score is [1.0] when the two keyword sets share a keyword and
    [0.0] otherwise, and the overlap score is the number of required
    keywords found among the candidate's: the proportional scaling the
    function computes on the way does not reach its result. *)
Theorem default_keyword_scores `{Builtins} (required_list candidate_list : pyval)
    (req_set cand_set : list string) :
  truthy required_list = true → truthy candidate_list = true →
  keyword_set required_list = Ret req_set →
  keyword_set candidate_list = Ret cand_set →
  let matches := list_intersection req_set cand_set in
  calculate_keyword_presence_score required_list candidate_list (Some ∅)
  = Ret (SFloat (if bool_decide (matches = []) then 0 else 1)%Qc)
  ∧ calculate_keyword_overlap_score required_list candidate_list (Some ∅)
    = Ret (SFloat (Qc_of_Z (Z.of_nat (length matches)))).
Proof.
  intros Hr Hc Hrs Hcs matches.
  pose proof (keyword_set_NoDup _ _ Hrs) as Hnodup.
  pose proof (length_intersection req_set cand_set Hnodup) as Hle.
  fold matches in Hle.
  split.
  - unfold calculate_keyword_presence_score, params_get.
    rewrite !lookup_empty. cbn [from_option bind]. rewrite Hr, Hc, Hrs, Hcs.
    cbn [negb bind]. fold matches.
    unfold size_of, py_mul, py_min, py_lt, f1_0, SInt, SFloat.
    cbn [bind as_num num_mul num_Q]. rewrite Qc_of_nat_scaled.
    destruct matches as [|x rest]; cbn [length].
    + rewrite bool_decide_eq_false_2 by (intros Hlt; by vm_compute in Hlt).
      rewrite bool_decide_eq_true_2 by done. do 3 f_equal. apply Z2Qc_inj_0.
    + rewrite (bool_decide_eq_false_2 (_ :: _ = [])) by done.
      case_bool_decide as Hlt; [done|].
      do 3 f_equal. apply Qcnot_lt_le in Hlt.
      apply Qcle_antisym; [done|].
      rewrite <- Z2Qc_inj_1. apply (proj1 (Z2Qc_inj_le _ _)). lia.
  - unfold calculate_keyword_overlap_score, params_get.
    rewrite !lookup_empty. cbn [from_option bind]. rewrite Hr, Hc.
    destruct (keyword_set_len _ _ Hrs) as (n & -> & Hn).
    rewrite Hrs, Hcs. cbn [negb bind]. fold matches.
    unfold size_of, py_mul, py_min, py_gt, py_lt, py_truediv, f1_0, SInt,
      SFloat.
    cbn [bind as_num num_mul num_Q id].
    rewrite !Qc_of_nat_scaled, !Qcmult_1_r.
    assert (Hscore :
      bool_decide (Qc_of_Z n < Qc_of_Z (Z.of_nat (length matches)))%Qc
      = false).
    { apply bool_decide_eq_false_2, Qcle_not_lt.
      apply (proj1 (Z2Qc_inj_le _ _)). lia. }
    destruct (bool_decide (Qc_of_Z 0 < Qc_of_Z n)%Qc); cbn [bind].
    + destruct (bool_decide
                  (Qc_of_Z 0 < Qc_of_Z (Z.of_nat (length req_set)))%Qc)
        eqn:Hpos; cbn [bind].
      * apply bool_decide_eq_true in Hpos.
        rewrite bool_decide_eq_false_2
          by (intros Hz; rewrite Hz in Hpos; by vm_compute in Hpos).
        cbn [bind as_num num_Q].
        destruct (bool_decide (1 < _)%Qc); cbn [bind as_num num_mul num_Q];
          by rewrite Hscore.
      * by rewrite Hscore.
    + by rewrite Hscore.
Qed.

Lemma default_keyword_scores_witness :
  @calculate_keyword_presence_score sample_builtins
    (VList [VStr "Python"; VStr "CAD"; VStr "Revit"])
    (VList [VStr "cad"; VStr "python"]) (Some ∅) = Ret (SFloat 1)
  ∧ @calculate_keyword_overlap_score sample_builtins
      (VList [VStr "Python"; VStr "CAD"; VStr "Revit"])
      (VList [VStr "cad"; VStr "python"]) (Some ∅) = Ret (SFloat (Qc_of_Z 2)).
Proof.
  exact (@default_keyword_scores sample_builtins
           (VList [VStr "Python"; VStr "CAD"; VStr "Revit"])
           (VList [VStr "cad"; VStr "python"])
           ["python"; "cad"; "revit"] ["cad"; "python"]
           eq_refl eq_refl eq_refl eq_refl).
Defined.







End ScoringMore.


Section RangeMonotone.
Import ScoringUtils Statements.
Local Open Scope Qc_scope.





End RangeMonotone.

(** ** Conversation state store *)

Section StateStoreMore.
Import StateStore Statements.
Local Open Scope Qc_scope.

Lemma cache_get_settings c now k :
  maxsize (cache_get c now k).2 = maxsize c
  ∧ ttl (cache_get c now k).2 = ttl c.
Proof.
  unfold cache_get. destruct (assoc_get k _); [|done]. by destruct (live _ _).
Qed.

Lemma assoc_get_remove_other k k' (l : list (string * Entry)) :
  k' ≠ k → assoc_get k' (remove_key k l) = assoc_get k' l.
Proof.
  intros Hne. unfold remove_key.
  induction l as [|[k0 e] l IH]; simpl; [done|].
  rewrite filter_cons. simpl. case_decide as Hk; simpl.
  - by rewrite IH.
  - subst k0.
    destruct (String.eqb_spec k' k); [done|]. apply IH.
Qed.

Lemma assoc_get_move_to_end k k' l :
  assoc_get k' (move_to_end k l) = assoc_get k' l.
Proof.
  unfold move_to_end. destruct (assoc_get k l) as [e|] eqn:Hk; [|done].
  destruct (decide (k' = k)) as [->|Hne].
  - by rewrite assoc_get_refreshed.
  - rewrite assoc_get_app, assoc_get_remove_other by done.
    destruct (assoc_get k' l); [done|]. simpl.
    by destruct (String.eqb_spec k' k).
Qed.

(** A read of the cache leaves every entry where a later read finds it. *)
Lemma cache_get_links c now k k' :
  assoc_get k' (links (cache_get c now k).2) = assoc_get k' (links c).
Proof.
  unfold cache_get. destruct (assoc_get k (links c)) as [e|]; [|done].
  destruct (live now e); [|done]. simpl. apply assoc_get_move_to_end.
Qed.

(** What a getter reads depends on the entry of the key only. *)
Lemma read_field_ext key dflt self1 self2 now k :
  assoc_get k (links (_user_states self1))
  = assoc_get k (links (_user_states self2)) →
  (read_field key dflt self1 now k).1 = (read_field key dflt self2 now k).1.
Proof.
  intros Heq. rewrite !read_field_stored.
  unfold stored, get_or_empty, cache_get. rewrite Heq.
  destruct (assoc_get k (links (_user_states self2))) as [e|]; [|done].
  by destruct (live now e).
Qed.

(** A write that follows the read of the key: until the entry expires
    the getters read the dictionary written. *)
Lemma put_after_get self now k d :
  (1 ≤ maxsize (_user_states self))%Z →
  d ≠ ∅ →
  ∃ self', put (get_or_empty self now k).2 now k d = Ret self'
    ∧ ∀ key dflt now', now' < now + ttl (_user_states self) →
        (read_field key dflt self' now' k).1 = dict_get d key dflt.
Proof.
  intros Hsize Hne. unfold get_or_empty.
  destruct (cache_get_settings (_user_states self) now k) as [Hmax Httl].
  destruct (cache_get (_user_states self) now k) as [d0 c]. simpl in *.
  destruct (put_entry c now k d) as (self' & Hput & _ & Hentry); [lia|].
  exists self'. split; [done|]. intros key dflt now' Hlive.
  rewrite (read_field_written _ _ _ _ _ _ Hentry); simpl; [done| |done].
  by rewrite Httl.
Qed.

Lemma get_or_empty_stored self now k :
  (get_or_empty self now k).1 = stored self now k.
Proof. done. Qed.

Lemma clear_state_gone self now now' k :
  now ≤ now' →
  cache_contains (_user_states (clear_state self now k)) now' k = false.
Proof.
  intros Hlater. unfold clear_state, cache_contains.
  destruct (assoc_get k (links (_user_states self))) as [e|] eqn:Hk.
  - destruct (live now e) eqn:Hlive; simpl.
    + by rewrite assoc_get_remove_key.
    + rewrite Hk. unfold live in *.
      apply bool_decide_eq_false in Hlive.
      apply bool_decide_eq_false_2. intros Hlt. apply Hlive.
      by eapply Qcle_lt_trans.
  - by rewrite Hk.
Qed.

(** X16.  After [clear_state] every getter answers as for a
    conversation never seen, at the time of the call and later, and
    clearing again changes nothing. *)
Theorem clear_state_idle self now now' k :
  now ≤ now' →
  reads_as_idle (clear_state self now k) now' k
  ∧ clear_state (clear_state self now k) now' k = clear_state self now k.
Proof.
  intros Hlater.
  pose proof (clear_state_gone self now now' k Hlater) as Hgone.
  split; [by apply reads_as_idle_dead|].
  unfold clear_state at 1. by rewrite Hgone.
Qed.

Lemma clear_state_idle_witness :
  reads_as_idle (clear_state sample_store_page (Qc_of_Z 10) "hr_1") (Qc_of_Z 20) "hr_1"
  ∧ clear_state (clear_state sample_store_page (Qc_of_Z 10) "hr_1") (Qc_of_Z 20) "hr_1"
    = clear_state sample_store_page (Qc_of_Z 10) "hr_1".
Proof.
  apply (clear_state_idle sample_store_page (Qc_of_Z 10) (Qc_of_Z 20) "hr_1").
  by vm_compute.
Defined.

(** X17.  On a store of capacity at least one, [update_state] sets the
    state and leaves every other field of the conversation as it read
    before the call, until the refreshed entry expires. *)
Theorem update_state_keeps_fields self now k state :
  (1 ≤ maxsize (_user_states self))%Z →
  ∃ self',
    update_state self now k state = Ret self'
    ∧ ∀ now', now' < now + ttl (_user_states self) →
        (get_state self' now' k).1 = VStr state
        ∧ ∀ key dflt, key ≠ "state" →
            (read_field key dflt self' now' k).1
            = (read_field key dflt self now k).1.
Proof.
  intros Hsize. unfold update_state.
  destruct (put_after_get self now k
              (<["state" := VStr state]> (stored self now k)) Hsize)
    as (self' & Hput & Hread); [apply insert_non_empty|].
  rewrite <- get_or_empty_stored in Hput.
  destruct (get_or_empty self now k) as [d c]. simpl in *.
  exists self'. split; [done|]. intros now' Hlive. split.
  - unfold get_state. rewrite Hread by done.
    unfold dict_get. by rewrite lookup_insert_eq.
  - intros key dflt Hkey. rewrite Hread by done.
    rewrite read_field_stored. unfold dict_get.
    by rewrite lookup_insert_ne.
Qed.


Lemma update_state_keeps_fields_witness :
  ∃ self',
    update_state sample_store_page (Qc_of_Z 10) "hr_1" STATE_IDLE = Ret self'
    ∧ (get_state self' (Qc_of_Z 60) "hr_1").1 = VStr STATE_IDLE
    ∧ (get_query_offset self' (Qc_of_Z 60) "hr_1").1 = VInt 5.
Proof.
  destruct (update_state_keeps_fields sample_store_page (Qc_of_Z 10) "hr_1"
              STATE_IDLE) as (self' & Hupdate & Hread).
  { by vm_compute. }
  exists self'. split; [exact Hupdate|].
  assert (Hlive : Qc_of_Z 60
                  < Qc_of_Z 10 + ttl (_user_states sample_store_page))
    by by vm_compute.
  destruct (Hread _ Hlive) as [Hstate Hfields].
  split; [exact Hstate|].
  unfold get_query_offset. rewrite Hfields by done.
  vm_compute. reflexivity.
Defined.

Lemma ensure_state_get d key dflt :
  key ≠ "state" → dict_get (ensure_state d) key dflt = dict_get d key dflt.
Proof.
  intros Hkey. unfold ensure_state, dict_get.
  destruct (d !! "state"); [done|]. by rewrite lookup_insert_ne.
Qed.

Lemma ensure_state_state d :
  dict_get (ensure_state d) "state" (VStr STATE_IDLE)
  = dict_get d "state" (VStr STATE_IDLE).
Proof.
  unfold ensure_state, dict_get.
  destruct (d !! "state") eqn:Hd; simpl; by rewrite ?lookup_insert_eq, ?Hd.
Qed.

Lemma ensure_state_nonempty d : d ≠ ∅ → ensure_state d ≠ ∅.
Proof.
  intros Hd. unfold ensure_state.
  destruct (d !! "state"); [done | apply insert_non_empty].
Qed.

(** X18.  On a store of capacity at least one,
    [store_parsed_query_data] and [cache_results] store their value, keep
    the state as it read before the call (idle for a conversation not
    seen) and leave the other fields as they were, until the refreshed
    entry expires. *)
Theorem single_field_writers self now k :
  (1 ≤ maxsize (_user_states self))%Z →
  (∀ parsed_data, ∃ self',
     store_parsed_query_data self now k parsed_data = Ret self'
     ∧ ∀ now', now' < now + ttl (_user_states self) →
         (get_parsed_query_data self' now' k).1 = parsed_data
         ∧ (get_state self' now' k).1 = (get_state self now k).1
         ∧ ∀ key dflt, key ≠ "parsed_query_data" → key ≠ "state" →
             (read_field key dflt self' now' k).1
             = (read_field key dflt self now k).1)
  ∧ (∀ results, ∃ self',
       cache_results self now k results = Ret self'
       ∧ ∀ now', now' < now + ttl (_user_states self) →
           (get_last_results self' now' k).1 = opt_list results
           ∧ (get_state self' now' k).1 = (get_state self now k).1
           ∧ ∀ key dflt, key ≠ "last_results" → key ≠ "state" →
               (read_field key dflt self' now' k).1
               = (read_field key dflt self now k).1).
Proof.
  intros Hsize.
  assert (Hwrite : ∀ field v, field ≠ "state" → ∃ self',
    put (get_or_empty self now k).2 now k
        (ensure_state (<[field := v]> (get_or_empty self now k).1))
    = Ret self'
    ∧ ∀ now', now' < now + ttl (_user_states self) →
        (read_field field VNone self' now' k).1 = v
        ∧ (get_state self' now' k).1 = (get_state self now k).1
        ∧ ∀ key dflt, key ≠ field → key ≠ "state" →
            (read_field key dflt self' now' k).1
            = (read_field key dflt self now k).1).
  { intros field v Hfield.
    destruct (put_after_get self now k
                (ensure_state (<[field := v]> (stored self now k))) Hsize)
      as (self' & Hput & Hread);
      [apply ensure_state_nonempty, insert_non_empty|].
    exists self'. split; [exact Hput|]. intros now' Hlive.
    split; [|split].
    - rewrite Hread by done. rewrite ensure_state_get by done.
      unfold dict_get. by rewrite lookup_insert_eq.
    - unfold get_state. rewrite Hread by done.
      rewrite ensure_state_state, read_field_stored.
      unfold dict_get. by rewrite lookup_insert_ne.
    - intros key dflt Hkey Hstate. rewrite Hread by done.
      rewrite ensure_state_get by done. rewrite read_field_stored.
      unfold dict_get. by rewrite lookup_insert_ne. }
  split.
  - intros parsed_data. unfold store_parsed_query_data, get_parsed_query_data.
    destruct (Hwrite "parsed_query_data" parsed_data) as (self' & Hput & Hread);
      [done|].
    destruct (get_or_empty self now k) as [d c]. by exists self'.
  - intros results. unfold cache_results, get_last_results.
    destruct (Hwrite "last_results" (opt_list results))
      as (self' & Hput & Hread); [done|].
    destruct (get_or_empty self now k) as [d c]. by exists self'.
Qed.

Lemma single_field_writers_witness :
  ∃ self',
    store_parsed_query_data sample_store_page (Qc_of_Z 10) "hr_1" (VStr "q")
    = Ret self'
    ∧ (get_parsed_query_data self' (Qc_of_Z 60) "hr_1").1 = VStr "q"
    ∧ (get_state self' (Qc_of_Z 60) "hr_1").1
      = (get_state sample_store_page (Qc_of_Z 10) "hr_1").1.
Proof.
  assert (Hsize : (1 ≤ maxsize (_user_states sample_store_page))%Z)
    by by vm_compute.
  destruct (proj1 (single_field_writers sample_store_page (Qc_of_Z 10) "hr_1"
                     Hsize) (VStr "q")) as (self' & Hstore & Hread).
  exists self'. split; [exact Hstore|].
  assert (Hlive : Qc_of_Z 60
                  < Qc_of_Z 10 + ttl (_user_states sample_store_page))
    by by vm_compute.
  destruct (Hread _ Hlive) as (Hparsed & Hstate & _). by split.
Defined.


Lemma in_contact_flow_state d :
  dict_truthy d && in_contact_flow d = true →
  dict_get d "state" (VStr STATE_IDLE)
  = VStr STATE_CONTACT_CANDIDATE_DETAILS_FLOW.
Proof.
  intros [_ Hflow]%andb_true_iff. unfold in_contact_flow, dict_get in *.
  destruct (d !! "state") as [[| s | | |]|]; try done.
  by apply String.eqb_eq in Hflow as ->.
Qed.

(** X19.  For a conversation whose state is not the contact flow,
    [update_contact_flow_step_and_info] returns without changing what any
    getter reads, for any key and at any time. *)
Theorem contact_update_outside_flow self now k new_step info_key info_value :
  (get_state self now k).1 ≠ VStr STATE_CONTACT_CANDIDATE_DETAILS_FLOW →
  ∃ self',
    update_contact_flow_step_and_info self now k new_step info_key info_value
    = Ret self'
    ∧ ∀ k' key dflt now',
        (read_field key dflt self' now' k').1
        = (read_field key dflt self now' k').1.
Proof.
  intros Hstate. unfold update_contact_flow_step_and_info.
  assert (Hlinks : ∀ k',
    assoc_get k' (links (cache_get (_user_states self) now k).2)
    = assoc_get k' (links (_user_states self)))
    by (intros; apply cache_get_links).
  assert (Hflow : ∀ d, (cache_get (_user_states self) now k).1 = Some d →
            dict_truthy d && in_contact_flow d = false).
  { intros d Hd. destruct (dict_truthy d && in_contact_flow d) eqn:Hin; [|done].
    exfalso. apply Hstate. unfold get_state, read_field, _get_user_data.
    destruct (cache_get (_user_states self) now k) as [d0 c0].
    simpl in Hd. subst d0. simpl.
    pose proof (in_contact_flow_state d Hin) as Hd.
    apply andb_true_iff in Hin as [-> _]. exact Hd. }
  destruct (cache_get (_user_states self) now k) as [[d|] c]; simpl in *.
  - rewrite (Hflow d eq_refl). simpl. eexists. split; [done|].
    intros k' key dflt now'. by apply read_field_ext.
  - eexists. split; [done|].
    intros k' key dflt now'. by apply read_field_ext.
Qed.

Lemma contact_update_outside_flow_witness :
  ∃ self',
    update_contact_flow_step_and_info sample_store_page (Qc_of_Z 10) "hr_1"
      STEP_AWAITING_JOB_CONTENT (Some "work_location") (Some "Shanghai")
    = Ret self'
    ∧ ∀ k' key dflt now',
        (read_field key dflt self' now' k').1
        = (read_field key dflt sample_store_page now' k').1.
Proof.
  apply (contact_update_outside_flow sample_store_page (Qc_of_Z 10) "hr_1").
  by vm_compute.
Defined.

Lemma put_settings c now k d self' :
  put c now k d = Ret self' →
  maxsize (_user_states self') = maxsize c ∧ ttl (_user_states self') = ttl c.
Proof.
  unfold put, cache_setitem. case_bool_decide; [done|]. simpl.
  by intros [= <-].
Qed.

(** The value the cache returns for an entry that is live. *)
Lemma cache_get_entry c now k e :
  assoc_get k (links c) = Some e → now < expires e →
  ∃ c', cache_get c now k = (Some (value e), c')
        ∧ maxsize c' = maxsize c ∧ ttl c' = ttl c.
Proof.
  intros Hk Hlive. unfold cache_get, live. rewrite Hk.
  rewrite bool_decide_eq_true_2 by done. by eexists.
Qed.

(** X20.  On a store of capacity at least one, after
    [set_contact_flow_state] the state is the contact flow and
    [get_contact_flow_state] returns the data of the flow; a following
    [update_contact_flow_step_and_info] replaces the step, records the
    item under its key in the collected information and keeps the
    candidate and the sender. *)
Theorem contact_flow_round_trip self now k step candidate_external_userid
    candidate_name hr_sender_userid collected_info :
  (1 ≤ maxsize (_user_states self))%Z →
  let flow_data (step : string) (info : list (string * pyval)) :=
    VDict [ ("flow", VStr STATE_CONTACT_CANDIDATE_DETAILS_FLOW);
            ("step", VStr step);
            ("candidate_external_userid", VStr candidate_external_userid);
            ("candidate_name", VStr candidate_name);
            ("hr_sender_userid", VStr hr_sender_userid);
            ("collected_info", VDict info) ] in
  ∃ self1,
    set_contact_flow_state self now k step candidate_external_userid
      candidate_name hr_sender_userid collected_info = Ret self1
    ∧ ∀ now1, now1 < now + ttl (_user_states self) →
        (get_state self1 now1 k).1
        = VStr STATE_CONTACT_CANDIDATE_DETAILS_FLOW
        ∧ (get_contact_flow_state self1 now1 k).1
          = flow_data step (default [] collected_info)
        ∧ ∀ new_step info_key info_value, info_key ≠ "" →
            ∃ self2,
              update_contact_flow_step_and_info self1 now1 k new_step
                (Some info_key) (Some info_value) = Ret self2
              ∧ ∀ now2, now2 < now1 + ttl (_user_states self) →
                  (get_contact_flow_state self2 now2 k).1
                  = flow_data new_step
                      (assoc_set info_key (VStr info_value)
                                 (default [] collected_info)).
Proof.
  intros Hsize flow_data. unfold set_contact_flow_state.
  destruct (cache_get_settings (_user_states self) now k) as [Hmax0 Httl0].
  unfold get_or_empty.
  destruct (cache_get (_user_states self) now k) as [d0 c0]. simpl in *.
  set (d1 := <["contact_flow_data" :=
                 flow_data step (default [] collected_info)]>
               (<["state" := VStr STATE_CONTACT_CANDIDATE_DETAILS_FLOW]>
                  (default ∅ d0))).
  destruct (put_entry c0 now k d1) as (self1 & Hput1 & _ & Hentry1); [lia|].
  destruct (put_settings _ _ _ _ _ Hput1) as [Hmax1 Httl1].
  exists self1. split; [exact Hput1|]. intros now1 Hlive1.
  assert (Hd1 : d1 ≠ ∅) by apply insert_non_empty.
  assert (Hstate1 : d1 !! "state"
                    = Some (VStr STATE_CONTACT_CANDIDATE_DETAILS_FLOW)).
  { unfold d1. rewrite lookup_insert_ne by done. apply lookup_insert_eq. }
  assert (Hflow1 : d1 !! "contact_flow_data"
                   = Some (flow_data step (default [] collected_info)))
    by apply lookup_insert_eq.
  assert (Hin1 : dict_truthy d1 && in_contact_flow d1 = true).
  { unfold dict_truthy, in_contact_flow. rewrite Hstate1.
    by rewrite bool_decide_eq_false_2. }
  destruct (cache_get_entry (_user_states self1) now1 k _ Hentry1)
    as (c1 & Hget1 & Hmax & Httl); [simpl; by rewrite Httl0|].
  simpl in Hget1.
  split; [|split].
  - unfold get_state.
    rewrite (read_field_written _ _ _ _ _ _ Hentry1); simpl;
      [|by rewrite Httl0|done].
    unfold dict_get. by rewrite Hstate1.
  - unfold get_contact_flow_state, _get_user_data. rewrite Hget1. simpl.
    rewrite Hin1. unfold dict_get. by rewrite Hflow1.
  - intros new_step info_key info_value Hkey.
    unfold update_contact_flow_step_and_info. rewrite Hget1, Hin1.
    cbn [negb]. unfold dict_get at 1. rewrite Hflow1.
    cbn [default from_option id flow_data set_item bind assoc_set String.eqb
         Ascii.eqb Bool.eqb].
    destruct (String.eqb_spec info_key "") as [|_]; [done|].
    cbn [assoc_get String.eqb Ascii.eqb Bool.eqb bind set_item default
         from_option id assoc_set].
    set (d2 := <["contact_flow_data" := _]> d1).
    destruct (put_entry c1 now1 k d2) as (self2 & Hput2 & _ & Hentry2);
      [lia|].
    exists self2. split; [exact Hput2|]. intros now2 Hlive2.
    destruct (cache_get_entry (_user_states self2) now2 k _ Hentry2)
      as (c2 & Hget2 & _); [simpl; by rewrite Httl, Httl1, Httl0|].
    simpl in Hget2.
    unfold get_contact_flow_state, _get_user_data. rewrite Hget2. simpl.
    assert (Hin2 : dict_truthy d2 && in_contact_flow d2 = true).
    { unfold dict_truthy, in_contact_flow, d2.
      rewrite lookup_insert_ne by done. rewrite Hstate1.
      rewrite bool_decide_eq_false_2 by apply insert_non_empty. done. }
    rewrite Hin2. unfold dict_get, d2. by rewrite lookup_insert_eq.
Qed.


Lemma contact_flow_round_trip_witness :
  ∃ self1,
    set_contact_flow_state (__init__ None None) 0 "hr_1"
      STEP_AWAITING_WORK_LOCATION "wm_42" "Li" "hr_1" None = Ret self1
    ∧ (get_state self1 (Qc_of_Z 60) "hr_1").1
      = VStr STATE_CONTACT_CANDIDATE_DETAILS_FLOW
    ∧ ∃ self2,
        update_contact_flow_step_and_info self1 (Qc_of_Z 60) "hr_1"
          STEP_AWAITING_JOB_CONTENT (Some "work_location") (Some "Shanghai")
        = Ret self2
        ∧ (get_contact_flow_state self2 (Qc_of_Z 200) "hr_1").1
          = VDict [ ("flow", VStr STATE_CONTACT_CANDIDATE_DETAILS_FLOW);
                    ("step", VStr STEP_AWAITING_JOB_CONTENT);
                    ("candidate_external_userid", VStr "wm_42");
                    ("candidate_name", VStr "Li");
                    ("hr_sender_userid", VStr "hr_1");
                    ("collected_info",
                      VDict [("work_location", VStr "Shanghai")]) ].
Proof.
  assert (Hsize : (1 ≤ maxsize (_user_states (__init__ None None)))%Z)
    by by vm_compute.
  destruct (contact_flow_round_trip (__init__ None None) 0 "hr_1"
              STEP_AWAITING_WORK_LOCATION "wm_42" "Li" "hr_1" None Hsize)
    as (self1 & Hset & Hread).
  exists self1. split; [exact Hset|].
  assert (Hlive1 : Qc_of_Z 60 < 0 + ttl (_user_states (__init__ None None)))
    by by vm_compute.
  destruct (Hread _ Hlive1) as (Hstate & _ & Hupdate).
  split; [exact Hstate|].
  destruct (Hupdate STEP_AWAITING_JOB_CONTENT "work_location" "Shanghai")
    as (self2 & Hstep & Hflow); [done|].
  exists self2. split; [exact Hstep|].
  apply Hflow. by vm_compute.
Defined.


Lemma assoc_get_absent k (l : list (string * Entry))
    (P : string * Entry → Prop) `{∀ x, Decision (P x)} :
  k ∉ l.*1 → assoc_get k (filter P l) = None.
Proof.
  induction l as [|[k0 e] l IH]; simpl; [done|].
  intros Hk. apply not_elem_of_cons in Hk as [Hne Hk].
  rewrite filter_cons. case_decide; simpl; [|auto].
  destruct (String.eqb_spec k k0); [done | auto].
Qed.

(** Dropping the entries expired at [now] changes no later read, when
    a key has at most one entry. *)
Lemma expired_dropped l now now' k :
  NoDup l.*1 → now ≤ now' →
  match assoc_get k (filter (λ kv, live now kv.2) l) with
  | Some e => if live now' e then Some (value e) else None
  | None => None
  end
  = match assoc_get k l with
    | Some e => if live now' e then Some (value e) else None
    | None => None
    end.
Proof.
  intros Hnodup Hlater.
  induction l as [|[k0 e] l IH]; simpl; [done|].
  rewrite fmap_cons in Hnodup.
  pose proof (NoDup_cons_1_1 _ _ Hnodup) as Hk0.
  apply NoDup_cons_1_2 in Hnodup. simpl in Hk0.
  rewrite filter_cons. simpl. case_decide as Hlive; simpl.
  - destruct (String.eqb_spec k k0); [done | auto].
  - destruct (String.eqb_spec k k0) as [->|_]; [|auto].
    rewrite assoc_get_absent by done.
    apply Is_true_false in Hlive. unfold live in *.
    apply bool_decide_eq_false in Hlive.
    rewrite bool_decide_eq_false_2; [done|].
    intros Hlt. apply Hlive. by eapply Qcle_lt_trans.
Qed.

Lemma remove_key_keys k l : (remove_key k l).*1 `sublist_of` l.*1.
Proof. unfold remove_key. apply fmap_sublist, sublist_filter. Qed.

Lemma move_to_end_keys k l : NoDup l.*1 → NoDup (move_to_end k l).*1.
Proof.
  intros Hnodup. unfold move_to_end.
  destruct (assoc_get k l) as [e|]; [|done].
  rewrite fmap_app. apply list.NoDup_app. split; [|split].
  - exact (sublist_NoDup _ _ Hnodup (remove_key_keys k l)).
  - intros k0 Hin Hk0. simpl in Hk0.
    apply list_elem_of_singleton in Hk0 as ->.
    apply list_elem_of_fmap in Hin as ([k1 e1] & Heq & Hin).
    simpl in Heq. subst k1.
    unfold remove_key in Hin. by apply list_elem_of_filter in Hin as [Hne _].
  - apply NoDup_singleton.
Qed.

Lemma move_to_end_length k l : (length (move_to_end k l) ≤ length l)%nat.
Proof.
  unfold move_to_end. destruct (assoc_get k l) as [e|] eqn:Hk; [|done].
  rewrite length_app. simpl. unfold remove_key.
  pose proof (length_filter_lt (λ kv : string * Entry, kv.1 ≠ k) l (k, e)
                (assoc_get_elem _ _ _ Hk) (λ Hne, Hne eq_refl)) as Hlt.
  simpl in Hlt. lia.
Qed.

Lemma cache_get_invariant c now k :
  NoDup (links c).*1 →
  NoDup (links (cache_get c now k).2).*1
  ∧ (length (links (cache_get c now k).2) ≤ length (links c))%nat.
Proof.
  intros Hnodup. unfold cache_get.
  destruct (assoc_get k (links c)) as [e|]; [|done].
  destruct (live now e); [|done]. simpl.
  split; [by apply move_to_end_keys | apply move_to_end_length].
Qed.

Lemma put_other c now k d self' k' :
  put c now k d = Ret self' → k' ≠ k →
  (Z.of_nat (length (links c)) < maxsize c)%Z →
  assoc_get k' (links (_user_states self'))
  = assoc_get k' (filter (λ kv, live now kv.2) (links c)).
Proof.
  unfold put, cache_setitem. case_bool_decide; [done|]. simpl.
  intros [= <-] Hne Hroom. simpl.
  rewrite assoc_get_app, assoc_get_remove_other by done.
  assert (Hdrop :
    match assoc_get k (filter (λ kv, live now kv.2) (links c)) with
    | Some _ => filter (λ kv, live now kv.2) (links c)
    | None =>
        drop (Z.to_nat
                (Z.of_nat (length (filter (λ kv, live now kv.2) (links c)))
                 + 1 - maxsize c))
             (filter (λ kv, live now kv.2) (links c))
    end = filter (λ kv, live now kv.2) (links c)).
  { destruct (assoc_get k _); [done|].
    pose proof (length_filter (λ kv : string * Entry, live now kv.2)
                  (links c)) as Hlen.
    replace (Z.to_nat _) with 0%nat by lia. done. }
  rewrite Hdrop.
  destruct (assoc_get k' _); [done|]. simpl.
  by destruct (String.eqb_spec k' k).
Qed.

(** X21.  What the getters read for one key is not changed by
    [clear_state] on another key, nor, from the time of the call on, by
    [update_state_and_cache_results] on another key when the store has
    room left and holds at most one entry per key. *)
Theorem other_conversations_untouched self now k k' :
  k' ≠ k →
  (∀ key dflt now',
     (read_field key dflt (clear_state self now k) now' k').1
     = (read_field key dflt self now' k').1)
  ∧ (NoDup (links (_user_states self)).*1 →
     (Z.of_nat (length (links (_user_states self)))
      < maxsize (_user_states self))%Z →
     ∀ state results qc pqd offset hm, ∃ self',
       update_state_and_cache_results self now k state results qc pqd
                                      offset hm = Ret self'
       ∧ ∀ key dflt now', now ≤ now' →
           (read_field key dflt self' now' k').1
           = (read_field key dflt self now' k').1).
Proof.
  intros Hne. split.
  - intros key dflt now'. apply read_field_ext. unfold clear_state.
    destruct (cache_contains _ _ _); [|done]. simpl.
    by apply assoc_get_remove_other.
  - intros Hnodup Hroom state results qc pqd offset hm.
    unfold update_state_and_cache_results, get_or_empty.
    destruct (cache_get_settings (_user_states self) now k) as [Hmax Httl].
    destruct (cache_get_invariant (_user_states self) now k Hnodup)
      as [Hnodup0 Hlen0].
    pose proof (cache_get_links (_user_states self) now k k') as Hlinks.
    destruct (cache_get (_user_states self) now k) as [d0 c0]. simpl in *.
    destruct (put_entry c0 now k
                (merge_update (default ∅ d0) state results qc pqd offset hm))
      as (self' & Hput & _ & _); [lia|].
    exists self'. split; [exact Hput|]. intros key dflt now' Hlater.
    rewrite !read_field_stored. f_equal.
    unfold stored, get_or_empty, cache_get.
    rewrite (put_other _ _ _ _ _ _ Hput Hne) by lia.
    pose proof (expired_dropped (links c0) now now' k' Hnodup0 Hlater) as Hdrop.
    rewrite Hlinks in Hdrop.
    destruct (assoc_get k' (filter _ (links c0))) as [e1|],
             (assoc_get k' (links (_user_states self))) as [e2|];
      try destruct (live now' e1); try destruct (live now' e2);
      simpl in *; congruence.
Qed.


Lemma other_conversations_untouched_witness :
  ∃ self',
    update_state_and_cache_results sample_store_page (Qc_of_Z 10) "hr_2"
      STATE_WAITING_SELECTION (Some sample_page) None None None None
    = Ret self'
    ∧ (get_query_offset self' (Qc_of_Z 60) "hr_1").1 = VInt 5.
Proof.
  assert (Hne : "hr_1" ≠ "hr_2") by done.
  assert (Hkeys : NoDup (links (_user_states sample_store_page)).*1)
    by (vm_compute; apply NoDup_singleton).
  assert (Hroom : (Z.of_nat (length (links (_user_states sample_store_page)))
                   < maxsize (_user_states sample_store_page))%Z)
    by by vm_compute.
  destruct (proj2 (other_conversations_untouched sample_store_page
                     (Qc_of_Z 10) "hr_2" "hr_1" Hne) Hkeys Hroom
              STATE_WAITING_SELECTION (Some sample_page) None None None None)
    as (self' & Hupdate & Hread).
  exists self'. split; [exact Hupdate|].
  unfold get_query_offset. rewrite Hread by by vm_compute.
  vm_compute. reflexivity.
Defined.

End StateStoreMore.

(** ** Ranking pipeline *)

Section PipelineMore.
Import ScoringUtils StateStore QueryHandler Statements.
Local Open Scope Z_scope.

Lemma insert_desc_filter {A} (key : A → Qc) (q : Qc) x l :
  Sorted (λ a b, key b ≤ key a)%Qc l →
  filter (λ c, key c = q) (insert_desc key x l)
  = filter (λ c, key c = q) (x :: l).
Proof.
  induction 1 as [|y l Hs IH Hhd]; simpl; [done|].
  case_bool_decide as Hle; [done|].
  rewrite !filter_cons. rewrite IH. rewrite !filter_cons.
  apply Qcnot_le_lt in Hle.
  destruct (decide (key y = q)) as [Hy|Hy], (decide (key x = q)) as [Hx|Hx];
    try done.
  exfalso. rewrite Hy, Hx in Hle. by apply Qclt_not_eq in Hle.
Qed.

Lemma sorted_desc_filter {A} (key : A → Qc) (q : Qc) l :
  filter (λ c, key c = q) (sorted_desc key l) = filter (λ c, key c = q) l.
Proof.
  induction l as [|x l IH]; simpl; [done|].
  rewrite insert_desc_filter by apply sorted_desc_sorted.
  by rewrite !filter_cons, IH.
Qed.

(** X22.  With scoring rules, the list handed to pagination is a
    permutation of the pool (no candidate is lost or repeated), in
    descending order of total score, and candidates of equal score keep
    the order in which the store returned them. *)
Theorem ranking_is_stable_sort `{Builtins} (cfg : ScoringRules)
    (parsed : pyval) (pool : list Candidate) :
  let ranked := scored_and_sorted_candidates (Some cfg) parsed pool in
  let score :=
    sort_key (score_pool (default [] (dimensions cfg)) parsed pool) in
  ranked ≡ₚ pool
  ∧ Sorted (λ a b, score b ≤ score a)%Qc ranked
  ∧ ∀ q, filter (λ c, score c = q) ranked = filter (λ c, score c = q) pool.
Proof.
  intros ranked score. subst ranked. unfold scored_and_sorted_candidates.
  destruct pool as [|c pool].
  - split; [done|]. split; [constructor | done].
  - split; [apply sorted_desc_perm|].
    split; [apply sorted_desc_sorted | intros q; apply sorted_desc_filter].
Qed.


Lemma py_slice_beyond {A} (l : list A) offset :
  Z.of_nat (length l) ≤ offset →
  py_slice l offset (offset + display_limit) = [].
Proof.
  intros Hout. rewrite py_slice_page by lia.
  rewrite drop_ge by lia. done.
Qed.

(** A call whose offset lies at or beyond the end of the list: nothing
    is sent and the store is left alone, unless the offset is 0. *)
Lemma fetch_beyond_end `{Builtins} `{Collaborators} config msg query offset
    parsed now w pool :
  let rules := get_scoring_rules config in
  find_candidates query (fetch_limit rules) (fetch_offset rules offset)
  = Ret pool →
  Z.of_nat (length pool) ≤ offset →
  _fetch_and_send_candidates config msg query offset parsed now w
  = if bool_decide (offset = 0) then
      let '(key, receiver, at_user) := context_of msg in
      let w' := send w {| text := NotFoundText; user_ids := [receiver];
                          tag_ids := tags_of at_user |} in
      (Ret false, with_store w' (clear_state (store w') now key))
    else (Ret false, w).
Proof.
  intros rules Hfind Hshort. unfold _fetch_and_send_candidates.
  destruct (context_of msg) as [[key receiver] at_user]. simpl.
  fold rules. rewrite Hfind.
  by rewrite py_slice_beyond by (rewrite ranked_length; lia).
Qed.

(** X23.  When the store raises, one error message is sent, the state
    of the conversation is cleared and the call returns [False].  When
    the offset lies at or beyond the end of the fetched pool, the call
    returns [False]: at offset 0 after one "not found" message and with
    the state cleared, at any other offset without sending anything or
    touching the store. *)
Theorem nothing_to_show `{Builtins} `{Collaborators} (config : AppConfig)
    (msg : WxMsg) (query : pyval) (offset : Z) (parsed : pyval) (now : Qc)
    (w : World) :
  let rules := get_scoring_rules config in
  let key := (context_of msg).1.1 in
  let receiver := (context_of msg).1.2 in
  let found :=
    find_candidates query (fetch_limit rules) (fetch_offset rules offset) in
  let outcome :=
    _fetch_and_send_candidates config msg query offset parsed now w in
  (∀ e, found = Raise e →
     ∃ w', outcome = (Ret false, w')
           ∧ outbox w'
             = app (outbox w) [ {| text := DbErrorText;
                                   user_ids := [receiver];
                                   tag_ids := None |} ]
           ∧ ∀ now', (now ≤ now')%Qc → reads_as_idle (store w') now' key)
  ∧ (∀ pool, found = Ret pool → Z.of_nat (length pool) ≤ offset →
       (offset = 0 →
        ∃ w' m, outcome = (Ret false, w')
                ∧ outbox w' = app (outbox w) [m]
                ∧ text m = NotFoundText ∧ user_ids m = [receiver]
                ∧ ∀ now', (now ≤ now')%Qc → reads_as_idle (store w') now' key)
       ∧ (offset ≠ 0 → outcome = (Ret false, w))).
Proof.
  intros rules key receiver found outcome.
  subst outcome found key receiver. split.
  - unfold _fetch_and_send_candidates.
    destruct (context_of msg) as [[key receiver] at_user]. simpl.
    fold rules. intros e ->. eexists. split; [done|]. split; [done|].
    intros now' Hlater. simpl.
    by apply reads_as_idle_dead, clear_state_gone.
  - intros pool Hfind Hshort.
    rewrite (fetch_beyond_end _ _ _ _ _ _ _ _ Hfind Hshort).
    destruct (context_of msg) as [[key receiver] at_user]. simpl.
    split.
    + intros ->. rewrite bool_decide_eq_true_2 by done.
      eexists _, _. split; [done|]. split; [done|]. split; [done|].
      split; [done|].
      intros now' Hlater. simpl.
      by apply reads_as_idle_dead, clear_state_gone.
    + intros Hoff. by rewrite bool_decide_eq_false_2.
Qed.

Lemma nothing_to_show_witness :
  @_fetch_and_send_candidates sample_builtins sample_collaborators
    sample_config sample_msg (VDict []) 15 sample_parsed 0%Qc sample_world
  = (Ret false, sample_world).
Proof.
  refine (proj2 (proj2 (@nothing_to_show sample_builtins sample_collaborators
                          sample_config sample_msg (VDict []) 15 sample_parsed
                          0%Qc sample_world)
                   sample_pool _ _) _).
  - vm_compute. reflexivity.
  - by vm_compute.
  - done.
Defined.

(** X24.  Without scoring rules the offset is applied twice, in the
    store's query and in the slice of its answer: when the store honours
    the limit, a call at an offset of at least the page size shows
    nothing and changes nothing, and the first page, when its result
    message can be built, commits [has_more = False]. *)
Theorem unscored_pages_stop `{Builtins} `{Collaborators} (config : AppConfig)
    (msg : WxMsg) (query : pyval) (offset : Z) (parsed : pyval) (now : Qc)
    (w : World) (pool : list Candidate) :
  get_scoring_rules config = None →
  find_candidates query display_limit offset = Ret pool →
  Z.of_nat (length pool) ≤ display_limit →
  (display_limit ≤ offset →
   _fetch_and_send_candidates config msg query offset parsed now w
   = (Ret false, w))
  ∧ (offset = 0 → pool ≠ [] → 1 ≤ maxsize (_user_states (store w)) →
     formats parsed None pool = true →
     commits_page config msg query 0 parsed now w pool display_limit false).
Proof.
  intros Hrules Hfind Hlimit. split.
  - intros Hoff.
    pose proof (fetch_beyond_end config msg query offset parsed now w pool)
      as Hempty.
    rewrite Hrules in Hempty. simpl in Hempty.
    rewrite Hempty by (done || lia).
    rewrite bool_decide_eq_false_2; [done|].
    unfold display_limit in Hoff. lia.
  - intros -> Hpool Hsize Hshow.
    assert (Hpage : py_slice pool 0 (0 + display_limit) = pool).
    { rewrite py_slice_page by done. simpl.
      apply take_ge. unfold display_limit in Hlimit. lia. }
    pose proof (fetch_commits config msg query 0 parsed now w pool) as Hc.
    rewrite Hrules in Hc.
    cbn [fetch_offset fetch_limit shown_pool_size
         scored_and_sorted_candidates] in Hc.
    rewrite Hpage in Hc. specialize (Hc Hfind Hpool Hsize).
    apply formats_true in Hshow as [message Hmessage].
    rewrite Hmessage in Hc.
    rewrite bool_decide_eq_false_2 in Hc by lia. exact Hc.
Qed.

Lemma unscored_pages_stop_witness :
  @_fetch_and_send_candidates sample_builtins sample_collaborators
    unscored_config sample_msg (VDict []) 5 sample_parsed 0%Qc sample_world
  = (Ret false, sample_world)
  ∧ @commits_page sample_builtins sample_collaborators unscored_config
      sample_msg (VDict []) 0 sample_parsed 0%Qc sample_world
      (sample_candidate <$> [4; 9; 1; 12; 7]) display_limit false.
Proof.
  split.
  - refine (proj1 (@unscored_pages_stop sample_builtins sample_collaborators
                     unscored_config sample_msg (VDict []) 5 sample_parsed
                     0%Qc sample_world (sample_candidate <$> [2; 10; 5; 3; 11])
                     eq_refl _ _) _).
    + vm_compute. reflexivity.
    + by vm_compute.
    + by vm_compute.
  - refine (proj2 (@unscored_pages_stop sample_builtins sample_collaborators
                     unscored_config sample_msg (VDict []) 0 sample_parsed
                     0%Qc sample_world (sample_candidate <$> [4; 9; 1; 12; 7])
                     eq_refl _ _) eq_refl _ _ _).
    + vm_compute. reflexivity.
    + by vm_compute.
    + done.
    + by vm_compute.
    + vm_compute. reflexivity.
Defined.

End PipelineMore.

(** ** The replies "A" and "B" *)

Section RepliesFacts.
Import ScoringUtils StateStore QueryHandler SelectionHandler Statements Notions.
Local Open Scope Z_scope.

Lemma same_entries_refl s : same_entries s s.
Proof. by repeat split. Qed.

Lemma same_entries_trans s1 s2 s3 :
  same_entries s1 s2 → same_entries s2 s3 → same_entries s1 s3.
Proof.
  intros (Hm1 & Ht1 & Hl1) (Hm2 & Ht2 & Hl2).
  repeat split; [congruence | congruence |].
  intros k. by rewrite Hl1.
Qed.

Lemma read_field_same key dflt self now k :
  same_entries (read_field key dflt self now k).2 self.
Proof.
  unfold read_field, _get_user_data.
  destruct (cache_get_settings (_user_states self) now k) as [Hmax Httl].
  pose proof (cache_get_links (_user_states self) now k) as Hlinks.
  destruct (cache_get (_user_states self) now k) as [d c]. simpl in *.
  by repeat split.
Qed.

Lemma same_entries_read key dflt s1 s2 now k :
  same_entries s1 s2 →
  (read_field key dflt s1 now k).1 = (read_field key dflt s2 now k).1.
Proof. intros (_ & _ & Hlinks). by apply read_field_ext. Qed.

(** The four reads with which the reply "A" begins. *)
Lemma more_results_reads self now key :
  ∃ s,
    (let '(query_criteria, s1) := get_query_criteria self now key in
     let '(next_offset, s2) := get_query_offset s1 now key in
     let '(parsed_query_data, s3) := get_parsed_query_data s2 now key in
     let '(has_more, s4) := get_has_more s3 now key in
     (query_criteria, next_offset, parsed_query_data, has_more, s4))
    = ((get_query_criteria self now key).1,
       (get_query_offset self now key).1,
       (get_parsed_query_data self now key).1,
       (get_has_more self now key).1, s)
    ∧ same_entries s self.
Proof.
  unfold get_query_criteria, get_query_offset, get_parsed_query_data,
    get_has_more.
  pose proof (read_field_same "query_criteria" VNone self now key) as H1.
  destruct (read_field "query_criteria" VNone self now key) as [v1 s1].
  pose proof (read_field_same "query_offset" (VInt 0) s1 now key) as H2.
  pose proof (same_entries_read "query_offset" (VInt 0) s1 self now key H1)
    as R2.
  destruct (read_field "query_offset" (VInt 0) s1 now key) as [v2 s2].
  pose proof (same_entries_trans _ _ _ H2 H1) as H12.
  pose proof (read_field_same "parsed_query_data" VNone s2 now key) as H3.
  pose proof (same_entries_read "parsed_query_data" VNone s2 self now key H12)
    as R3.
  destruct (read_field "parsed_query_data" VNone s2 now key) as [v3 s3].
  pose proof (same_entries_trans _ _ _ H3 H12) as H123.
  pose proof (read_field_same "has_more" (VBool false) s3 now key) as H4.
  pose proof (same_entries_read "has_more" (VBool false) s3 self now key H123)
    as R4.
  destruct (read_field "has_more" (VBool false) s3 now key) as [v4 s4].
  simpl in *. exists s4. split; [by rewrite R2, R3, R4|].
  by eapply same_entries_trans.
Qed.

(** X25.  The reply "A" ends the conversation with one notice and a
    cleared state, without a search, when the cached query or the cached
    parsed query is missing or empty, and when both are there but no
    further results are announced. *)
Theorem more_results_stops `{Builtins} `{Collaborators} (config : AppConfig)
    (msg : WxMsg) (now : Qc) (cv : Conversation) :
  let key := (context_of msg).1.1 in
  let receiver := (context_of msg).1.2 in
  let at_user := (context_of msg).2 in
  let read (getter : StateManager → Qc → string → pyval * StateManager) :=
    (getter (state_manager cv) now key).1 in
  let stops_with (text : notice) :=
    ∃ cv', _handle_more_results config msg now cv = Some (Ret cv')
           ∧ sent cv' = app (sent cv)
                            [Notice text [receiver] (tags_of at_user)]
           ∧ ∀ now', (now ≤ now')%Qc →
               reads_as_idle (state_manager cv') now' key in
  (truthy (read get_query_criteria) = false
   ∨ truthy (read get_parsed_query_data) = false →
   stops_with MissingQueryText)
  ∧ (truthy (read get_query_criteria) = true →
     truthy (read get_parsed_query_data) = true →
     truthy (read get_has_more) = false →
     stops_with NoMoreText).
Proof.
  intros key receiver at_user read stops_with.
  subst stops_with read key receiver at_user.
  unfold _handle_more_results.
  destruct (context_of msg) as [[key receiver] at_user]. simpl.
  destruct (more_results_reads (state_manager cv) now key) as (s & Hreads & Hs).
  destruct (get_query_criteria (state_manager cv) now key) as [v1 s1].
  destruct (get_query_offset s1 now key) as [v2 s2].
  destruct (get_parsed_query_data s2 now key) as [v3 s3].
  destruct (get_has_more s3 now key) as [v4 s4].
  cbn [fst] in Hreads |- *. injection Hreads as -> -> -> ->.
  split.
  - intros Hmissing.
    assert (Hcond :
      negb (truthy v1)
      || negb (truthy (get_parsed_query_data (state_manager cv) now key).1)
      = true).
    { destruct Hmissing as [-> | ->]; [done | apply orb_true_r]. }
    rewrite Hcond. eexists. split; [done|]. split; [done|].
    intros now' Hlater. simpl. by apply reads_as_idle_dead, clear_state_gone.
  - intros -> -> ->. simpl. eexists. split; [done|]. split; [done|].
    intros now' Hlater. simpl. by apply reads_as_idle_dead, clear_state_gone.
Qed.


Lemma more_results_stops_witness :
  ∃ cv',
    @_handle_more_results sample_builtins sample_collaborators sample_config
      sample_msg 0%Qc {| state_manager := __init__ None None; sent := [] |}
    = Some (Ret cv')
    ∧ sent cv' = [Notice MissingQueryText ["hr_1"] None].
Proof.
  destruct (proj1 (@more_results_stops sample_builtins sample_collaborators
                     sample_config sample_msg 0%Qc
                     {| state_manager := __init__ None None; sent := [] |})
              (or_introl eq_refl)) as (cv' & Hreply & Hsent & _).
  exists cv'. by split.
Defined.

Lemma merge_update_query ud state results query pqd offset hm :
  dict_get (merge_update ud state results (Some query) pqd offset hm)
           "query_criteria" VNone = query.
Proof.
  unfold merge_update, dict_get. cbn [opt_val default from_option id].
  destruct hm; rewrite lookup_insert_ne by done;
    destruct offset; rewrite ?lookup_insert_ne by done;
    repeat match goal with
           | |- context [if ?b then _ else _] => destruct b
           end;
    rewrite ?lookup_insert_ne by done; by rewrite lookup_insert_eq.
Qed.

Lemma merge_update_parsed ud state results qc parsed offset hm :
  is_none parsed = false →
  dict_get (merge_update ud state results qc (Some parsed) offset hm)
           "parsed_query_data" VNone = parsed.
Proof.
  intros Hparsed. unfold merge_update, dict_get.
  cbn [opt_val default from_option id]. rewrite Hparsed. cbn [negb].
  destruct hm; rewrite lookup_insert_ne by done;
    destruct offset; rewrite ?lookup_insert_ne by done;
    repeat match goal with
           | |- context [if ?b then _ else _] => destruct b
           end;
    rewrite ?lookup_insert_ne by done; by rewrite lookup_insert_eq.
Qed.

(** The state a call commits with its page. *)
Lemma fetch_commits_state `{Builtins} `{Collaborators} config msg query offset
    parsed now w pool message :
  let rules := get_scoring_rules config in
  let ranked := scored_and_sorted_candidates rules parsed pool in
  let page := py_slice ranked offset (offset + display_limit) in
  find_candidates query (fetch_limit rules) (fetch_offset rules offset)
  = Ret pool →
  page ≠ [] →
  1 ≤ maxsize (_user_states (store w)) →
  _format_results_message page (summary_for parsed page)
    (shown_pool_size rules pool) = Ret message →
  ∃ w' m,
    _fetch_and_send_candidates config msg query offset parsed now w
    = (Ret true, w')
    ∧ outbox w' = app (outbox w) [m]
    ∧ text m = message
    ∧ update_state_and_cache_results (store w) now (context_of msg).1.1
        STATE_WAITING_SELECTION (Some (imap cached_result page))
        (Some query) (Some parsed) (Some (offset + display_limit))
        (Some (bool_decide
                 (offset + display_limit < Z.of_nat (length ranked))))
      = Ret (store w').
Proof.
  intros rules ranked page Hfind Hpage Hsize Hformat.
  pose proof (fetch_page config msg query offset parsed now w pool
                Hfind Hpage) as Hcall.
  fold rules ranked page in Hcall. rewrite Hformat in Hcall.
  destruct (read_after_update (store w) now (context_of msg).1.1
              STATE_WAITING_SELECTION
              (Some (imap cached_result page)) (Some query)
              (Some parsed) (Some (offset + display_limit))
              (Some (bool_decide
                       (offset + display_limit < Z.of_nat (length ranked))))
              Hsize) as (s' & Hup & _).
  rewrite Hup in Hcall |- *. cbn zeta in Hcall.
  by eexists _, _.
Qed.

(** X26.  With scoring rules and a store of capacity at least one, for
    a pool whose pages at the offset and after it can be shown: after
    the page committed at an offset with further candidates in the pool,
    the reply "A", given before the entry expires, sends exactly the
    result message of the next five-candidate slice of the same ranking
    and commits the offset advanced by the page size, with [has_more]
    telling whether the pool reaches beyond it. *)
Theorem more_results_next_page `{Builtins} `{Collaborators}
    (config : AppConfig) (cfg : ScoringRules) (msg : WxMsg)
    (query parsed : pyval) (pool : list Candidate) (offset : Z) (now : Qc)
    (w : World) :
  get_scoring_rules config = Some cfg →
  find_candidates query (fetch_limit (Some cfg)) 0 = Ret pool →
  truthy query = true → truthy parsed = true →
  0 ≤ offset → offset + display_limit < Z.of_nat (length pool) →
  1 ≤ maxsize (_user_states (store w)) →
  let ranked := scored_and_sorted_candidates (Some cfg) parsed pool in
  let size := Some (Z.of_nat (length pool)) in
  let page := py_slice ranked offset (offset + display_limit) in
  let next_page :=
    py_slice ranked (offset + display_limit)
             (offset + display_limit + display_limit) in
  formats parsed size page = true →
  formats parsed size next_page = true →
  let key := (context_of msg).1.1 in
  let life := ttl (_user_states (store w)) in
  ∃ w1,
    _fetch_and_send_candidates config msg query offset parsed now w
    = (Ret true, w1)
    ∧ ∀ now1 sent0, (now1 < now + life)%Qc →
        ∃ cv' m,
          _handle_more_results config msg now1
            {| state_manager := store w1; sent := sent0 |} = Some (Ret cv')
          ∧ sent cv' = app sent0 [Page m]
          ∧ _format_results_message next_page
              (summary_for parsed next_page) size
            = Ret (text m)
          ∧ ∀ now2, (now2 < now1 + life)%Qc →
              (get_query_offset (state_manager cv') now2 key).1
              = VInt (offset + display_limit + display_limit)
              ∧ (get_has_more (state_manager cv') now2 key).1
                = VBool (bool_decide
                           (offset + display_limit + display_limit
                            < Z.of_nat (length pool))).
Proof.
  intros Hrules Hfind Hquery Hparsed Hoff Hmore Hsize ranked size page
    next_page Hshow1 Hshow2 key life.
  apply formats_true in Hshow1 as [message1 Hmessage1].
  apply formats_true in Hshow2 as [message2 Hmessage2].
  assert (Hlen : length ranked = length pool) by apply ranked_length.
  assert (Hnonempty : ∀ o, 0 ≤ o → o < Z.of_nat (length pool) →
            py_slice ranked o (o + display_limit) ≠ []).
  { intros o Ho Hin. rewrite py_slice_page by done.
    destruct (drop (Z.to_nat o) ranked) as [|c rest] eqn:Hdrop; [|done].
    exfalso. apply (f_equal length) in Hdrop.
    rewrite length_drop, Hlen in Hdrop. simpl in Hdrop. lia. }
  pose proof (fetch_commits_state config msg query offset parsed now w pool
                message1) as Hfirst.
  rewrite Hrules in Hfirst. cbn [fetch_offset shown_pool_size] in Hfirst.
  destruct (Hfirst Hfind
              (Hnonempty offset Hoff ltac:(unfold display_limit in *; lia))
              Hsize Hmessage1)
    as (w1 & m1 & Hcall1 & _ & _ & Hstate1).
  exists w1. split; [exact Hcall1|].
  intros now1 sent0 Hlive1.
  (* what the reply reads *)
  destruct (read_after_update (store w) now (context_of msg).1.1
              STATE_WAITING_SELECTION
              (Some (imap cached_result
                       (py_slice ranked offset (offset + display_limit))))
              (Some query) (Some parsed) (Some (offset + display_limit))
              (Some (bool_decide
                       (offset + display_limit < Z.of_nat (length ranked))))
              Hsize) as (s1 & Hup1 & Hread1).
  fold ranked in Hstate1. rewrite Hstate1 in Hup1. injection Hup1 as <-.
  assert (Hsettings : maxsize (_user_states (store w1))
                      = maxsize (_user_states (store w))
                      ∧ ttl (_user_states (store w1))
                        = ttl (_user_states (store w))).
  { unfold update_state_and_cache_results, get_or_empty in Hstate1.
    destruct (cache_get_settings (_user_states (store w)) now
                (context_of msg).1.1) as [Hm Ht].
    destruct (cache_get (_user_states (store w)) now (context_of msg).1.1)
      as [d0 c0]. simpl in *.
    destruct (put_settings _ _ _ _ _ Hstate1) as [Hm1 Ht1].
    split; congruence. }
  destruct Hsettings as [Hmax1 Httl1].
  unfold _handle_more_results. subst key.
  destruct (context_of msg) as [[key receiver] at_user] eqn:Hctx.
  cbn [fst snd] in *.
  destruct (more_results_reads (store w1) now1 key) as (s & Hreads & Hs).
  cbn [state_manager].
  destruct (get_query_criteria (store w1) now1 key) as [v1 s1] eqn:Hv1.
  destruct (get_query_offset s1 now1 key) as [v2 s2].
  destruct (get_parsed_query_data s2 now1 key) as [v3 s3].
  destruct (get_has_more s3 now1 key) as [v4 s4].
  cbn [fst] in Hreads. injection Hreads as -> -> -> ->.
  assert (Hq : v1 = query).
  { change v1 with (v1, s1).1. rewrite <- Hv1. unfold get_query_criteria.
    rewrite Hread1 by done. apply merge_update_query. }
  subst v1.
  unfold get_query_offset, get_parsed_query_data, get_has_more.
  rewrite !Hread1 by done.
  rewrite merge_update_parsed by (by destruct parsed as [[| |]| | | |]).
  destruct (merge_update_committed (stored (store w) now key)
              STATE_WAITING_SELECTION
              (imap cached_result
                 (py_slice ranked offset (offset + display_limit)))
              (Some query) (Some parsed) (offset + display_limit)
              (bool_decide (offset + display_limit < Z.of_nat (length ranked))))
    as (_ & -> & ->).
  rewrite Hquery, Hparsed. cbn [negb orb].
  rewrite bool_decide_eq_true_2 by lia. cbn [truthy scalar_truthy negb].
  cbn [as_offset VInt SInt].
  (* the callee, at the committed offset *)
  destruct Hs as (Hmaxs & Httls & Hlinks).
  pose proof (fetch_commits_state config msg query (offset + display_limit)
                parsed now1 {| store := s; outbox := [] |} pool message2)
    as Hsecond.
  rewrite Hrules, Hctx in Hsecond.
  cbn [fetch_offset shown_pool_size fst store] in Hsecond.
  destruct (Hsecond Hfind
              (Hnonempty (offset + display_limit)
                 ltac:(unfold display_limit; lia) Hmore)
              ltac:(lia) Hmessage2)
    as (w2 & m2 & Hcall2 & Hout2 & Htext2 & Hstate2).
  fold ranked in Hstate2.
  rewrite Hcall2. cbn [outbox sent state_manager].
  eexists _, m2. split; [done|].
  split; [by rewrite Hout2|]. split; [by rewrite Htext2|].
  intros now2 Hlive2. cbn [state_manager].
  destruct (read_after_update s now1 key STATE_WAITING_SELECTION
              (Some (imap cached_result
                       (py_slice ranked (offset + display_limit)
                          (offset + display_limit + display_limit))))
              (Some query) (Some parsed)
              (Some (offset + display_limit + display_limit))
              (Some (bool_decide
                       (offset + display_limit + display_limit
                        < Z.of_nat (length ranked))))
              ltac:(lia)) as (s2' & Hup2 & Hread2).
  rewrite Hstate2 in Hup2. injection Hup2 as <-.
  unfold get_query_offset, get_has_more.
  rewrite !Hread2 by (rewrite Httls, Httl1; exact Hlive2).
  rewrite Hlen.
  split; apply merge_update_committed.
Qed.

Lemma more_results_next_page_witness :
  ∃ w1,
    @_fetch_and_send_candidates sample_builtins sample_collaborators
      sample_config sample_msg (VDict [("position", VStr "engineer")]) 0
      sample_parsed 0%Qc sample_world = (Ret true, w1)
    ∧ ∃ cv' m,
        @_handle_more_results sample_builtins sample_collaborators
          sample_config sample_msg (Qc_of_Z 60)
          {| state_manager := store w1; sent := [] |} = Some (Ret cv')
        ∧ sent cv' = [Page m]
        ∧ (let next_page :=
             py_slice
               (@scored_and_sorted_candidates sample_builtins
                  (Some sample_rules) sample_parsed sample_pool) 5 10 in
           @_format_results_message sample_builtins next_page
             (@summary_for sample_collaborators sample_parsed next_page)
             (Some 12)
           = Ret (text m))
        ∧ (get_query_offset (state_manager cv') (Qc_of_Z 120) "hr_1").1
          = VInt 10.
Proof.
  assert (Hfind : @find_candidates sample_collaborators
                    (VDict [("position", VStr "engineer")])
                    (fetch_limit (Some sample_rules)) 0 = Ret sample_pool)
    by (vm_compute; reflexivity).
  assert (Hmore : 0 + display_limit < Z.of_nat (length sample_pool))
    by by vm_compute.
  assert (Hsize : 1 ≤ maxsize (_user_states (store sample_world)))
    by by vm_compute.
  destruct (@more_results_next_page sample_builtins sample_collaborators
              sample_config sample_rules sample_msg
              (VDict [("position", VStr "engineer")]) sample_parsed
              sample_pool 0 0%Qc sample_world eq_refl Hfind eq_refl eq_refl
              ltac:(done) Hmore Hsize
              ltac:(vm_compute; reflexivity) ltac:(vm_compute; reflexivity))
    as (w1 & Hfirst & Hreply).
  exists w1. split; [exact Hfirst|].
  assert (Hlive1 : (Qc_of_Z 60
                    < 0 + ttl (_user_states (store sample_world)))%Qc)
    by by vm_compute.
  destruct (Hreply (Qc_of_Z 60) [] Hlive1)
    as (cv' & m & Hcall & Hsent & Htext & Hread).
  exists cv', m.
  split; [exact Hcall|]. split; [exact Hsent|]. split; [exact Htext|].
  assert (Hlive2 : (Qc_of_Z 120
                    < Qc_of_Z 60 + ttl (_user_states (store sample_world)))%Qc)
    by by vm_compute.
  exact (proj1 (Hread _ Hlive2)).
Defined.

(** X27.  When more results are announced at an offset other than 0 but
    the pool found is not longer than the offset, the reply "A" returns
    without any message: the caller and the callee each leave the notice
    to the other. *)
Theorem more_results_silent `{Builtins} `{Collaborators} (config : AppConfig)
    (msg : WxMsg) (now : Qc) (cv : Conversation) (query parsed : pyval)
    (offset : Z) (pool : list Candidate) :
  let key := (context_of msg).1.1 in
  let rules := get_scoring_rules config in
  (get_query_criteria (state_manager cv) now key).1 = query →
  (get_parsed_query_data (state_manager cv) now key).1 = parsed →
  (get_query_offset (state_manager cv) now key).1 = VInt offset →
  truthy query = true → truthy parsed = true →
  truthy (get_has_more (state_manager cv) now key).1 = true →
  find_candidates query (fetch_limit rules) (fetch_offset rules offset)
  = Ret pool →
  offset ≠ 0 → Z.of_nat (length pool) ≤ offset →
  ∃ cv', _handle_more_results config msg now cv = Some (Ret cv')
         ∧ sent cv' = sent cv.
Proof.
  intros key rules Hq Hp Ho Hquery Hparsed Hmore Hfind Hoff Hshort.
  subst key. unfold _handle_more_results.
  destruct (context_of msg) as [[key receiver] at_user] eqn:Hctx.
  cbn [fst snd] in *.
  destruct (more_results_reads (state_manager cv) now key)
    as (s & Hreads & Hs).
  destruct (get_query_criteria (state_manager cv) now key) as [v1 s1].
  destruct (get_query_offset s1 now key) as [v2 s2].
  destruct (get_parsed_query_data s2 now key) as [v3 s3].
  destruct (get_has_more s3 now key) as [v4 s4].
  cbn [fst] in Hreads, Hq. injection Hreads as -> -> -> ->. subst v1.
  rewrite Hp, Ho, Hquery, Hparsed, Hmore. cbn [negb orb as_offset VInt SInt].
  rewrite (fetch_beyond_end config msg query offset parsed now
             {| store := s; outbox := [] |} pool Hfind Hshort).
  rewrite bool_decide_eq_false_2 by done.
  cbn [with_manager state_manager sent store outbox fmap list_fmap].
  destruct (get_state s now key) as [state s'].
  destruct (not_idle state); eexists; (split; [done|]);
    cbn [sent cleared with_manager]; by rewrite app_nil_r.
Qed.

Lemma more_results_silent_witness :
  ∃ cv',
    @_handle_more_results sample_builtins sample_collaborators sample_config
      sample_msg (Qc_of_Z 60) sample_stale_conversation = Some (Ret cv')
    ∧ sent cv' = [].
Proof.
  assert (Hfind : @find_candidates sample_collaborators sample_query_criteria
                    (fetch_limit (get_scoring_rules sample_config))
                    (fetch_offset (get_scoring_rules sample_config) 15)
                  = Ret sample_pool)
    by (vm_compute; reflexivity).
  assert (Hshort : Z.of_nat (length sample_pool) ≤ 15) by by vm_compute.
  assert (Hq : (get_query_criteria (state_manager sample_stale_conversation)
                  (Qc_of_Z 60) "hr_1").1 = sample_query_criteria)
    by (vm_compute; reflexivity).
  assert (Hp : (get_parsed_query_data
                  (state_manager sample_stale_conversation)
                  (Qc_of_Z 60) "hr_1").1 = sample_parsed)
    by (vm_compute; reflexivity).
  assert (Ho : (get_query_offset (state_manager sample_stale_conversation)
                  (Qc_of_Z 60) "hr_1").1 = VInt 15)
    by (vm_compute; reflexivity).
  assert (Hm : truthy (get_has_more (state_manager sample_stale_conversation)
                         (Qc_of_Z 60) "hr_1").1 = true)
    by (vm_compute; reflexivity).
  exact (@more_results_silent sample_builtins sample_collaborators
           sample_config sample_msg (Qc_of_Z 60) sample_stale_conversation
           sample_query_criteria sample_parsed 15 sample_pool
           Hq Hp Ho eq_refl eq_refl Hm Hfind ltac:(done) Hshort).
Defined.

Lemma merge_update_refreshed ud state :
  dict_get (merge_update ud state None None None None None) "state"
           (VStr STATE_IDLE) = VStr state
  ∧ dict_get (merge_update ud state None None None None None)
             "last_results" VNone = VNone
  ∧ dict_get (merge_update ud state None None None None None)
             "query_criteria" VNone = VNone
  ∧ dict_get (merge_update ud state None None None None None)
             "query_offset" (VInt 0) = VInt 0
  ∧ dict_get (merge_update ud state None None None None None)
             "has_more" (VBool false) = VBool false.
Proof.
  unfold merge_update, dict_get.
  cbn [opt_val opt_list default from_option id is_none VNone negb has_results].
  rewrite orb_true_r.
  destruct (negb (is_none _));
    rewrite ?lookup_insert_ne by done;
    repeat split;
    rewrite ?lookup_insert_ne by done; by rewrite ?lookup_insert_eq.
Qed.

(** X30.  When more results are announced and the cached query finds,
    at the stored offset, a page whose result message cannot be built,
    the reply "A" sends the error notice and no page.  On a store of
    capacity at least one it leaves the conversation waiting for a
    selection, with the cached results and the cached query gone, the
    offset back at 0 and no further results announced. *)
Theorem more_results_page_error `{Builtins} `{Collaborators}
    (config : AppConfig) (msg : WxMsg) (now : Qc) (cv : Conversation)
    (query parsed : pyval) (offset : Z) (pool : list Candidate) (e : exn) :
  let key := (context_of msg).1.1 in
  let receiver := (context_of msg).1.2 in
  let at_user := (context_of msg).2 in
  let rules := get_scoring_rules config in
  let ranked := scored_and_sorted_candidates rules parsed pool in
  let page := py_slice ranked offset (offset + display_limit) in
  (get_query_criteria (state_manager cv) now key).1 = query →
  (get_parsed_query_data (state_manager cv) now key).1 = parsed →
  (get_query_offset (state_manager cv) now key).1 = VInt offset →
  truthy query = true → truthy parsed = true →
  truthy (get_has_more (state_manager cv) now key).1 = true →
  find_candidates query (fetch_limit rules) (fetch_offset rules offset)
  = Ret pool →
  page ≠ [] →
  _format_results_message page (summary_for parsed page)
    (shown_pool_size rules pool) = Raise e →
  1 ≤ maxsize (_user_states (state_manager cv)) →
  ∃ cv', _handle_more_results config msg now cv = Some (Ret cv')
         ∧ sent cv'
           = app (sent cv) [Notice MoreErrorText [receiver] (tags_of at_user)]
         ∧ ∀ now',
             (now' < now + ttl (_user_states (state_manager cv)))%Qc →
             (get_state (state_manager cv') now' key).1
             = VStr STATE_WAITING_SELECTION
             ∧ (get_last_results (state_manager cv') now' key).1 = VNone
             ∧ (get_query_criteria (state_manager cv') now' key).1 = VNone
             ∧ (get_query_offset (state_manager cv') now' key).1 = VInt 0
             ∧ (get_has_more (state_manager cv') now' key).1 = VBool false.
Proof.
  intros key receiver at_user rules ranked page Hq Hp Ho Hquery Hparsed Hmore
    Hfind Hpage Hformat Hsize.
  subst key receiver at_user. unfold _handle_more_results.
  pose proof (λ w, fetch_page config msg query offset parsed now w pool
                     Hfind Hpage) as Hcall.
  fold rules ranked page in Hcall. rewrite Hformat in Hcall.
  destruct (context_of msg) as [[key receiver] at_user] eqn:Hctx.
  cbn [fst snd] in *.
  destruct (more_results_reads (state_manager cv) now key)
    as (s & Hreads & Hs).
  destruct (get_query_criteria (state_manager cv) now key) as [v1 s1].
  destruct (get_query_offset s1 now key) as [v2 s2].
  destruct (get_parsed_query_data s2 now key) as [v3 s3].
  destruct (get_has_more s3 now key) as [v4 s4].
  cbn [fst] in Hreads, Hq. injection Hreads as -> -> -> ->. subst v1.
  rewrite Hp, Ho, Hquery, Hparsed, Hmore. cbn [negb orb as_offset VInt SInt].
  rewrite Hcall.
  cbn [with_manager state_manager sent store outbox fmap list_fmap notify].
  destruct Hs as (Hmaxs & Httls & Hlinks).
  destruct (read_after_update s now key STATE_WAITING_SELECTION None None
              None None None ltac:(lia)) as (s' & Hup & Hread).
  rewrite Hup. cbn [bind]. eexists. split; [done|].
  split; [by rewrite app_nil_r|].
  intros now' Hlive. cbn [with_manager state_manager].
  unfold get_state, get_last_results, get_query_criteria, get_query_offset,
    get_has_more.
  rewrite !Hread by (by rewrite Httls).
  apply merge_update_refreshed.
Qed.

Lemma more_results_page_error_witness :
  ∃ cv',
    @_handle_more_results sample_builtins bare_collaborators sample_config
      sample_msg (Qc_of_Z 60) sample_second_page_conversation
    = Some (Ret cv')
    ∧ sent cv' = [Notice MoreErrorText ["hr_1"] None]
    ∧ (get_query_criteria (state_manager cv') (Qc_of_Z 120) "hr_1").1 = VNone.
Proof.
  destruct (@more_results_page_error sample_builtins bare_collaborators
              sample_config sample_msg (Qc_of_Z 60)
              sample_second_page_conversation sample_query_criteria
              sample_parsed 10 (app sample_pool [sample_bare_candidate])
              AttributeError)
    as (cv' & Hreply & Hsent & Hread).
  - vm_compute. reflexivity.
  - vm_compute. reflexivity.
  - vm_compute. reflexivity.
  - reflexivity.
  - reflexivity.
  - vm_compute. reflexivity.
  - vm_compute. reflexivity.
  - by vm_compute.
  - vm_compute. reflexivity.
  - by vm_compute.
  - exists cv'. split; [exact Hreply|]. split; [exact Hsent|].
    apply Hread. by vm_compute.
Defined.

End RepliesFacts.

(** ** Skill synonyms and the scoring rules *)

Section QueryInputs.
Import ScoringUtils StateStore QueryHandler CertificateCheck SkillExpansion
  Statements Notions.

Lemma expand_loop `{Builtins} (skills acc : list string) (x : string) :
  x ∈ foldl expand_one acc skills
  ↔ x ∈ acc ∨ x ∈ skills
    ∨ (x ∈ ["cad"; "autocad"; "cad制图"]
       ∧ ∃ skill, skill ∈ skills ∧ skill ∈ ["cad"; "autocad"; "cad制图"]).
Proof.
  revert acc. induction skills as [|skill skills IH]; intros acc; simpl.
  - split; [auto|]. intros [?|[Hx|(_ & skill & Hs & _)]]; [done| |].
    + by apply elem_of_nil in Hx.
    + by apply elem_of_nil in Hs.
  - rewrite IH. unfold expand_one, SKILL_SYNONYMS.
    cbn [List.find].
    assert (Hskills : ∀ y, y ∈ skill :: skills ↔ y = skill ∨ y ∈ skills)
      by (intros; apply elem_of_cons).
    setoid_rewrite Hskills.
    destruct (bool_decide (skill ∈ ["cad"; "autocad"; "cad制图"])) eqn:Hgroup;
      rewrite list_elem_of_union.
    + apply bool_decide_eq_true in Hgroup. split.
      * intros [[Hacc|Hx]|[Hx|(Hx & s & Hs & Hsg)]].
        -- by left.
        -- right. right. split; [done|]. exists skill. split; [by left|done].
        -- right. left. by right.
        -- right. right. split; [done|]. exists s. split; [by right|done].
      * intros [Hacc|[[->|Hx]|(Hx & s & [->|Hs] & Hsg)]].
        -- left. by left.
        -- left. by right.
        -- right. by left.
        -- left. by right.
        -- right. right. split; [done|]. by exists s.
    + apply bool_decide_eq_false in Hgroup.
      rewrite list_elem_of_singleton. split.
      * intros [[Hacc|Hx]|[Hx|(Hx & s & Hs & Hsg)]].
        -- by left.
        -- right. left. by left.
        -- right. left. by right.
        -- right. right. split; [done|]. exists s. split; [by right|done].
      * intros [Hacc|[[->|Hx]|(Hx & s & [->|Hs] & Hsg)]].
        -- left. by left.
        -- left. by right.
        -- right. by left.
        -- done.
        -- right. right. split; [done|]. by exists s.
Qed.

(** X28.  [_expand_skills] returns, without repetition, the requested
    skills in their normalised form together with the whole synonym group
    of every requested skill that belongs to one. *)
Theorem expand_skills_members `{Builtins} (skills : list pyval) :
  let group := ["cad"; "autocad"; "cad制图"] in
  let requested := normalized_input_skills skills in
  ∃ expanded,
    _expand_skills (VList skills) = Ret expanded
    ∧ NoDup expanded
    ∧ ∀ x, x ∈ expanded
           ↔ x ∈ requested
             ∨ (x ∈ group ∧ ∃ skill, skill ∈ requested ∧ skill ∈ group).
Proof.
  intros group requested. unfold _expand_skills.
  destruct skills as [|skill skills].
  - exists []. split; [done|]. split; [constructor|].
    intros x. split; [by intros ?%elem_of_nil|].
    intros [Hx|(_ & s & Hs & _)]; [done | by apply elem_of_nil in Hs].
  - cbn [truthy negb py_iter bind]. eexists. split; [done|].
    split; [apply NoDup_remove_dups|].
    intros x. unfold list_set at 1. rewrite elem_of_remove_dups.
    rewrite expand_loop. fold requested. split.
    + intros [Hx|Hx]; [by apply elem_of_nil in Hx | done].
    + auto.
Qed.

(** X29.  Rules that [get_scoring_rules] returns are the configured
    ones, hold dimensions and a pool size that is a positive integer,
    which is the number of candidates the handler fetches (its default of
    30 is never used); the handler never asks the store for fewer than
    one candidate. *)
Theorem scoring_rules_validated (config : AppConfig) :
  (∀ rules, get_scoring_rules config = Some rules →
     scoring_rules config = Some rules
     ∧ is_Some (dimensions rules)
     ∧ positive_int (initial_candidate_pool_size rules)
       = Some (fetch_limit (Some rules)))
  ∧ 1 ≤ fetch_limit (get_scoring_rules config).
Proof.
  assert (Hvalid : ∀ rules, get_scoring_rules config = Some rules →
            scoring_rules config = Some rules
            ∧ is_Some (dimensions rules)
            ∧ positive_int (initial_candidate_pool_size rules)
              = Some (fetch_limit (Some rules))).
  { intros rules. unfold get_scoring_rules, fetch_limit.
    destruct (scoring_rules config) as [r|]; [|done].
    destruct (rules_falsy r); [done|].
    destruct (positive_int (initial_candidate_pool_size r)) as [n|] eqn:Hn;
      [|done].
    destruct (dimensions r) as [d|] eqn:Hd; [|done].
    intros [= <-]. rewrite Hn, Hd. by repeat split. }
  split; [exact Hvalid|].
  destruct (get_scoring_rules config) as [rules|] eqn:Hrules; [|done].
  destruct (Hvalid rules eq_refl) as (_ & _ & Hpool).
  revert Hpool. generalize (fetch_limit (Some rules)).
  unfold positive_int.
  destruct (initial_candidate_pool_size rules) as [[|[]|[z|]]|]; try done.
  - by intros n [= <-].
  - case_bool_decide; [done|]. intros n [= <-]. lia.
Qed.

Lemma scoring_rules_validated_witness :
  positive_int (initial_candidate_pool_size sample_rules)
  = Some (fetch_limit (Some sample_rules))
  ∧ 1 ≤ fetch_limit (get_scoring_rules unscored_config).
Proof.
  split.
  - exact (proj2 (proj2 (proj1 (scoring_rules_validated sample_config)
                           sample_rules eq_refl))).
  - exact (proj2 (scoring_rules_validated unscored_config)).
Defined.

End QueryInputs.
